(** * SDL bandlimited audio resampler (src/audio/SDL_audioresample.c)

    A shallow embedding of the resampler and the properties of its
    planning arithmetic, per-frame kernels, driver loop and filter bank.

    Conventions.
    - [Sint64], [Sint32] and [Uint32] values are integers of [Z]; every C
      operation that can leave the type's range is followed by the
      corresponding wrap ([Sint64_wrap], [Sint32_wrap], [Uint32_wrap]).
    - [float] is IEEE-754 binary32, modelled by [spec_float] with a 24-bit
      significand and [emax = 128]; every operation rounds to nearest even,
      is evaluated in single precision and is not fused with another one.
    - Pointers into float buffers are integer addresses counted in floats.
    - The build modelled is the portable one ([SDL_SSE_INTRINSICS] is not
      defined), so the dispatch table only holds the scalar kernels. *)

From Stdlib Require Import ZArith Lia List Bool.
From Stdlib Require Import Floats.SpecFloat.
Import ListNotations.

Local Open Scope Z_scope.

(** ** Fixed-width integers *)

Definition SDL_MAX_SINT64 : Z := 2 ^ 63 - 1.
Definition SDL_MIN_SINT64 : Z := - 2 ^ 63.
Definition SDL_MAX_SINT32 : Z := 2 ^ 31 - 1.
Definition SDL_MIN_SINT32 : Z := - 2 ^ 31.

(** The value of an integer expression after conversion to [Sint64]. *)
Definition Sint64_wrap (z : Z) : Z := (z + 2 ^ 63) mod 2 ^ 64 - 2 ^ 63.

(** The cast [(Sint32)z], also used for [int]. *)
Definition Sint32_wrap (z : Z) : Z := (z + 2 ^ 31) mod 2 ^ 32 - 2 ^ 31.

(** The cast [(Uint32)z]. *)
Definition Uint32_wrap (z : Z) : Z := z mod 2 ^ 32.

Definition in_Sint64 (z : Z) : Prop := SDL_MIN_SINT64 <= z <= SDL_MAX_SINT64.
Definition in_Sint32 (z : Z) : Prop := SDL_MIN_SINT32 <= z <= SDL_MAX_SINT32.

(** [#define SDL_max(x, y) (((x) > (y)) ? (x) : (y))] *)
Definition SDL_max (x y : Z) : Z := if x >? y then x else y.

(** ** Compile-time constants *)

Definition RESAMPLER_ZERO_CROSSINGS : Z := 5.
Definition RESAMPLER_MAX_PADDING_FRAMES : Z := RESAMPLER_ZERO_CROSSINGS + 1.
Definition RESAMPLER_SAMPLES_PER_FRAME : Z := RESAMPLER_ZERO_CROSSINGS * 2.
Definition RESAMPLER_BITS_PER_SAMPLE : Z := 16.
Definition RESAMPLER_BITS_PER_ZERO_CROSSING : Z :=
  Z.quot RESAMPLER_BITS_PER_SAMPLE 2 + 1.
Definition RESAMPLER_SAMPLES_PER_ZERO_CROSSING : Z :=
  Z.shiftl 1 RESAMPLER_BITS_PER_ZERO_CROSSING.
Definition RESAMPLER_FILTER_INTERP_BITS : Z :=
  32 - RESAMPLER_BITS_PER_ZERO_CROSSING.
Definition RESAMPLER_FILTER_INTERP_RANGE : Z :=
  Z.shiftl 1 RESAMPLER_FILTER_INTERP_BITS.
Definition RESAMPLER_FILTER_SIZE : Z :=
  RESAMPLER_SAMPLES_PER_FRAME * (RESAMPLER_SAMPLES_PER_ZERO_CROSSING + 1).
Definition KAISER_TABLE_SIZE : Z := RESAMPLER_ZERO_CROSSINGS * 4.

(** ** Planning arithmetic *)

(** [int SDL_GetResamplerHistoryFrames(void)] *)
Definition SDL_GetResamplerHistoryFrames : Z := RESAMPLER_MAX_PADDING_FRAMES.

(** [int SDL_GetResamplerPaddingFrames(Sint64 resample_rate)] *)
Definition SDL_GetResamplerPaddingFrames (resample_rate : Z) : Z :=
  if resample_rate =? 0 then 0 else RESAMPLER_MAX_PADDING_FRAMES.

(** [Sint64 SDL_GetResampleRate(int src_rate, int dst_rate)]; the three
    assertions are debug checks and do not change the value. *)
Definition SDL_GetResampleRate (src_rate dst_rate : Z) : Z :=
  Sint64_wrap (Z.quot (Sint64_wrap (Z.shiftl src_rate 32)) dst_rate).

(** [ResamplerAdd(a, b, ret)]: the pair is the returned status and the
    content of [*ret] afterwards, which is left alone on failure.
    [SDL_MAX_SINT64 - b] is only evaluated for [b > 0], where it cannot
    overflow. *)
Definition ResamplerAdd (a b ret : Z) : Z * Z :=
  if (b >? 0) && (a >? SDL_MAX_SINT64 - b) then (-1, ret)
  else (0, Sint64_wrap (a + b)).

(** [ResamplerMul(a, b, ret)]; [SDL_MAX_SINT64 / b] is C's truncating
    division, evaluated only for [b > 0]. *)
Definition ResamplerMul (a b ret : Z) : Z * Z :=
  if (b >? 0) && (a >? Z.quot SDL_MAX_SINT64 b) then (-1, ret)
  else (0, Sint64_wrap (a * b)).

(** The condition of the [if] of [SDL_GetResamplerInputFrames], with its
    short circuit: the status ([true] when one of the helpers reported an
    overflow) and the content of [output_offset] afterwards.  The local is
    not initialised in C; it is never read before a helper wrote it. *)
Definition InputFrames_steps (output_frames resample_rate resample_offset : Z)
  : bool * Z :=
  let output_offset := 0 in
  let '(rc, output_offset) :=
    ResamplerMul output_frames resample_rate output_offset in
  if negb (rc =? 0) then (true, output_offset)
  else
    let addend :=
      Sint64_wrap
        (Sint64_wrap (Sint64_wrap (- resample_rate) + resample_offset)
         + 0x100000000) in
    let '(rc, output_offset) := ResamplerAdd output_offset addend output_offset in
    (negb (rc =? 0), output_offset).

(** [Sint64 SDL_GetResamplerInputFrames(Sint64 output_frames,
    Sint64 resample_rate, Sint64 resample_offset)] *)
Definition SDL_GetResamplerInputFrames
  (output_frames resample_rate resample_offset : Z) : Z :=
  let '(failed, output_offset) :=
    InputFrames_steps output_frames resample_rate resample_offset in
  let output_offset := if failed then SDL_MAX_SINT64 else output_offset in
  let input_frames := Sint32_wrap (Z.shiftr output_offset 32) in
  let input_frames := SDL_max input_frames 0 in
  input_frames.

(** The condition of the [if] of [SDL_GetResamplerOutputFrames]. *)
Definition OutputFrames_steps (input_frames resample_offset : Z) : bool * Z :=
  let input_offset := 0 in
  let '(rc, input_offset) :=
    ResamplerMul input_frames 0x100000000 input_offset in
  if negb (rc =? 0) then (true, input_offset)
  else
    let '(rc, input_offset) :=
      ResamplerAdd input_offset (Sint64_wrap (- resample_offset)) input_offset in
    (negb (rc =? 0), input_offset).

(** [input_offset] as the division of [SDL_GetResamplerOutputFrames]
    sees it. *)
Definition OutputFrames_input_offset (input_frames resample_offset : Z) : Z :=
  let '(failed, input_offset) :=
    OutputFrames_steps input_frames resample_offset in
  if failed then SDL_MAX_SINT64 else input_offset.

(** [Sint64 SDL_GetResamplerOutputFrames(Sint64 input_frames,
    Sint64 resample_rate, Sint64 *inout_resample_offset)]: the returned
    count and the content of [*inout_resample_offset] on return. *)
Definition SDL_GetResamplerOutputFrames
  (input_frames resample_rate inout_resample_offset : Z) : Z * Z :=
  let resample_offset := inout_resample_offset in
  let input_offset := OutputFrames_input_offset input_frames resample_offset in
  let output_frames :=
    if input_offset >? 0
    then Sint64_wrap
           (Sint64_wrap (Z.quot (Sint64_wrap (input_offset - 1)) resample_rate)
            + 1)
    else 0 in
  let inout_resample_offset :=
    Sint64_wrap (Sint64_wrap (output_frames * resample_rate) - input_offset) in
  (output_frames, inout_resample_offset).

(** ** Single-precision arithmetic *)

Definition float32 : Type := spec_float.

Definition f32_add : float32 -> float32 -> float32 := SFadd 24 128.
Definition f32_sub : float32 -> float32 -> float32 := SFsub 24 128.
Definition f32_mul : float32 -> float32 -> float32 := SFmul 24 128.
Definition f32_div : float32 -> float32 -> float32 := SFdiv 24 128.
Definition f32_opp : float32 -> float32 := SFopp.
Definition f32_sqrt : float32 -> float32 := SFsqrt 24 128.

(** [x > y], false when either side is a NaN. *)
Definition f32_gt (x y : float32) : bool := SFltb y x.
Definition f32_le (x y : float32) : bool := SFleb x y.
Definition f32_lt (x y : float32) : bool := SFltb x y.

(** The conversion [(float)z] of an integer. *)
Definition f32_of_int (z : Z) : float32 := binary_normalize 24 128 z 0 false.

(** The literals of the source, as the nearest binary32 values. *)
Definition f32_zero : float32 := S754_zero false.             (* 0.0f *)
Definition f32_one : float32 := S754_finite false 8388608 (-23).  (* 1.0f *)
Definition f32_half : float32 := S754_finite false 8388608 (-24). (* 0.5f *)
Definition f32_quarter : float32 := S754_finite false 8388608 (-25). (* 0.25f *)
Definition f32_epsilon : float32 := S754_finite false 9223372 (-63). (* 1e-12f *)
Definition f32_sixth : float32 := S754_finite false 11184811 (-26). (* 0.1666666667f *)
Definition f32_third : float32 := S754_finite false 11184811 (-25). (* 0.3333333333f *)
Definition f32_dB : float32 := f32_of_int 80.                   (* 80.0f *)
Definition f32_8_7 : float32 := S754_finite false 9122611 (-20).  (* 8.7f *)
Definition f32_0_1102 : float32 := S754_finite false 14790794 (-27). (* 0.1102f *)
Definition SDL_PI_F : float32 := S754_finite false 13176795 (-22).

(** ** Memory, trace and the state monad of the run-time code *)

(** Arrays and buffers are total maps from integer indices. *)
Definition upd {A : Type} (a : Z -> A) (i : Z) (v : A) : Z -> A :=
  fun k => if k =? i then v else a k.

(** What a run leaves behind for the safety properties: the address of
    every sample read from the caller's input buffer, and the outcome of
    every [SDL_assert]. *)
Inductive event : Type :=
| Read (addr : Z)
| Assert (holds : bool).

(** The values a [ResampleFrameFunc] pointer takes. *)
Inductive ResampleFrameFunc : Type :=
| Fn_NULL
| Fn_Generic
| Fn_Mono
| Fn_Stereo.

(** The three statics of the file, the caller's input and output buffers
    (distinct objects: the input is only read, the output only written),
    and the trace, most recent event first. *)
Record machine : Type := {
  setup : bool;
  ResamplerFilter : Z -> float32;
  ResampleFrame : Z -> ResampleFrameFunc;
  input : Z -> float32;
  output : Z -> float32;
  trace : list event
}.

(** Static storage is zero-initialised. *)
Definition ResamplerFilter_static : Z -> float32 := fun _ => f32_zero.
Definition ResampleFrame_static : Z -> ResampleFrameFunc := fun _ => Fn_NULL.

Definition M (A : Type) : Type := machine -> A * machine.

Definition ret {A : Type} (a : A) : M A := fun s => (a, s).

Definition bind {A B : Type} (m : M A) (f : A -> M B) : M B :=
  fun s => let '(a, s') := m s in f a s'.

Declare Scope resample_scope.
Delimit Scope resample_scope with resample.
Notation "x <- m ;; k" := (bind m (fun x => k))
  (at level 61, m at next level, right associativity) : resample_scope.
Notation "m ;;; k" := (bind m (fun _ => k))
  (at level 61, right associativity) : resample_scope.
Local Open Scope resample_scope.

Definition log (e : event) (s : machine) : machine :=
  {| setup := setup s; ResamplerFilter := ResamplerFilter s;
     ResampleFrame := ResampleFrame s; input := input s;
     output := output s; trace := e :: trace s |}.

(** A read of the input buffer at address [p]. *)
Definition load_src (p : Z) : M float32 :=
  fun s => (input s p, log (Read p) s).

(** A read of the filter bank at index [p]. *)
Definition load_filter (p : Z) : M float32 :=
  fun s => (ResamplerFilter s p, s).

(** A read of the dispatch table. *)
Definition load_ResampleFrame (i : Z) : M ResampleFrameFunc :=
  fun s => (ResampleFrame s i, s).

(** A write to the output buffer at address [p]. *)
Definition store_dst (p : Z) (v : float32) : M unit :=
  fun s => (tt,
    {| setup := setup s; ResamplerFilter := ResamplerFilter s;
       ResampleFrame := ResampleFrame s; input := input s;
       output := upd (output s) p v; trace := trace s |}).

Definition SDL_assert (b : bool) : M unit :=
  fun s => (tt, log (Assert b) s).

(** [for (i = start; ...; i++)] run for [count] iterations over a state. *)
Fixpoint for_range {S : Type} (count : nat) (i : Z) (body : Z -> S -> S)
  (s : S) : S :=
  match count with
  | O => s
  | S n => for_range n (i + 1) body (body i s)
  end.

(** The same loop around a monadic body that updates local variables. *)
Definition for_loop {A : Type} (count : nat) (i : Z) (body : Z -> A -> M A)
  (acc : A) : M A :=
  fun s => for_range count i (fun i '(a, s) => body i a s) (acc, s).

(** ** Per-frame kernels *)

(** The blend of the two filter rows at tap [i]:
    [(filter[i] * (1.0f - interp)) + (filter[i + 10] * interp)]. *)
Definition interp_scale (filter : Z) (interp : float32) (i : Z) : M float32 :=
  f0 <- load_filter (filter + i) ;;
  f1 <- load_filter (filter + (i + RESAMPLER_SAMPLES_PER_FRAME)) ;;
  ret (f32_add (f32_mul f0 (f32_sub f32_one interp)) (f32_mul f1 interp)).

(** The three scalar kernels.  The local array [scales] and the other
    locals of this file that C leaves uninitialised start as zeros here;
    every slot is written before it is read. *)
Definition ResampleFrame_Generic (src dst filter : Z) (interp : float32)
  (chans : Z) : M unit :=
  scales <-
    for_loop (Z.to_nat RESAMPLER_SAMPLES_PER_FRAME) 0
      (fun i scales =>
         scale <- interp_scale filter interp i ;;
         ret (upd scales i scale))
      (fun _ => f32_zero) ;;
  for_loop (Z.to_nat chans) 0
    (fun chan _ =>
       out <-
         for_loop (Z.to_nat RESAMPLER_SAMPLES_PER_FRAME) 0
           (fun i out =>
              x <- load_src (src + Sint32_wrap (Sint32_wrap (i * chans) + chan)) ;;
              ret (f32_add out (f32_mul x (scales i))))
           f32_zero ;;
       store_dst (dst + chan) out)
    tt.

Definition ResampleFrame_Mono (src dst filter : Z) (interp : float32)
  (chans : Z) : M unit :=
  out <-
    for_loop (Z.to_nat RESAMPLER_SAMPLES_PER_FRAME) 0
      (fun i out =>
         scale <- interp_scale filter interp i ;;
         x <- load_src (src + i) ;;
         ret (f32_add out (f32_mul x scale)))
      f32_zero ;;
  store_dst (dst + 0) out.

Definition ResampleFrame_Stereo (src dst filter : Z) (interp : float32)
  (chans : Z) : M unit :=
  outs <-
    for_loop (Z.to_nat RESAMPLER_SAMPLES_PER_FRAME) 0
      (fun i '(out0, out1) =>
         scale <- interp_scale filter interp i ;;
         x0 <- load_src (src + Sint32_wrap (Sint32_wrap (i * 2) + 0)) ;;
         x1 <- load_src (src + Sint32_wrap (Sint32_wrap (i * 2) + 1)) ;;
         ret (f32_add out0 (f32_mul x0 scale), f32_add out1 (f32_mul x1 scale)))
      (f32_zero, f32_zero) ;;
  store_dst (dst + 0) (fst outs) ;;;
  store_dst (dst + 1) (snd outs).

(** A call through a [ResampleFrameFunc] pointer.  Calling the null
    pointer has no defined behaviour in C; here it does nothing. *)
Definition call_ResampleFrameFunc (f : ResampleFrameFunc)
  (src dst filter : Z) (interp : float32) (chans : Z) : M unit :=
  match f with
  | Fn_NULL => ret tt
  | Fn_Generic => ResampleFrame_Generic src dst filter interp chans
  | Fn_Mono => ResampleFrame_Mono src dst filter interp chans
  | Fn_Stereo => ResampleFrame_Stereo src dst filter interp chans
  end.

(** ** The driver *)

(** One iteration of the loop of [SDL_ResampleAudio] over its two
    loop-carried variables [srcpos] and [dst]. *)
Definition SDL_ResampleAudio_body (resample_frame : ResampleFrameFunc)
  (chans src inframes resample_rate : Z) (i : Z) (st : Z * Z) : M (Z * Z) :=
  let '(srcpos, dst) := st in
  let srcindex := Sint32_wrap (Sint32_wrap (Z.shiftr srcpos 32)) in
  let srcfraction := Uint32_wrap (Z.land srcpos 0xFFFFFFFF) in
  let srcpos := Sint64_wrap (srcpos + resample_rate) in
  SDL_assert ((srcindex >=? -1) && (srcindex <? inframes)) ;;;
  let filter :=
    Uint32_wrap (Z.shiftr srcfraction RESAMPLER_FILTER_INTERP_BITS
                 * RESAMPLER_SAMPLES_PER_FRAME) in
  let interp :=
    f32_mul
      (f32_of_int (Z.land srcfraction (RESAMPLER_FILTER_INTERP_RANGE - 1)))
      (f32_div f32_one (f32_of_int RESAMPLER_FILTER_INTERP_RANGE)) in
  let frame := src + Sint32_wrap (srcindex * chans) in
  call_ResampleFrameFunc resample_frame frame dst filter interp chans ;;;
  ret (srcpos, dst + chans).

(** [void SDL_ResampleAudio(int chans, const float *src, int inframes,
    float *dst, int outframes, Sint64 resample_rate,
    Sint64 *inout_resample_offset)]: the value is the content of
    [*inout_resample_offset] on return. *)
Definition SDL_ResampleAudio
  (chans src inframes dst outframes resample_rate inout_resample_offset : Z)
  : M Z :=
  let srcpos := inout_resample_offset in
  resample_frame <- load_ResampleFrame (Sint32_wrap (chans - 1)) ;;
  SDL_assert (resample_rate >? 0) ;;;
  let src := src - Sint32_wrap ((RESAMPLER_ZERO_CROSSINGS - 1) * chans) in
  st <-
    for_loop (Z.to_nat outframes) 0
      (SDL_ResampleAudio_body resample_frame chans src inframes resample_rate)
      (srcpos, dst) ;;
  ret (Sint64_wrap (fst st - Sint64_wrap (Z.shiftl inframes 32))).

(** ** The filter bank generator *)

(** The loop of [bessel]: [while (t > epsilon) { sum += t;
    t *= x / (i * i); ++i; }].  [fuel] bounds the number of iterations the
    model follows; [None] means the bound was reached with the loop still
    running. *)
Fixpoint bessel_loop (fuel : nat) (x sum i t : float32) : option float32 :=
  match fuel with
  | O => if f32_gt t f32_epsilon then None else Some sum
  | S fuel' =>
      if f32_gt t f32_epsilon then
        let sum := f32_add sum t in
        let t := f32_mul t (f32_div x (f32_mul i i)) in
        let i := f32_add i f32_one in
        bessel_loop fuel' x sum i t
      else Some sum
  end.

(** [static float bessel(float x)] *)
Definition bessel (fuel : nat) (x : float32) : option float32 :=
  let sum := f32_zero in
  let i := f32_one in
  let t := f32_one in
  let x := f32_mul x (f32_mul x f32_quarter) in
  bessel_loop fuel x sum i t.

(** [static void CubicCoef(float *interp, float frac)], on an array of
    four floats. *)
Definition CubicCoef (interp : Z -> float32) (frac : float32) : Z -> float32 :=
  let frac2 := f32_mul frac frac in
  let frac3 := f32_mul frac frac2 in
  let interp :=
    upd interp 3
      (f32_add (f32_mul (f32_opp f32_sixth) frac) (f32_mul f32_sixth frac3)) in
  let interp :=
    upd interp 2
      (f32_sub (f32_add frac (f32_mul f32_half frac2)) (f32_mul f32_half frac3)) in
  let interp :=
    upd interp 0
      (f32_sub
         (f32_add (f32_mul (f32_opp f32_third) frac) (f32_mul f32_half frac2))
         (f32_mul f32_sixth frac3)) in
  upd interp 1
    (f32_sub (f32_sub (f32_sub f32_one (interp 3)) (interp 2)) (interp 0)).

(** [static float CubicInterp(float* interp, float* data)] *)
Definition CubicInterp (interp data : Z -> float32) : float32 :=
  f32_add
    (f32_add
       (f32_add (f32_mul (data 0) (interp 0)) (f32_mul (data 1) (interp 1)))
       (f32_mul (data 2) (interp 2)))
    (f32_mul (data 3) (interp 3)).

(** The loop of [GenerateKaiserTable] over the table, for indices
    [i], [i + 1], ... *)
Fixpoint GenerateKaiserTable_loop (fuel : nat) (count : nat) (i : Z)
  (beta bessel_beta : float32) (tablelen : Z) (table : Z -> float32)
  : option (Z -> float32) :=
  match count with
  | O => Some table
  | S n =>
      let arg :=
        f32_mul beta
          (f32_sqrt
             (f32_sub f32_one
                (f32_div (f32_of_int (Sint32_wrap (i * i)))
                   (f32_of_int (Sint32_wrap (tablelen * tablelen)))))) in
      match bessel fuel arg with
      | None => None
      | Some b =>
          GenerateKaiserTable_loop fuel n (i + 1) beta bessel_beta tablelen
            (upd table (i + 1) (f32_div b bessel_beta))
      end
  end.

(** [static void GenerateKaiserTable(float beta, float* table,
    int tablelen)].  [SDL_sqrtf] is declared outside this file; it is
    taken to be the correctly rounded IEEE-754 square root [f32_sqrt]. *)
Definition GenerateKaiserTable (fuel : nat) (beta : float32)
  (table : Z -> float32) (tablelen : Z) : option (Z -> float32) :=
  match bessel fuel beta with
  | None => None
  | Some bessel_beta =>
      match GenerateKaiserTable_loop fuel (Z.to_nat (tablelen + 1)) 0
              beta bessel_beta tablelen table with
      | None => None
      | Some table =>
          let table := upd table 0 (table 2) in
          let table := upd table (tablelen + 2) f32_zero in
          let table := upd table (tablelen + 3) f32_zero in
          Some table
      end
  end.

Section Generator.

(** [SDL_sinf] is declared outside this file and its rounding is not
    fixed by IEEE-754: the generator is modelled for any such function. *)
Variable SDL_sinf : float32 -> float32.

(** The body of the inner loop of [GenerateResamplerFilter], over the
    bank and the local [s]. *)
Definition GenerateResamplerFilter_inner (kaiser interp : Z -> float32)
  (winglen i : Z) (j : Z) (st : (Z -> float32) * float32)
  : (Z -> float32) * float32 :=
  let '(ResamplerFilter, s) := st in
  let n := j * RESAMPLER_SAMPLES_PER_ZERO_CROSSING + i in
  let v := f32_one in
  let v :=
    if negb (n =? 0) then
      f32_div
        (f32_mul
           (CubicInterp interp
              (fun k => kaiser (Z.quot (n * KAISER_TABLE_SIZE) winglen + k)))
           s)
        (f32_of_int n)
    else v in
  let lwing :=
    (i * RESAMPLER_SAMPLES_PER_FRAME) + (RESAMPLER_ZERO_CROSSINGS - 1) - j in
  let rwing := (RESAMPLER_FILTER_SIZE - 1) - lwing in
  let ResamplerFilter := upd ResamplerFilter lwing v in
  let ResamplerFilter := upd ResamplerFilter rwing v in
  (ResamplerFilter, f32_opp s).

(** The body of the outer loop; the indices of the generator stay far
    below [2^31], so its [int] arithmetic is written without wraps. *)
Definition GenerateResamplerFilter_outer (kaiser : Z -> float32)
  (winglen : Z) (sinc_scale : float32) (i : Z)
  (ResamplerFilter : Z -> float32) : Z -> float32 :=
  let s := f32_div (SDL_sinf (f32_mul (f32_of_int i) sinc_scale)) sinc_scale in
  let interp :=
    CubicCoef (fun _ => f32_zero)
      (f32_div
         (f32_of_int (Z.rem (i * KAISER_TABLE_SIZE) winglen))
         (f32_of_int winglen)) in
  fst (for_range (Z.to_nat RESAMPLER_ZERO_CROSSINGS) 0
         (GenerateResamplerFilter_inner kaiser interp winglen i)
         (ResamplerFilter, s)).

(** The body of the last loop, which clears the outer taps of the two
    boundary rows. *)
Definition GenerateResamplerFilter_clear (i : Z)
  (ResamplerFilter : Z -> float32) : Z -> float32 :=
  let rwing := i + RESAMPLER_ZERO_CROSSINGS in
  let lwing := (RESAMPLER_FILTER_SIZE - 1) - rwing in
  let ResamplerFilter := upd ResamplerFilter lwing f32_zero in
  upd ResamplerFilter rwing f32_zero.

(** [static void GenerateResamplerFilter()], from the content of the
    static [ResamplerFilter] to its content on return. *)
Definition GenerateResamplerFilter (fuel : nat)
  (ResamplerFilter : Z -> float32) : option (Z -> float32) :=
  let dB := f32_dB in
  let beta := f32_mul f32_0_1102 (f32_sub dB f32_8_7) in
  let winglen :=
    RESAMPLER_SAMPLES_PER_ZERO_CROSSING * RESAMPLER_ZERO_CROSSINGS in
  let sinc_scale :=
    f32_div SDL_PI_F (f32_of_int RESAMPLER_SAMPLES_PER_ZERO_CROSSING) in
  match GenerateKaiserTable fuel beta (fun _ => f32_zero) KAISER_TABLE_SIZE with
  | None => None
  | Some kaiser =>
      let ResamplerFilter :=
        for_range (Z.to_nat RESAMPLER_SAMPLES_PER_ZERO_CROSSING) 0
          (GenerateResamplerFilter_outer kaiser winglen sinc_scale)
          ResamplerFilter in
      Some (for_range (Z.to_nat RESAMPLER_ZERO_CROSSINGS) 0
              GenerateResamplerFilter_clear ResamplerFilter)
  end.

(** [void SDL_SetupAudioResampler(void)] on the statics of the machine;
    [SDL_HasSSE] is not consulted in the portable build. *)
Definition SDL_SetupAudioResampler (fuel : nat) (s : machine) : option machine :=
  if setup s then Some s
  else
    match GenerateResamplerFilter fuel (ResamplerFilter s) with
    | None => None
    | Some bank =>
        let table :=
          for_range 8 0 (fun i table => upd table i Fn_Generic)
            (ResampleFrame s) in
        let table := upd table 0 Fn_Mono in
        let table := upd table 1 Fn_Stereo in
        Some {| setup := true; ResamplerFilter := bank;
                ResampleFrame := table; input := input s;
                output := output s; trace := trace s |}
    end.

End Generator.

(** The machine when the process starts: zeroed statics, and the
    caller's two buffers. *)
Definition machine_at_start (input output : Z -> float32) : machine :=
  {| setup := false; ResamplerFilter := ResamplerFilter_static;
     ResampleFrame := ResampleFrame_static; input := input;
     output := output; trace := [] |}.

(** ** The kernel contract, in the words of the specification *)

(** The sum over [i = 0 .. n - 1] of [x i * scale i], accumulated from
    [0.0f] in increasing [i]. *)
Definition fir_sum (x scale : Z -> float32) (n : nat) : float32 :=
  fold_left (fun acc i => f32_add acc (f32_mul (x i) (scale i)))
    (map Z.of_nat (seq 0 n)) f32_zero.

(** The per-tap blend [(1 - alpha) * f0[i] + alpha * f1[i]]. *)
Definition contract_scale (f0 f1 : Z -> float32) (alpha : float32) (i : Z)
  : float32 :=
  f32_add (f32_mul (f32_sub f32_one alpha) (f0 i)) (f32_mul alpha (f1 i)).

(** [dst[c]] of the contract, for a window [src] of [T = 10] frames of
    [C] interleaved channels. *)
Definition contract_output (src f0 f1 : Z -> float32) (alpha : float32)
  (C c : Z) : float32 :=
  fir_sum (fun i => src (i * C + c)) (contract_scale f0 f1 alpha)
    (Z.to_nat RESAMPLER_SAMPLES_PER_FRAME).

(** The channel counts a scalar kernel is written for. *)
Definition kernel_supports (f : ResampleFrameFunc) (C : Z) : Prop :=
  match f with
  | Fn_NULL => False
  | Fn_Generic => True
  | Fn_Mono => C = 1
  | Fn_Stereo => C = 2
  end.

(** ** Relations on machines used by the safety properties *)

(** [extends P m m']: [m'] is [m] after some steps that left the statics
    and the input buffer alone and logged only events satisfying [P]. *)
Definition extends (P : event -> Prop) (m m' : machine) : Prop :=
  setup m' = setup m /\
  ResamplerFilter m' = ResamplerFilter m /\
  ResampleFrame m' = ResampleFrame m /\
  input m' = input m /\
  exists l, trace m' = l ++ trace m /\ Forall P l.

(** An event is fine for a buffer of floats at addresses [lo .. hi - 1]
    when it is a read inside the buffer or an assertion that holds. *)
Definition event_within (lo hi : Z) (e : event) : Prop :=
  match e with
  | Read a => lo <= a < hi
  | Assert b => b = true
  end.

(** The blend as the kernels compute it, from the bank of machine [m]. *)
Definition kernel_scale (m : machine) (filter : Z) (interp : float32) (i : Z)
  : float32 :=
  f32_add
    (f32_mul (ResamplerFilter m (filter + i)) (f32_sub f32_one interp))
    (f32_mul (ResamplerFilter m (filter + (i + RESAMPLER_SAMPLES_PER_FRAME)))
       interp).

(** A machine whose dispatch table is the one [SDL_SetupAudioResampler]
    installs, with an all-zero bank and all-zero buffers; it serves as a
    concrete state in the examples. *)
Definition machine_with_dispatch : machine :=
  {| setup := true;
     ResamplerFilter := ResamplerFilter_static;
     ResampleFrame := upd (upd (fun _ => Fn_Generic) 0 Fn_Mono) 1 Fn_Stereo;
     input := fun _ => f32_zero;
     output := fun _ => f32_zero;
     trace := [] |}.

(** ** Positions of the bank written by the generator *)

(** The positions written by the first [m] iterations of the inner loop
    for row [i], and by the first [n] rows. *)
Definition written_in_row (i : Z) (m : nat) (k : Z) : Prop :=
  exists j, 0 <= j < Z.of_nat m /\
    (k = i * 10 + 4 - j \/ k = RESAMPLER_FILTER_SIZE - 1 - (i * 10 + 4 - j)).

Definition written_rows (n : nat) (k : Z) : Prop :=
  exists i, 0 <= i < Z.of_nat n /\ written_in_row i 5 k.

(** ** The quantities the driver derives from a position *)

(** [srcindex], [srcfraction], the bank index of the filter row pair,
    the weight and the window address that one iteration of
    [SDL_ResampleAudio] computes from [srcpos], for the caller's [src]. *)
Definition driver_srcindex (srcpos : Z) : Z :=
  Sint32_wrap (Sint32_wrap (Z.shiftr srcpos 32)).

Definition driver_srcfraction (srcpos : Z) : Z :=
  Uint32_wrap (Z.land srcpos 0xFFFFFFFF).

Definition driver_filter (srcpos : Z) : Z :=
  Uint32_wrap (Z.shiftr (driver_srcfraction srcpos) RESAMPLER_FILTER_INTERP_BITS
               * RESAMPLER_SAMPLES_PER_FRAME).

Definition driver_interp (srcpos : Z) : float32 :=
  f32_mul
    (f32_of_int (Z.land (driver_srcfraction srcpos)
                   (RESAMPLER_FILTER_INTERP_RANGE - 1)))
    (f32_div f32_one (f32_of_int RESAMPLER_FILTER_INTERP_RANGE)).

Definition driver_frame (chans src srcpos : Z) : Z :=
  src - Sint32_wrap ((RESAMPLER_ZERO_CROSSINGS - 1) * chans)
  + Sint32_wrap (driver_srcindex srcpos * chans).

(** The sample the driver stores for channel [c] of an output whose
    position is [srcpos]: the kernel contract on the window at
    [driver_frame] with the rows at [driver_filter]. *)
Definition driver_sample (m : machine) (chans src srcpos c : Z) : float32 :=
  contract_output (fun j => input m (driver_frame chans src srcpos + j))
    (fun i => ResamplerFilter m (driver_filter srcpos + i))
    (fun i => ResamplerFilter m
                (driver_filter srcpos + RESAMPLER_SAMPLES_PER_FRAME + i))
    (driver_interp srcpos) chans c.

(** ** Positions of the bank cleared by the last loop of the generator *)

Definition cleared (n : nat) (q : Z) : Prop :=
  exists i, 0 <= i < Z.of_nat n /\
    (q = i + RESAMPLER_ZERO_CROSSINGS \/
     q = RESAMPLER_FILTER_SIZE - 1 - (i + RESAMPLER_ZERO_CROSSINGS)).


(** ** The SSE kernel *)

(** [ResampleFrame_Generic_SSE] is the kernel of the builds that define
    [SDL_SSE_INTRINSICS]; it is embedded on its own, beside the scalar
    kernels and their dispatch. *)

(** A [__m128]: four binary32 lanes, lane 0 the lowest.  The arithmetic
    intrinsics are the lane-wise IEEE-754 operations of [addps], [subps]
    and [mulps] with MXCSR at its default (round to nearest, denormals
    kept); the others move lanes. *)
Record __m128 : Type := m128 {
  lane0 : float32;
  lane1 : float32;
  lane2 : float32;
  lane3 : float32
}.

Definition lane (a : __m128) (k : Z) : float32 :=
  if k =? 0 then lane0 a
  else if k =? 1 then lane1 a
  else if k =? 2 then lane2 a
  else lane3 a.

Definition _mm_setzero_ps : __m128 := m128 f32_zero f32_zero f32_zero f32_zero.

Definition _mm_set1_ps (w : float32) : __m128 := m128 w w w w.

Definition _mm_add_ps (a b : __m128) : __m128 :=
  m128 (f32_add (lane0 a) (lane0 b)) (f32_add (lane1 a) (lane1 b))
       (f32_add (lane2 a) (lane2 b)) (f32_add (lane3 a) (lane3 b)).

Definition _mm_sub_ps (a b : __m128) : __m128 :=
  m128 (f32_sub (lane0 a) (lane0 b)) (f32_sub (lane1 a) (lane1 b))
       (f32_sub (lane2 a) (lane2 b)) (f32_sub (lane3 a) (lane3 b)).

Definition _mm_mul_ps (a b : __m128) : __m128 :=
  m128 (f32_mul (lane0 a) (lane0 b)) (f32_mul (lane1 a) (lane1 b))
       (f32_mul (lane2 a) (lane2 b)) (f32_mul (lane3 a) (lane3 b)).

Definition _mm_add_ss (a b : __m128) : __m128 :=
  m128 (f32_add (lane0 a) (lane0 b)) (lane1 a) (lane2 a) (lane3 a).

Definition _mm_unpacklo_ps (a b : __m128) : __m128 :=
  m128 (lane0 a) (lane0 b) (lane1 a) (lane1 b).

Definition _mm_unpackhi_ps (a b : __m128) : __m128 :=
  m128 (lane2 a) (lane2 b) (lane3 a) (lane3 b).

Definition _mm_movehl_ps (a b : __m128) : __m128 :=
  m128 (lane2 b) (lane3 b) (lane2 a) (lane3 a).

Definition _mm_movelh_ps (a b : __m128) : __m128 :=
  m128 (lane0 a) (lane1 a) (lane0 b) (lane1 b).

Definition _MM_SHUFFLE (fp3 fp2 fp1 fp0 : Z) : Z :=
  Z.lor (Z.lor (Z.lor (Z.shiftl fp3 6) (Z.shiftl fp2 4)) (Z.shiftl fp1 2)) fp0.

Definition _mm_shuffle_ps (a b : __m128) (imm8 : Z) : __m128 :=
  m128 (lane a (Z.land imm8 3))
       (lane a (Z.land (Z.shiftr imm8 2) 3))
       (lane b (Z.land (Z.shiftr imm8 4) 3))
       (lane b (Z.land (Z.shiftr imm8 6) 3)).

(** The loads take the accessor of the array they read ([load_src] for
    the input window, [load_filter] for the bank). *)
Definition _mm_loadu_ps (load : Z -> M float32) (p : Z) : M __m128 :=
  x0 <- load p ;;
  x1 <- load (p + 1) ;;
  x2 <- load (p + 2) ;;
  x3 <- load (p + 3) ;;
  ret (m128 x0 x1 x2 x3).

Definition _mm_loadl_pi (load : Z -> M float32) (a : __m128) (p : Z)
  : M __m128 :=
  x0 <- load p ;;
  x1 <- load (p + 1) ;;
  ret (m128 x0 x1 (lane2 a) (lane3 a)).

Definition _mm_load_ss (load : Z -> M float32) (p : Z) : M __m128 :=
  x0 <- load p ;;
  ret (m128 x0 f32_zero f32_zero f32_zero).

Definition _mm_store_ss (p : Z) (a : __m128) : M unit :=
  store_dst p (lane0 a).

Definition _mm_storel_pi (p : Z) (a : __m128) : M unit :=
  store_dst p (lane0 a) ;;;
  store_dst (p + 1) (lane1 a).

Definition _mm_storeu_ps (p : Z) (a : __m128) : M unit :=
  store_dst p (lane0 a) ;;;
  store_dst (p + 1) (lane1 a) ;;;
  store_dst (p + 2) (lane2 a) ;;;
  store_dst (p + 3) (lane3 a).

(** The macro [X(a, b, c)] of the four-channel loop:
    [out = _mm_add_ps(out, _mm_mul_ps(_mm_loadu_ps(&in[a * chans]),
    _mm_shuffle_ps(b, b, _MM_SHUFFLE(c, c, c, c))))]. *)
Definition X_tap (in_ chans a : Z) (b : __m128) (c : Z) (out : __m128)
  : M __m128 :=
  x <- _mm_loadu_ps load_src (in_ + Sint32_wrap (a * chans)) ;;
  ret (_mm_add_ps out
         (_mm_mul_ps x (_mm_shuffle_ps b b (_MM_SHUFFLE c c c c)))).

(** The macros [X(a, b)] and [Y(a, b, c, d)] of the one-channel loop. *)
Definition X_pair (in_ a b : Z) : M __m128 :=
  va <- _mm_load_ss load_src (in_ + a) ;;
  vb <- _mm_load_ss load_src (in_ + b) ;;
  ret (_mm_unpacklo_ps va vb).

Definition Y_quad (in_ a b c d : Z) : M __m128 :=
  lo <- X_pair in_ a b ;;
  hi <- X_pair in_ c d ;;
  ret (_mm_movelh_ps lo hi).

(** The body of the loop [for (; chan + 4 <= chans; chan += 4)]: four
    channels at once; the value is [chan] after the increment. *)
Definition ResampleFrame_Generic_SSE_four (src dst chans : Z)
  (f0 f1 f2 : __m128) (chan : Z) : M Z :=
  let in_ := src + chan in
  let out := _mm_setzero_ps in
  out <- X_tap in_ chans 0 f0 0 out ;;
  out <- X_tap in_ chans 1 f0 1 out ;;
  out <- X_tap in_ chans 2 f0 2 out ;;
  out <- X_tap in_ chans 3 f0 3 out ;;
  out <- X_tap in_ chans 4 f1 0 out ;;
  out <- X_tap in_ chans 5 f1 1 out ;;
  out <- X_tap in_ chans 6 f1 2 out ;;
  out <- X_tap in_ chans 7 f1 3 out ;;
  out <- X_tap in_ chans 8 f2 0 out ;;
  out <- X_tap in_ chans 9 f2 1 out ;;
  _mm_storeu_ps (dst + chan) out ;;;
  ret (chan + 4).

(** The body of the loop [for (; chan < chans; chan++)]: one channel.
    The switch selects the case [Z(n)] with [n = chans], whose three
    assignments gather the ten samples of the channel; there is a case
    for 3, 5, 6 and 7 only.  [default: return] leaves the function, and
    since the switch is on [chans], which the loop does not change, an
    iteration that does nothing there gives the same run. *)
Definition ResampleFrame_Generic_SSE_one (src dst chans : Z)
  (f0 f1 f2 : __m128) (chan : Z) : M unit :=
  let in_ := src + chan in
  let switch :=
    if chans =? 3 then Some 3
    else if chans =? 5 then Some 5
    else if chans =? 6 then Some 6
    else if chans =? 7 then Some 7
    else None in
  match switch with
  | None => ret tt
  | Some n =>
      v0 <- Y_quad in_ (n * 0) (n * 1) (n * 2) (n * 3) ;;
      v1 <- Y_quad in_ (n * 4) (n * 5) (n * 6) (n * 7) ;;
      v2 <- X_pair in_ (n * 8) (n * 9) ;;
      let out := _mm_mul_ps f0 v0 in
      let out := _mm_add_ps out (_mm_mul_ps f1 v1) in
      let out := _mm_add_ps out (_mm_mul_ps f2 v2) in
      let shuf := _mm_shuffle_ps out out (_MM_SHUFFLE 2 3 0 1) in
      let out := _mm_add_ps out shuf in
      let out := _mm_add_ss out (_mm_movehl_ps shuf out) in
      _mm_store_ss (dst + chan) out
  end.

(** [ResampleFrame_Generic_SSE].  The two early [return]s are the
    branches of the conditionals. *)
Definition ResampleFrame_Generic_SSE (src dst filter : Z) (interp : float32)
  (chans : Z) : M unit :=
  f0 <- _mm_loadu_ps load_filter (filter + 0) ;;
  f1 <- _mm_loadu_ps load_filter (filter + 4) ;;
  f2 <- _mm_loadl_pi load_filter _mm_setzero_ps (filter + 8) ;;
  g0 <- _mm_loadu_ps load_filter (filter + 10) ;;
  g1 <- _mm_loadu_ps load_filter (filter + 14) ;;
  g2 <- _mm_loadl_pi load_filter _mm_setzero_ps (filter + 18) ;;
  let interp1 := _mm_set1_ps interp in
  let interp2 := _mm_sub_ps (_mm_set1_ps f32_one) interp1 in
  let f0 := _mm_add_ps (_mm_mul_ps f0 interp2) (_mm_mul_ps g0 interp1) in
  let f1 := _mm_add_ps (_mm_mul_ps f1 interp2) (_mm_mul_ps g1 interp1) in
  let f2 := _mm_add_ps (_mm_mul_ps f2 interp2) (_mm_mul_ps g2 interp1) in
  if chans =? 2 then
    x <- _mm_loadu_ps load_src (src + 0) ;;
    let out := _mm_mul_ps x (_mm_unpacklo_ps f0 f0) in
    x <- _mm_loadu_ps load_src (src + 4) ;;
    let out := _mm_add_ps out (_mm_mul_ps x (_mm_unpackhi_ps f0 f0)) in
    x <- _mm_loadu_ps load_src (src + 8) ;;
    let out := _mm_add_ps out (_mm_mul_ps x (_mm_unpacklo_ps f1 f1)) in
    x <- _mm_loadu_ps load_src (src + 12) ;;
    let out := _mm_add_ps out (_mm_mul_ps x (_mm_unpackhi_ps f1 f1)) in
    x <- _mm_loadu_ps load_src (src + 16) ;;
    let out := _mm_add_ps out (_mm_mul_ps x (_mm_unpacklo_ps f2 f2)) in
    let out := _mm_add_ps out (_mm_movehl_ps out out) in
    _mm_storel_pi dst out
  else if chans =? 1 then
    x <- _mm_loadu_ps load_src (src + 0) ;;
    let out := _mm_mul_ps f0 x in
    x <- _mm_loadu_ps load_src (src + 4) ;;
    let out := _mm_add_ps out (_mm_mul_ps f1 x) in
    x <- _mm_loadl_pi load_src _mm_setzero_ps (src + 8) ;;
    let out := _mm_add_ps out (_mm_mul_ps f2 x) in
    let shuf := _mm_shuffle_ps out out (_MM_SHUFFLE 2 3 0 1) in
    let out := _mm_add_ps out shuf in
    let out := _mm_add_ss out (_mm_movehl_ps shuf out) in
    _mm_store_ss dst out
  else
    chan <-
      for_loop (Z.to_nat (chans / 4)) 0
        (fun _ chan => ResampleFrame_Generic_SSE_four src dst chans f0 f1 f2 chan)
        0 ;;
    for_loop (Z.to_nat (chans - chan)) chan
      (fun chan _ => ResampleFrame_Generic_SSE_one src dst chans f0 f1 f2 chan)
      tt.

(** ** Sums as the SSE kernel forms them *)

(** The products [x i * scale i] for the taps [i] of a list, added from
    left to right starting from the first product. *)
Definition product_sum (x scale : Z -> float32) (taps : list Z) : float32 :=
  match taps with
  | [] => f32_zero
  | t :: rest =>
      fold_left (fun acc i => f32_add acc (f32_mul (x i) (scale i))) rest
        (f32_mul (x t) (scale t))
  end.

(** The ten taps padded to twelve, as the third vector of a channel
    holds them: the two extra samples are zeros, and the two extra
    scales are the blend of two zeros. *)
Definition padded_scale (m : machine) (filter : Z) (interp : float32) (i : Z)
  : float32 :=
  if i <? 10 then kernel_scale m filter interp i
  else f32_add (f32_mul f32_zero (f32_sub f32_one interp))
               (f32_mul f32_zero interp).

Definition padded_sample (x : Z -> float32) (i : Z) : float32 :=
  if i <? 10 then x i else f32_zero.

(** The horizontal sum of the one-channel paths: lane [k] holds the
    products [scale i * x i] of the taps [k], [k + 4] and [k + 8], and
    the lanes are added as [(lane 0 + lane 1) + (lane 2 + lane 3)]. *)
Definition horizontal_sum (scale x : Z -> float32) : float32 :=
  f32_add
    (f32_add (product_sum scale x [0; 4; 8]) (product_sum scale x [1; 5; 9]))
    (f32_add (product_sum scale x [2; 6; 10]) (product_sum scale x [3; 7; 11])).

(** The sum of the two-channel path: even and odd taps are accumulated
    in separate lanes and added at the end. *)
Definition stereo_sum (x scale : Z -> float32) : float32 :=
  f32_add (product_sum x scale [0; 2; 4; 6; 8])
          (product_sum x scale [1; 3; 5; 7; 9]).

(** ** Straight-line kernel code as a function of the buffers *)

(** [acts lo hi c val out]: the computation [c] reads the input buffer
    only at addresses in [[lo, hi)], leaves the statics and the input
    alone, returns [val] and turns the output buffer [o] into [out o],
    where [val] and [out] are functions of the bank and of the input
    buffer. *)
Definition acts {A : Type} (lo hi : Z) (c : M A)
  (val : (Z -> float32) -> (Z -> float32) -> A)
  (out : (Z -> float32) -> (Z -> float32) -> (Z -> float32) -> Z -> float32)
  : Prop :=
  forall s,
    fst (c s) = val (ResamplerFilter s) (input s) /\
    extends (event_within lo hi) s (snd (c s)) /\
    output (snd (c s)) = out (ResamplerFilter s) (input s) (output s).
(** * Properties *)

(** ** Fixed-width integers *)

Lemma Sint64_wrap_id (z : Z) : in_Sint64 z -> Sint64_wrap z = z.
Proof.
  unfold in_Sint64, Sint64_wrap, SDL_MIN_SINT64, SDL_MAX_SINT64. intros H.
  rewrite Z.mod_small; lia.
Qed.

Lemma Sint64_wrap_range (z : Z) : in_Sint64 (Sint64_wrap z).
Proof.
  unfold in_Sint64, Sint64_wrap, SDL_MIN_SINT64, SDL_MAX_SINT64.
  pose proof (Z.mod_pos_bound (z + 2 ^ 63) (2 ^ 64) ltac:(lia)). lia.
Qed.

(** A wrapped value differs from the exact one by a multiple of 2^64. *)
Lemma Sint64_wrap_spec (z : Z) :
  exists k, Sint64_wrap z = z + k * 2 ^ 64 /\ in_Sint64 (Sint64_wrap z).
Proof.
  exists (- ((z + 2 ^ 63) / 2 ^ 64)). split; [|apply Sint64_wrap_range].
  unfold Sint64_wrap. rewrite Z.mod_eq by lia. lia.
Qed.

(** Wrapping is a congruence: inner wraps of a sum can be dropped. *)
Lemma Sint64_wrap_add_l (a b : Z) :
  Sint64_wrap (Sint64_wrap a + b) = Sint64_wrap (a + b).
Proof.
  unfold Sint64_wrap.
  replace (((a + 2 ^ 63) mod 2 ^ 64 - 2 ^ 63) + b + 2 ^ 63)
    with ((a + 2 ^ 63) mod 2 ^ 64 + b) by lia.
  rewrite Zplus_mod_idemp_l. f_equal. f_equal. lia.
Qed.

Lemma Sint64_wrap_sub_l (a b : Z) :
  Sint64_wrap (Sint64_wrap a - b) = Sint64_wrap (a - b).
Proof. apply (Sint64_wrap_add_l a (- b)). Qed.

Lemma Sint64_wrap_sub_r (a b : Z) :
  Sint64_wrap (a - Sint64_wrap b) = Sint64_wrap (a - b).
Proof.
  destruct (Sint64_wrap_spec b) as [k [-> _]].
  unfold Sint64_wrap.
  replace (a - (b + k * 2 ^ 64) + 2 ^ 63)
    with ((a - b + 2 ^ 63) + (- k) * 2 ^ 64) by lia.
  now rewrite Z.mod_add by lia.
Qed.

Lemma Sint32_wrap_id (z : Z) : in_Sint32 z -> Sint32_wrap z = z.
Proof.
  unfold in_Sint32, Sint32_wrap, SDL_MIN_SINT32, SDL_MAX_SINT32. intros H.
  rewrite Z.mod_small; lia.
Qed.

Lemma Sint32_wrap_range (z : Z) : in_Sint32 (Sint32_wrap z).
Proof.
  unfold in_Sint32, Sint32_wrap, SDL_MIN_SINT32, SDL_MAX_SINT32.
  pose proof (Z.mod_pos_bound (z + 2 ^ 31) (2 ^ 32) ltac:(lia)). lia.
Qed.

(** The upper half of a 64-bit value fits 32 bits: the cast
    [(Sint32)(x >> 32)] loses nothing. *)
Lemma shiftr_32_in_Sint32 (x : Z) : in_Sint64 x -> in_Sint32 (Z.shiftr x 32).
Proof.
  unfold in_Sint64, in_Sint32, SDL_MIN_SINT64, SDL_MAX_SINT64,
    SDL_MIN_SINT32, SDL_MAX_SINT32.
  intros H. rewrite Z.shiftr_div_pow2 by lia.
  pose proof (Z.div_mod x (2 ^ 32) ltac:(lia)).
  pose proof (Z.mod_pos_bound x (2 ^ 32) ltac:(lia)). lia.
Qed.

Lemma SDL_max_is_max (x y : Z) : SDL_max x y = Z.max x y.
Proof. unfold SDL_max. destruct (Z.gtb_spec x y); lia. Qed.

(** ** The saturating helpers *)

Lemma ResamplerMul_status (a b ret : Z) :
  0 < b ->
  fst (ResamplerMul a b ret) = 0 <-> a * b <= SDL_MAX_SINT64.
Proof.
  intros Hb. unfold ResamplerMul.
  assert (Hq : Z.quot SDL_MAX_SINT64 b = SDL_MAX_SINT64 / b).
  { apply Z.quot_div_nonneg; unfold SDL_MAX_SINT64; lia. }
  rewrite Hq.
  pose proof (Z.div_mod SDL_MAX_SINT64 b ltac:(lia)) as Hd.
  pose proof (Z.mod_pos_bound SDL_MAX_SINT64 b Hb) as Hm.
  destruct (Z.gtb_spec b 0); [|lia].
  set (q := SDL_MAX_SINT64 / b) in *. set (r := SDL_MAX_SINT64 mod b) in *.
  destruct (Z.gtb_spec a q); cbn [andb fst]; split; intros Hs; try lia.
  - assert ((q + 1) * b <= a * b) by (apply Z.mul_le_mono_nonneg_r; lia). lia.
  - assert (a * b <= q * b) by (apply Z.mul_le_mono_nonneg_r; lia). lia.
Qed.

Lemma ResamplerMul_value (a b ret : Z) :
  fst (ResamplerMul a b ret) = 0 ->
  snd (ResamplerMul a b ret) = Sint64_wrap (a * b).
Proof.
  unfold ResamplerMul.
  destruct ((b >? 0) && (a >? Z.quot SDL_MAX_SINT64 b)); cbn; [lia|reflexivity].
Qed.

Lemma ResamplerMul_cases (a b ret : Z) :
  ResamplerMul a b ret = (-1, ret) \/
  ResamplerMul a b ret = (0, Sint64_wrap (a * b)).
Proof.
  unfold ResamplerMul.
  destruct ((b >? 0) && (a >? Z.quot SDL_MAX_SINT64 b)); auto.
Qed.

Lemma ResamplerAdd_status (a b ret : Z) :
  fst (ResamplerAdd a b ret) = 0 <-> (b <= 0 \/ a + b <= SDL_MAX_SINT64).
Proof.
  unfold ResamplerAdd.
  destruct (Z.gtb_spec b 0); destruct (Z.gtb_spec a (SDL_MAX_SINT64 - b));
    cbn [andb fst]; split; intros Hs; try lia; try discriminate.
Qed.

Lemma ResamplerAdd_cases (a b ret : Z) :
  ResamplerAdd a b ret = (-1, ret) \/
  ResamplerAdd a b ret = (0, Sint64_wrap (a + b)).
Proof.
  unfold ResamplerAdd.
  destruct ((b >? 0) && (a >? SDL_MAX_SINT64 - b)); auto.
Qed.

(** ** [SDL_GetResamplerInputFrames] *)

(** The addend of the second step is the exact [2^32 - rate + offset]
    reduced to 64 bits. *)
Lemma InputFrames_addend (rate offset : Z) :
  Sint64_wrap (Sint64_wrap (Sint64_wrap (- rate) + offset) + 0x100000000)
  = Sint64_wrap (offset - rate + 2 ^ 32).
Proof.
  rewrite Sint64_wrap_add_l, <- Z.add_assoc, Sint64_wrap_add_l, Z.add_assoc.
  replace (- rate + offset + 0x100000000) with (offset - rate + 2 ^ 32) by lia.
  reflexivity.
Qed.

(** What the two steps compute when neither reports an overflow. *)
Lemma InputFrames_steps_ok (N rate offset : Z) :
  0 < rate ->
  fst (InputFrames_steps N rate offset) = false ->
  let b := Sint64_wrap (offset - rate + 2 ^ 32) in
  N * rate <= SDL_MAX_SINT64 /\
  (b <= 0 \/ Sint64_wrap (N * rate) + b <= SDL_MAX_SINT64) /\
  snd (InputFrames_steps N rate offset)
  = Sint64_wrap (Sint64_wrap (N * rate) + b).
Proof.
  intros Hr. unfold InputFrames_steps. rewrite InputFrames_addend.
  pose proof (ResamplerMul_status N rate 0 Hr) as HM.
  destruct (ResamplerMul_cases N rate 0) as [E|E]; rewrite E in *; cbn [fst snd] in *.
  - cbn. discriminate.
  - change (negb (0 =? 0)) with false. cbv iota.
    set (b := Sint64_wrap (offset - rate + 2 ^ 32)).
    pose proof (ResamplerAdd_status (Sint64_wrap (N * rate)) b (Sint64_wrap (N * rate))) as HA.
    destruct (ResamplerAdd_cases (Sint64_wrap (N * rate)) b (Sint64_wrap (N * rate))) as [F|F];
      rewrite F in *; cbn [fst snd] in *.
    + cbn. discriminate.
    + intros _. cbn zeta. repeat split; tauto.
Qed.

Lemma InputFrames_saturated (N rate offset : Z) :
  fst (InputFrames_steps N rate offset) = true ->
  SDL_GetResamplerInputFrames N rate offset = SDL_MAX_SINT32.
Proof.
  unfold SDL_GetResamplerInputFrames.
  destruct (InputFrames_steps N rate offset) as [failed oo]. cbn [fst].
  intros ->. reflexivity.
Qed.

Lemma InputFrames_not_saturated (N rate offset : Z) :
  fst (InputFrames_steps N rate offset) = false ->
  SDL_GetResamplerInputFrames N rate offset
  = Z.max 0 (Z.shiftr (snd (InputFrames_steps N rate offset)) 32)
  \/ ~ in_Sint64 (snd (InputFrames_steps N rate offset)).
Proof.
  unfold SDL_GetResamplerInputFrames.
  destruct (InputFrames_steps N rate offset) as [failed oo]. cbn [fst snd].
  intros ->.
  destruct (Z_le_dec SDL_MIN_SINT64 oo); [|right; unfold in_Sint64; lia].
  destruct (Z_le_dec oo SDL_MAX_SINT64); [|right; unfold in_Sint64; lia].
  left. rewrite SDL_max_is_max, Sint32_wrap_id, Z.max_comm; auto.
  apply shiftr_32_in_Sint32. split; assumption.
Qed.

(** The returned count is a non-negative 32-bit value. *)
Lemma InputFrames_bounds (N rate offset : Z) :
  0 <= SDL_GetResamplerInputFrames N rate offset <= 2 ^ 31 - 1.
Proof.
  unfold SDL_GetResamplerInputFrames.
  destruct (InputFrames_steps N rate offset) as [failed oo].
  rewrite SDL_max_is_max.
  pose proof (Sint32_wrap_range
                (Z.shiftr (if failed then SDL_MAX_SINT64 else oo) 32)) as R.
  unfold in_Sint32, SDL_MIN_SINT32, SDL_MAX_SINT32 in R. lia.
Qed.


(** C4, as amended: with [N >= 1], [rate > 0] and an addend
    [2^32 - rate + offset] that fits 64 bits, a call in which neither
    step saturates returns [max(0, ((N - 1) * rate + offset + 2^32) >> 32)]
    with the arithmetic shift; when a step saturates the intermediate is
    [SDL_MAX_SINT64] and the result, clamped below at zero, is
    [SDL_MAX_SINT32]. *)
Theorem InputFrames_formula (N rate offset : Z) :
  in_Sint64 N -> in_Sint64 rate -> in_Sint64 offset ->
  1 <= N -> 0 < rate ->
  in_Sint64 (offset - rate + 2 ^ 32) ->
  (fst (InputFrames_steps N rate offset) = false ->
   SDL_GetResamplerInputFrames N rate offset
   = Z.max 0 (Z.shiftr ((N - 1) * rate + offset + 2 ^ 32) 32)) /\
  (fst (InputFrames_steps N rate offset) = true ->
   SDL_GetResamplerInputFrames N rate offset
   = Z.max 0 (Z.shiftr SDL_MAX_SINT64 32) /\
   0 <= SDL_GetResamplerInputFrames N rate offset).
Proof.
  intros HN Hrate Hoff H1 Hr Hb. split.
  - intros Hs.
    destruct (InputFrames_steps_ok N rate offset Hr Hs) as (Hm & Ha & Hv).
    rewrite (Sint64_wrap_id _ Hb) in Ha, Hv.
    assert (HNr : 1 <= N * rate) by nia.
    assert (Hw : Sint64_wrap (N * rate) = N * rate).
    { apply Sint64_wrap_id. unfold in_Sint64, SDL_MIN_SINT64. lia. }
    rewrite Hw in Ha, Hv.
    assert (Hsum : in_Sint64 (N * rate + (offset - rate + 2 ^ 32))).
    { unfold in_Sint64, SDL_MIN_SINT64, SDL_MAX_SINT64 in *. lia. }
    rewrite (Sint64_wrap_id _ Hsum) in Hv.
    destruct (InputFrames_not_saturated N rate offset Hs) as [E|E].
    + rewrite E, Hv. do 2 f_equal. lia.
    + rewrite Hv in E. contradiction.
  - intros Hs. rewrite (InputFrames_saturated N rate offset Hs).
    split; [reflexivity|]. unfold SDL_MAX_SINT32. lia.
Qed.

Lemma InputFrames_formula_witness :
  SDL_GetResamplerInputFrames 4050 4674794335 0
  = Z.max 0 (Z.shiftr ((4050 - 1) * 4674794335 + 0 + 2 ^ 32) 32).
Proof.
  apply (InputFrames_formula 4050 4674794335 0);
    unfold in_Sint64, SDL_MIN_SINT64, SDL_MAX_SINT64; try lia.
  reflexivity.
Defined.

(** C4, as stated, fails: at [N = 1], [rate = 2^32], [offset = 0] no
    step saturates, the function returns 1 and the stated formula,
    which subtracts the rate twice, gives 0. *)
Lemma InputFrames_stated_formula_fails :
  ~ (forall N rate offset : Z,
        in_Sint64 N -> in_Sint64 rate -> in_Sint64 offset ->
        1 <= N -> 0 < rate ->
        fst (InputFrames_steps N rate offset) = false ->
        SDL_GetResamplerInputFrames N rate offset
        = Z.max 0
            (Z.shiftr ((N - 1) * rate + offset + (2 ^ 32 - rate)) 32)).
Proof.
  intros H.
  specialize (H 1 (2 ^ 32) 0).
  assert (C : SDL_GetResamplerInputFrames 1 (2 ^ 32) 0 = 0).
  { apply H; unfold in_Sint64, SDL_MIN_SINT64, SDL_MAX_SINT64; try lia.
    reflexivity. }
  vm_compute in C. discriminate C.
Qed.

(** C6, as amended: the planning call of the overflow scenario
    saturates its intermediate and returns [SDL_MAX_SINT32 = 2^31 - 1],
    the upper half of [SDL_MAX_SINT64]. *)
Theorem InputFrames_overflow_scenario :
  fst (InputFrames_steps (Z.quot SDL_MAX_SINT64 2) (Z.shiftl 1 32) 0) = true /\
  SDL_GetResamplerInputFrames (Z.quot SDL_MAX_SINT64 2) (Z.shiftl 1 32) 0
  = SDL_MAX_SINT32.
Proof. split; reflexivity. Qed.

(** C6, as stated, fails: the returned value is not [SDL_MAX_SINT64]. *)
Lemma overflow_scenario_result_is_not_INT64_MAX :
  SDL_GetResamplerInputFrames (Z.quot SDL_MAX_SINT64 2) (Z.shiftl 1 32) 0
  <> SDL_MAX_SINT64.
Proof. vm_compute. discriminate. Qed.

(** C10: whatever the arguments, the value returned by
    [SDL_GetResamplerInputFrames] lies between 0 and [2^31 - 1]: the
    shifted intermediate goes through the [Sint32] cast before the clamp
    at zero. *)
Theorem InputFrames_range (N rate offset : Z) :
  0 <= SDL_GetResamplerInputFrames N rate offset <= 2 ^ 31 - 1.
Proof.
  unfold SDL_GetResamplerInputFrames.
  destruct (InputFrames_steps N rate offset) as [failed oo].
  set (shifted := Z.shiftr (if failed then SDL_MAX_SINT64 else oo) 32).
  destruct (Sint32_wrap_range shifted) as [Hlo Hhi].
  unfold SDL_max, SDL_MIN_SINT32, SDL_MAX_SINT32 in *.
  destruct (Z.gtb_spec (Sint32_wrap shifted) 0); lia.
Qed.

(** ** [SDL_GetResamplerOutputFrames] *)

Lemma Sint64_wrap_add_r (a b : Z) :
  Sint64_wrap (a + Sint64_wrap b) = Sint64_wrap (a + b).
Proof. rewrite Z.add_comm, Sint64_wrap_add_l. f_equal. lia. Qed.

(** The two outcomes of the steps: saturation, or the 64-bit value of
    [(M << 32) - offset]. *)
Lemma OutputFrames_input_offset_cases (M offset : Z) :
  (fst (OutputFrames_steps M offset) = true /\
   OutputFrames_input_offset M offset = SDL_MAX_SINT64) \/
  (fst (OutputFrames_steps M offset) = false /\
   OutputFrames_input_offset M offset
   = Sint64_wrap (Z.shiftl M 32 - offset) /\
   M * 2 ^ 32 <= SDL_MAX_SINT64 /\
   (Sint64_wrap (- offset) <= 0 \/
    Sint64_wrap (M * 2 ^ 32) + Sint64_wrap (- offset) <= SDL_MAX_SINT64)).
Proof.
  unfold OutputFrames_input_offset, OutputFrames_steps.
  pose proof (ResamplerMul_status M 0x100000000 0 ltac:(lia)) as HM.
  destruct (ResamplerMul_cases M 0x100000000 0) as [E|E]; rewrite E in *;
    cbn [fst snd] in *.
  - left. split; reflexivity.
  - change (negb (0 =? 0)) with false. cbv iota.
    set (a := Sint64_wrap (M * 4294967296)).
    set (b := Sint64_wrap (- offset)).
    pose proof (ResamplerAdd_status a b a) as HA.
    destruct (ResamplerAdd_cases a b a) as [F|F]; rewrite F in *;
      cbn [fst snd] in *.
    + left. split; reflexivity.
    + right. change (negb (0 =? 0)) with false. cbv iota.
      split; [reflexivity|]. split; [|split].
      * subst a b. rewrite Sint64_wrap_add_l, Sint64_wrap_add_r.
        rewrite Z.shiftl_mul_pow2 by lia. f_equal.
      * change (2 ^ 32) with 4294967296. tauto.
      * change (2 ^ 32) with 4294967296. fold a. tauto.
Qed.

Lemma OutputFrames_input_offset_range (M offset : Z) :
  in_Sint64 (OutputFrames_input_offset M offset).
Proof.
  destruct (OutputFrames_input_offset_cases M offset) as [[_ ->]|[_ [-> _]]].
  - unfold in_Sint64, SDL_MIN_SINT64, SDL_MAX_SINT64. lia.
  - apply Sint64_wrap_range.
Qed.

(** The division step on an [input_offset] that fits 64 bits. *)
Lemma OutputFrames_of_input_offset (M rate offset : Z) :
  in_Sint64 rate -> 0 < rate ->
  let io := OutputFrames_input_offset M offset in
  let out := fst (SDL_GetResamplerOutputFrames M rate offset) in
  let offset' := snd (SDL_GetResamplerOutputFrames M rate offset) in
  (io <= 0 -> out = 0 /\ offset' = Sint64_wrap (- io)) /\
  (0 < io ->
   out = (io - 1) / rate + 1 /\
   (out - 1) * rate < io <= out * rate /\
   offset' = out * rate - io).
Proof.
  intros Hrate Hr. unfold SDL_GetResamplerOutputFrames. cbv beta zeta.
  cbn [fst snd].
  pose proof (OutputFrames_input_offset_range M offset) as Hio.
  set (io := OutputFrames_input_offset M offset) in *.
  unfold in_Sint64, SDL_MIN_SINT64, SDL_MAX_SINT64 in *.
  destruct (Z.gtb_spec io 0) as [Hpos|Hneg]; split; intros H; try lia.
  - rewrite (Sint64_wrap_id (io - 1))
      by (unfold in_Sint64, SDL_MIN_SINT64, SDL_MAX_SINT64; lia).
    rewrite Z.quot_div_nonneg by lia.
    pose proof (Z.div_mod (io - 1) rate ltac:(lia)) as Hd.
    pose proof (Z.mod_pos_bound (io - 1) rate Hr) as Hm.
    set (q := (io - 1) / rate) in *.
    assert (Hq0 : 0 <= q) by (apply Z.div_pos; lia).
    assert (Hq1 : q <= io - 1).
    { assert (q * 1 <= q * rate) by (apply Z.mul_le_mono_nonneg_l; lia). lia. }
    rewrite (Sint64_wrap_id q)
      by (unfold in_Sint64, SDL_MIN_SINT64, SDL_MAX_SINT64; lia).
    rewrite (Sint64_wrap_id (q + 1))
      by (unfold in_Sint64, SDL_MIN_SINT64, SDL_MAX_SINT64; lia).
    split; [reflexivity|]. split; [lia|].
    rewrite Sint64_wrap_sub_l. apply Sint64_wrap_id.
    unfold in_Sint64, SDL_MIN_SINT64, SDL_MAX_SINT64. lia.
  - split; [reflexivity|]. rewrite Z.mul_0_l.
    rewrite (Sint64_wrap_id 0) by (unfold in_Sint64, SDL_MIN_SINT64, SDL_MAX_SINT64; lia).
    f_equal.
Qed.

(** C5: for 64-bit [M], [rate > 0] and [offset] in a call where no step
    saturates, with [input_offset] the 64-bit value of
    [(M << 32) - offset], the function returns 0 when
    [input_offset <= 0] and otherwise [(input_offset - 1) / rate + 1],
    which is the ceiling of [input_offset / rate], and it stores the
    64-bit value of [out * rate - input_offset].  For an input count
    [M >= 0] and [offset > SDL_MIN_SINT64] none of these values wraps. *)
Theorem OutputFrames_formula (M rate offset : Z) :
  in_Sint64 M -> in_Sint64 rate -> in_Sint64 offset -> 0 < rate ->
  fst (OutputFrames_steps M offset) = false ->
  let input_offset := Sint64_wrap (Z.shiftl M 32 - offset) in
  let out := fst (SDL_GetResamplerOutputFrames M rate offset) in
  let offset' := snd (SDL_GetResamplerOutputFrames M rate offset) in
  (input_offset <= 0 -> out = 0) /\
  (0 < input_offset ->
   out = (input_offset - 1) / rate + 1 /\
   (out - 1) * rate < input_offset <= out * rate) /\
  offset' = Sint64_wrap (out * rate - input_offset) /\
  (0 <= M -> SDL_MIN_SINT64 < offset ->
   input_offset = M * 2 ^ 32 - offset /\
   offset' = out * rate - input_offset).
Proof.
  intros HM Hrate Hoff Hr Hs. cbv zeta.
  destruct (OutputFrames_input_offset_cases M offset)
    as [[Hs' _]|(_ & Hio & Hmul & Hadd)]; [congruence|].
  destruct (OutputFrames_of_input_offset M rate offset Hrate Hr) as [Hle Hgt].
  rewrite Hio in Hle, Hgt.
  set (io := Sint64_wrap (Z.shiftl M 32 - offset)) in *.
  set (out := fst (SDL_GetResamplerOutputFrames M rate offset)) in *.
  set (offset' := snd (SDL_GetResamplerOutputFrames M rate offset)) in *.
  pose proof (Sint64_wrap_range (Z.shiftl M 32 - offset)) as Hrange. fold io in Hrange.
  assert (Hstore : offset' = Sint64_wrap (out * rate - io)).
  { destruct (Z_le_gt_dec io 0) as [H0|H0].
    - destruct (Hle H0) as [-> ->]. f_equal.
    - destruct (Hgt ltac:(lia)) as (_ & Hb & ->). symmetry. apply Sint64_wrap_id.
      unfold in_Sint64, SDL_MIN_SINT64, SDL_MAX_SINT64 in *. lia. }
  split; [intros H0; apply (Hle H0)|].
  split; [intros H0; destruct (Hgt H0) as (? & ? & _); auto|].
  split; [exact Hstore|].
  intros HM0 Hoffmin.
  assert (Hexact : io = M * 2 ^ 32 - offset).
  { subst io. rewrite Z.shiftl_mul_pow2 by lia. apply Sint64_wrap_id.
    rewrite (Sint64_wrap_id (- offset)) in Hadd
      by (unfold in_Sint64, SDL_MIN_SINT64, SDL_MAX_SINT64 in *; lia).
    rewrite (Sint64_wrap_id (M * 2 ^ 32)) in Hadd
      by (unfold in_Sint64, SDL_MIN_SINT64, SDL_MAX_SINT64 in *; lia).
    unfold in_Sint64, SDL_MIN_SINT64, SDL_MAX_SINT64 in *. lia. }
  split; [exact Hexact|].
  destruct (Z_le_gt_dec io 0) as [H0|H0].
  - destruct (Hle H0) as [-> ->]. rewrite Z.mul_0_l. apply Sint64_wrap_id.
    unfold in_Sint64, SDL_MIN_SINT64, SDL_MAX_SINT64 in *. lia.
  - destruct (Hgt ltac:(lia)) as (_ & _ & ->). reflexivity.
Qed.

Lemma OutputFrames_formula_witness :
  fst (SDL_GetResamplerOutputFrames 4410 4674794335 0)
  = (Sint64_wrap (Z.shiftl 4410 32 - 0) - 1) / 4674794335 + 1.
Proof.
  refine (proj1 (proj1 (proj2
    (OutputFrames_formula 4410 4674794335 0 _ _ _ _ _)) _));
    unfold in_Sint64, SDL_MIN_SINT64, SDL_MAX_SINT64; try lia; reflexivity.
Defined.

(** C9: for [rate > 0], [input_frames >= 0] and an offset with
    [0 <= offset < rate] on entry, the offset stored on return is again
    in [[0, rate)] and the returned count is not negative, whether or
    not a step saturated. *)
Theorem OutputFrames_offset_invariant (M rate offset : Z) :
  in_Sint64 M -> in_Sint64 rate ->
  0 < rate -> 0 <= M -> 0 <= offset < rate ->
  0 <= snd (SDL_GetResamplerOutputFrames M rate offset) < rate /\
  0 <= fst (SDL_GetResamplerOutputFrames M rate offset).
Proof.
  intros HM Hrate Hr HM0 Hoff.
  destruct (OutputFrames_of_input_offset M rate offset Hrate Hr) as [Hle Hgt].
  destruct (Z_le_gt_dec (OutputFrames_input_offset M offset) 0) as [H0|H0].
  - destruct (Hle H0) as [-> ->].
    destruct (OutputFrames_input_offset_cases M offset)
      as [[_ E]|(_ & E & Hmul & Hadd)]; rewrite E in *.
    + unfold SDL_MAX_SINT64 in H0. lia.
    + rewrite Z.shiftl_mul_pow2 in * by lia.
      assert (Hin : in_Sint64 (M * 2 ^ 32 - offset)).
      { unfold in_Sint64, SDL_MIN_SINT64, SDL_MAX_SINT64 in *. lia. }
      rewrite (Sint64_wrap_id _ Hin) in *.
      rewrite Sint64_wrap_id
        by (unfold in_Sint64, SDL_MIN_SINT64, SDL_MAX_SINT64 in *; lia).
      lia.
  - destruct (Hgt ltac:(lia)) as (Eo & Hb & ->). rewrite Eo at 3.
    split; [lia|].
    assert (0 <= (OutputFrames_input_offset M offset - 1) / rate)
      by (apply Z.div_pos; lia).
    lia.
Qed.

Lemma OutputFrames_offset_invariant_witness :
  0 <= snd (SDL_GetResamplerOutputFrames (2 ^ 31) 3 1) < 3 /\
  0 <= fst (SDL_GetResamplerOutputFrames (2 ^ 31) 3 1).
Proof.
  apply (OutputFrames_offset_invariant (2 ^ 31) 3 1);
    unfold in_Sint64, SDL_MIN_SINT64, SDL_MAX_SINT64; lia.
Defined.

(** ** Planning duality *)

(** Without saturation, a non-negative count and an offset above
    [SDL_MIN_SINT64] give the exact [input_offset]. *)
Lemma OutputFrames_input_offset_exact (M offset : Z) :
  0 <= M -> in_Sint64 offset -> SDL_MIN_SINT64 < offset ->
  fst (OutputFrames_steps M offset) = false ->
  OutputFrames_input_offset M offset = M * 2 ^ 32 - offset.
Proof.
  intros HM Hoff Hmin Hs.
  destruct (OutputFrames_input_offset_cases M offset)
    as [[Hs' _]|(_ & Hio & Hmul & Hadd)]; [congruence|].
  rewrite Hio, Z.shiftl_mul_pow2 by lia. apply Sint64_wrap_id.
  rewrite (Sint64_wrap_id (- offset)) in Hadd
    by (unfold in_Sint64, SDL_MIN_SINT64, SDL_MAX_SINT64 in *; lia).
  rewrite (Sint64_wrap_id (M * 2 ^ 32)) in Hadd
    by (unfold in_Sint64, SDL_MIN_SINT64, SDL_MAX_SINT64 in *; lia).
  unfold in_Sint64, SDL_MIN_SINT64, SDL_MAX_SINT64 in *. lia.
Qed.

Lemma OutputFrames_nonneg (M rate offset : Z) :
  in_Sint64 rate -> 0 < rate ->
  0 <= fst (SDL_GetResamplerOutputFrames M rate offset).
Proof.
  intros Hrate Hr.
  destruct (OutputFrames_of_input_offset M rate offset Hrate Hr) as [Hle Hgt].
  destruct (Z_le_gt_dec (OutputFrames_input_offset M offset) 0) as [H0|H0].
  - destruct (Hle H0) as [-> _]. lia.
  - destruct (Hgt ltac:(lia)) as (-> & _).
    assert (0 <= (OutputFrames_input_offset M offset - 1) / rate)
      by (apply Z.div_pos; lia).
    lia.
Qed.

(** The count returned for an [input_offset] above [(N - 1) * rate]. *)
Lemma OutputFrames_lower_bound (M rate offset N : Z) :
  in_Sint64 rate -> 0 < rate -> 1 <= N ->
  (N - 1) * rate < OutputFrames_input_offset M offset ->
  N <= fst (SDL_GetResamplerOutputFrames M rate offset).
Proof.
  intros Hrate Hr HN Hlt.
  destruct (OutputFrames_of_input_offset M rate offset Hrate Hr) as [_ Hgt].
  assert (Hpos : 0 < OutputFrames_input_offset M offset) by nia.
  destruct (Hgt Hpos) as (-> & _).
  assert (N - 1 <= (OutputFrames_input_offset M offset - 1) / rate).
  { apply Z.div_le_lower_bound; lia. }
  lia.
Qed.

(** The planned input count covers the position of the last output. *)
Lemma InputFrames_covers (N rate offset : Z) :
  in_Sint64 N -> in_Sint64 rate -> in_Sint64 offset ->
  1 <= N -> 0 < rate -> in_Sint64 (offset - rate + 2 ^ 32) ->
  fst (InputFrames_steps N rate offset) = false ->
  let M := SDL_GetResamplerInputFrames N rate offset in
  (N - 1) * rate + offset < M * 2 ^ 32 /\
  (0 <= (N - 1) * rate + offset + 2 ^ 32 ->
   M * 2 ^ 32 <= (N - 1) * rate + offset + 2 ^ 32) /\
  N * rate <= SDL_MAX_SINT64.
Proof.
  intros HN Hrate Hoff H1 Hr Hb Hs. cbv zeta.
  destruct (InputFrames_steps_ok N rate offset Hr Hs) as (Hm & _ & _).
  unfold SDL_GetResamplerInputFrames.
  destruct (InputFrames_steps_ok N rate offset Hr Hs) as (_ & Ha & Hv).
  rewrite (Sint64_wrap_id _ Hb) in Ha, Hv.
  assert (HNr : 1 <= N * rate) by nia.
  rewrite (Sint64_wrap_id (N * rate)) in Ha, Hv
    by (unfold in_Sint64, SDL_MIN_SINT64; lia).
  assert (Hsum : in_Sint64 (N * rate + (offset - rate + 2 ^ 32))).
  { unfold in_Sint64, SDL_MIN_SINT64, SDL_MAX_SINT64 in *. lia. }
  rewrite (Sint64_wrap_id _ Hsum) in Hv.
  destruct (InputFrames_steps N rate offset) as [failed oo].
  cbn [fst snd] in *. subst failed oo.
  rewrite SDL_max_is_max, Sint32_wrap_id by (apply shiftr_32_in_Sint32; exact Hsum).
  rewrite Z.shiftr_div_pow2 by lia.
  set (x := N * rate + (offset - rate + 2 ^ 32)) in *.
  replace ((N - 1) * rate + offset) with (x - 2 ^ 32) by (subst x; lia).
  replace ((N - 1) * rate + offset + 2 ^ 32) with x by (subst x; lia).
  pose proof (Z.div_mod x (2 ^ 32) ltac:(lia)) as Hd.
  pose proof (Z.mod_pos_bound x (2 ^ 32) ltac:(lia)) as Hmod.
  repeat split; try lia.
Qed.

(** C7, as amended: for [rate > 0], [|offset| < rate] and [N >= 0],
    when planning the input for [N] outputs does not saturate, the
    number of outputs planned back from that input count is at least
    [N]. *)
Theorem planning_duality (N rate offset : Z) :
  in_Sint64 N -> in_Sint64 rate -> in_Sint64 offset ->
  0 < rate -> Z.abs offset < rate -> 0 <= N ->
  fst (InputFrames_steps N rate offset) = false ->
  N <= fst (SDL_GetResamplerOutputFrames
              (SDL_GetResamplerInputFrames N rate offset) rate offset).
Proof.
  intros HN Hrate Hoff Hr Habs HN0 Hs.
  destruct (Z.eq_dec N 0) as [->|Hne].
  { apply OutputFrames_nonneg; assumption. }
  assert (H1 : 1 <= N) by lia.
  assert (Hb : in_Sint64 (offset - rate + 2 ^ 32)).
  { destruct (InputFrames_steps_ok N rate offset Hr Hs) as (Hm & Ha & _).
    destruct (Sint64_wrap_spec (offset - rate + 2 ^ 32)) as (k & Ek & Rk).
    assert (HNr : rate <= N * rate) by nia.
    rewrite (Sint64_wrap_id (N * rate)) in Ha
      by (unfold in_Sint64, SDL_MIN_SINT64, SDL_MAX_SINT64 in *; lia).
    rewrite Ek in Ha, Rk.
    unfold in_Sint64, SDL_MIN_SINT64, SDL_MAX_SINT64 in *. lia. }
  destruct (InputFrames_covers N rate offset HN Hrate Hoff H1 Hr Hb Hs)
    as (Hcov & _ & Hmul).
  pose proof (InputFrames_bounds N rate offset) as HM.
  set (M := SDL_GetResamplerInputFrames N rate offset) in *.
  apply OutputFrames_lower_bound; try assumption.
  destruct (OutputFrames_input_offset_cases M offset) as [[_ ->]|[Hns _]].
  - unfold SDL_MAX_SINT64 in *. lia.
  - rewrite OutputFrames_input_offset_exact; try assumption; try lia.
    unfold in_Sint64, SDL_MIN_SINT64, SDL_MAX_SINT64 in *. lia.
Qed.

Lemma planning_duality_witness :
  4050 <= fst (SDL_GetResamplerOutputFrames
                 (SDL_GetResamplerInputFrames 4050 4674794335 17)
                 4674794335 17).
Proof.
  apply (planning_duality 4050 4674794335 17);
    unfold in_Sint64, SDL_MIN_SINT64, SDL_MAX_SINT64; try lia.
  reflexivity.
Defined.

(** C7, as stated, fails for a request that saturates the planning:
    [N = 2^31] outputs at the identity rate plan [2^31 - 1] input
    frames, which give back [2^31 - 1] outputs. *)
Lemma duality_fails_when_planning_saturates :
  ~ (forall N rate offset : Z,
        in_Sint64 N -> in_Sint64 rate -> in_Sint64 offset ->
        0 < rate -> Z.abs offset < rate -> 0 <= N ->
        N <= fst (SDL_GetResamplerOutputFrames
                    (SDL_GetResamplerInputFrames N rate offset) rate offset)).
Proof.
  intros H.
  specialize (H (2 ^ 31) (2 ^ 32) 0).
  assert (C : 2 ^ 31 <= fst (SDL_GetResamplerOutputFrames
                 (SDL_GetResamplerInputFrames (2 ^ 31) (2 ^ 32) 0) (2 ^ 32) 0)).
  { apply H; unfold in_Sint64, SDL_MIN_SINT64, SDL_MAX_SINT64; lia. }
  vm_compute in C. apply C. reflexivity.
Qed.

(** ** Loops and the trace *)

(** Induction over a counted loop: [Inv n] holds of the state after [n]
    iterations. *)
Lemma for_range_inv {S : Type} (Inv : nat -> S -> Prop) (body : Z -> S -> S) :
  forall (count : nat) (i : Z) (s : S),
    Inv O s ->
    (forall n t, (n < count)%nat -> Inv n t ->
                 Inv (Datatypes.S n) (body (i + Z.of_nat n) t)) ->
    Inv count (for_range count i body s).
Proof.
  intros count. revert Inv.
  induction count as [|count IH]; intros Inv i s H0 Hstep; cbn [for_range].
  - exact H0.
  - apply (IH (fun n => Inv (Datatypes.S n))).
    + specialize (Hstep O s ltac:(lia) H0).
      now rewrite Z.add_0_r in Hstep.
    + intros n t Hn Hi.
      specialize (Hstep (Datatypes.S n) t ltac:(lia) Hi).
      now replace (i + 1 + Z.of_nat n) with (i + Z.of_nat (Datatypes.S n)) by lia.
Qed.

Lemma extends_refl (P : event -> Prop) (m : machine) : extends P m m.
Proof. repeat split. exists []. split; [reflexivity|constructor]. Qed.

Lemma extends_trans (P : event -> Prop) (m1 m2 m3 : machine) :
  extends P m1 m2 -> extends P m2 m3 -> extends P m1 m3.
Proof.
  intros (A1 & A2 & A3 & A4 & l1 & T1 & F1) (B1 & B2 & B3 & B4 & l2 & T2 & F2).
  repeat split; try congruence.
  exists (l2 ++ l1). split.
  - rewrite T2, T1. apply app_assoc.
  - apply Forall_app. split; assumption.
Qed.

Lemma extends_weaken (P Q : event -> Prop) (m m' : machine) :
  (forall e, P e -> Q e) -> extends P m m' -> extends Q m m'.
Proof.
  intros HPQ (A1 & A2 & A3 & A4 & l & T & F).
  repeat split; try assumption.
  exists l. split; [assumption|]. eapply Forall_impl; eauto.
Qed.

Lemma extends_log (P : event -> Prop) (e : event) (m : machine) :
  P e -> extends P m (log e m).
Proof.
  intros He. repeat split. exists [e]. split; [reflexivity|].
  constructor; [assumption|constructor].
Qed.

Lemma extends_store (P : event -> Prop) (p : Z) (v : float32) (m : machine) :
  extends P m (snd (store_dst p v m)).
Proof. repeat split. exists []. split; [reflexivity|constructor]. Qed.

(** ** The phase accumulator of the driver *)

(** One iteration advances [srcpos] by the rate and [dst] by a frame,
    whatever the kernel does. *)
Lemma SDL_ResampleAudio_body_value
  (f : ResampleFrameFunc) (chans src inframes rate i srcpos dst : Z)
  (m : machine) :
  fst (SDL_ResampleAudio_body f chans src inframes rate i (srcpos, dst) m)
  = (Sint64_wrap (srcpos + rate), dst + chans).
Proof.
  unfold SDL_ResampleAudio_body, bind, SDL_assert, ret.
  match goal with
  | |- context [call_ResampleFrameFunc ?a ?b ?c ?d ?e ?g ?h] =>
      destruct (call_ResampleFrameFunc a b c d e g h) as [u m']
  end.
  reflexivity.
Qed.

(** After [n] iterations the accumulator is the 64-bit value of
    [offset + n * rate]. *)
Lemma SDL_ResampleAudio_loop_srcpos
  (f : ResampleFrameFunc) (chans src inframes rate offset dst : Z)
  (count : nat) (m : machine) :
  fst (for_loop count 0
         (SDL_ResampleAudio_body f chans src inframes rate) (offset, dst) m)
  = (Sint64_wrap (offset + Z.of_nat count * rate),
     dst + Z.of_nat count * chans)
  \/ (count = O /\
      fst (for_loop count 0
             (SDL_ResampleAudio_body f chans src inframes rate)
             (offset, dst) m) = (offset, dst)).
Proof.
  unfold for_loop.
  apply (for_range_inv
           (fun n (st : (Z * Z) * machine) =>
              fst st = (Sint64_wrap (offset + Z.of_nat n * rate),
                        dst + Z.of_nat n * chans)
              \/ (n = O /\ fst st = (offset, dst)))).
  - right. split; reflexivity.
  - intros n [[srcpos d] t] _ Hinv. left.
    rewrite SDL_ResampleAudio_body_value.
    destruct Hinv as [E|[-> E]]; cbn [fst] in E; inversion E; subst.
    + rewrite Sint64_wrap_add_l. f_equal; [f_equal|]; lia.
    + f_equal; [f_equal|]; lia.
Qed.

(** C2: for a call with [rate > 0] and [N >= 0] output frames, the
    offset stored on return plus [M << 32] equals the initial offset
    plus [N * rate] in 64-bit signed arithmetic; the equation holds
    exactly, with no wrap-around, when
    [offset + N * rate - M * 2^32] fits 64 bits. *)
Theorem SDL_ResampleAudio_offset
  (chans src inframes dst outframes rate offset : Z) (m : machine) :
  0 < rate -> 0 <= outframes ->
  let offset' :=
    fst (SDL_ResampleAudio chans src inframes dst outframes rate offset m) in
  Sint64_wrap (offset' + Sint64_wrap (Z.shiftl inframes 32))
  = Sint64_wrap (offset + outframes * rate) /\
  (in_Sint64 (offset + outframes * rate - inframes * 2 ^ 32) ->
   offset' + inframes * 2 ^ 32 = offset + outframes * rate).
Proof.
  intros Hr HN. cbv zeta.
  unfold SDL_ResampleAudio, bind, load_ResampleFrame, SDL_assert, ret.
  set (f := ResampleFrame m (Sint32_wrap (chans - 1))).
  set (m1 := log (Assert (rate >? 0)) m).
  set (src' := src - Sint32_wrap ((RESAMPLER_ZERO_CROSSINGS - 1) * chans)).
  pose proof (SDL_ResampleAudio_loop_srcpos f chans src' inframes rate offset
                dst (Z.to_nat outframes) m1) as Hloop.
  destruct (for_loop (Z.to_nat outframes) 0
              (SDL_ResampleAudio_body f chans src' inframes rate)
              (offset, dst) m1) as [[srcpos d] m2].
  cbn [fst snd] in *.
  assert (Hsrcpos : Sint64_wrap srcpos = Sint64_wrap (offset + outframes * rate)
                    /\ (in_Sint64 offset -> in_Sint64 srcpos)).
  { destruct Hloop as [E|[E0 E]]; inversion E; subst.
    - rewrite Z2Nat.id by lia. split.
      + apply Sint64_wrap_id, Sint64_wrap_range.
      + intros _. apply Sint64_wrap_range.
    - assert (outframes = 0) by lia. subst outframes. split.
      + f_equal. lia.
      + auto. }
  destruct Hsrcpos as [Hsrcpos _]. split.
  - rewrite Sint64_wrap_add_l, Sint64_wrap_add_r.
    replace (srcpos - Sint64_wrap (Z.shiftl inframes 32) + Z.shiftl inframes 32)
      with (srcpos + (Z.shiftl inframes 32 - Sint64_wrap (Z.shiftl inframes 32)))
      by lia.
    destruct (Sint64_wrap_spec (Z.shiftl inframes 32)) as (k & -> & _).
    replace (srcpos + (Z.shiftl inframes 32 - (Z.shiftl inframes 32 + k * 2 ^ 64)))
      with (srcpos + (- k) * 2 ^ 64) by lia.
    rewrite <- Hsrcpos. unfold Sint64_wrap.
    replace (srcpos + - k * 2 ^ 64 + 2 ^ 63)
      with (srcpos + 2 ^ 63 + (- k) * 2 ^ 64) by lia.
    now rewrite Z.mod_add by lia.
  - intros Hfit. rewrite Sint64_wrap_sub_r.
    rewrite Z.shiftl_mul_pow2 by lia.
    rewrite <- Sint64_wrap_sub_l, Hsrcpos, Sint64_wrap_sub_l.
    rewrite (Sint64_wrap_id _ Hfit). lia.
Qed.

Lemma SDL_ResampleAudio_offset_witness :
  Sint64_wrap
    (fst (SDL_ResampleAudio 2 0 128 0 128 (2 ^ 32) 0
            (machine_at_start (fun _ => f32_zero) (fun _ => f32_zero)))
     + Sint64_wrap (Z.shiftl 128 32))
  = Sint64_wrap (0 + 128 * 2 ^ 32).
Proof.
  refine (proj1 (SDL_ResampleAudio_offset 2 0 128 0 128 (2 ^ 32) 0
                   (machine_at_start (fun _ => f32_zero) (fun _ => f32_zero))
                   _ _)); lia.
Defined.

(** ** Single-precision facts *)

Lemma f32_mul_comm (x y : float32) : f32_mul x y = f32_mul y x.
Proof.
  unfold f32_mul.
  destruct x as [sx|sx| |sx mx ex], y as [sy|sy| |sy my ey]; cbn [SFmul];
    try reflexivity; try (now rewrite xorb_comm).
  now rewrite xorb_comm, Pos.mul_comm, Z.add_comm.
Qed.

Lemma kernel_scale_contract (m : machine) (filter : Z) (interp : float32) (i : Z) :
  kernel_scale m filter interp i
  = contract_scale (fun k => ResamplerFilter m (filter + k))
      (fun k => ResamplerFilter m
                  (filter + RESAMPLER_SAMPLES_PER_FRAME + k))
      interp i.
Proof.
  unfold kernel_scale, contract_scale.
  rewrite (f32_mul_comm (ResamplerFilter m (filter + i))).
  rewrite (f32_mul_comm _ interp).
  do 3 f_equal. lia.
Qed.

Lemma fir_sum_S (x scale : Z -> float32) (n : nat) :
  fir_sum x scale (S n)
  = f32_add (fir_sum x scale n) (f32_mul (x (Z.of_nat n)) (scale (Z.of_nat n))).
Proof.
  unfold fir_sum. rewrite seq_S, map_app, fold_left_app. reflexivity.
Qed.

Lemma fir_sum_ext (x x' scale scale' : Z -> float32) (n : nat) :
  (forall i, 0 <= i < Z.of_nat n -> x i = x' i /\ scale i = scale' i) ->
  fir_sum x scale n = fir_sum x' scale' n.
Proof.
  induction n as [|n IH]; intros H; [reflexivity|].
  rewrite !fir_sum_S, IH by (intros i Hi; apply H; lia).
  destruct (H (Z.of_nat n) ltac:(lia)) as [-> ->]. reflexivity.
Qed.

(** ** The kernels *)

Lemma interp_scale_run (filter : Z) (interp : float32) (i : Z) (m : machine) :
  interp_scale filter interp i m = (kernel_scale m filter interp i, m).
Proof. reflexivity. Qed.

Lemma upd_same {A : Type} (a : Z -> A) (i : Z) (v : A) : upd a i v i = v.
Proof. unfold upd. now rewrite Z.eqb_refl. Qed.

Lemma upd_other {A : Type} (a : Z -> A) (i k : Z) (v : A) :
  k <> i -> upd a i v k = a k.
Proof. unfold upd. intros H. destruct (Z.eqb_spec k i); congruence. Qed.

(** The mono kernel: one output, ten reads at [src .. src + 9]. *)
Lemma ResampleFrame_Mono_run (src dst filter : Z) (interp : float32)
  (chans : Z) (m : machine) :
  let m' := snd (ResampleFrame_Mono src dst filter interp chans m) in
  extends (event_within src (src + 10)) m m' /\
  output m'
  = upd (output m) (dst + 0)
      (fir_sum (fun i => input m (src + i)) (kernel_scale m filter interp) 10).
Proof.
  cbv zeta. unfold ResampleFrame_Mono, bind, for_loop.
  change (Z.to_nat RESAMPLER_SAMPLES_PER_FRAME) with 10%nat.
  pose proof
    (for_range_inv
       (fun n (st : float32 * machine) =>
          fst st = fir_sum (fun i => input m (src + i))
                     (kernel_scale m filter interp) n /\
          extends (event_within src (src + 10)) m (snd st) /\
          output (snd st) = output m)
       (fun i '(a, s) =>
          let '(scale, s') := interp_scale filter interp i s in
          let '(x, s'') := load_src (src + i) s' in
          ret (f32_add a (f32_mul x scale)) s'')
       10 0 (f32_zero, m)) as Hloop.
  cbv beta in Hloop.
  destruct (for_range 10 0 _ (f32_zero, m)) as [out m1].
  destruct Hloop as (Hout & Hext & Hmem).
  - repeat split; try reflexivity. apply extends_refl.
  - intros n [a s] Hn (Ha & He & Ho). cbn [fst snd] in *.
    rewrite interp_scale_run. unfold load_src, ret. cbn [fst snd].
    destruct He as (E1 & E2 & E3 & E4 & l & T & F).
    split; [|split].
    + rewrite fir_sum_S, Ha, E4, Z.add_0_l. unfold kernel_scale.
      now rewrite E2.
    + repeat split; try assumption.
      exists (Read (src + (0 + Z.of_nat n)) :: l). split.
      * cbn. now rewrite T.
      * constructor; [cbn; lia|assumption].
    + exact Ho.
  - cbn [fst snd] in *. unfold store_dst. cbn [snd output].
    split.
    + destruct Hext as (E1 & E2 & E3 & E4 & l & T & F).
      repeat split; try assumption. exists l. split; assumption.
    + now rewrite Hmem, Hout.
Qed.

Lemma Sint32_index (i chans chan : Z) :
  0 <= i < 10 -> 0 <= chan < chans -> 10 * chans <= SDL_MAX_SINT32 ->
  Sint32_wrap (Sint32_wrap (i * chans) + chan) = i * chans + chan.
Proof.
  intros Hi Hc Hmax.
  assert (0 <= i * chans <= 9 * chans) by nia.
  rewrite (Sint32_wrap_id (i * chans))
    by (unfold in_Sint32, SDL_MIN_SINT32, SDL_MAX_SINT32 in *; lia).
  apply Sint32_wrap_id.
  unfold in_Sint32, SDL_MIN_SINT32, SDL_MAX_SINT32 in *. lia.
Qed.

(** The stereo kernel: two outputs, twenty reads at [src .. src + 19]. *)
Lemma ResampleFrame_Stereo_run (src dst filter : Z) (interp : float32)
  (chans : Z) (m : machine) :
  let m' := snd (ResampleFrame_Stereo src dst filter interp chans m) in
  extends (event_within src (src + 20)) m m' /\
  output m'
  = upd (upd (output m) (dst + 0)
           (fir_sum (fun i => input m (src + (i * 2 + 0)))
              (kernel_scale m filter interp) 10))
      (dst + 1)
      (fir_sum (fun i => input m (src + (i * 2 + 1)))
         (kernel_scale m filter interp) 10).
Proof.
  cbv zeta. unfold ResampleFrame_Stereo, bind, for_loop.
  change (Z.to_nat RESAMPLER_SAMPLES_PER_FRAME) with 10%nat.
  pose proof
    (for_range_inv
       (fun n (st : (float32 * float32) * machine) =>
          fst (fst st) = fir_sum (fun i => input m (src + (i * 2 + 0)))
                           (kernel_scale m filter interp) n /\
          snd (fst st) = fir_sum (fun i => input m (src + (i * 2 + 1)))
                           (kernel_scale m filter interp) n /\
          extends (event_within src (src + 20)) m (snd st) /\
          output (snd st) = output m)
       (fun i '(a, s) =>
          (let '(out0, out1) := a in
           fun s0 =>
             let '(scale, s') := interp_scale filter interp i s0 in
             let '(x0, s'') :=
               load_src (src + Sint32_wrap (Sint32_wrap (i * 2) + 0)) s' in
             let '(x1, s''') :=
               load_src (src + Sint32_wrap (Sint32_wrap (i * 2) + 1)) s'' in
             ret (f32_add out0 (f32_mul x0 scale),
                  f32_add out1 (f32_mul x1 scale)) s''') s)
       10 0 ((f32_zero, f32_zero), m)) as Hloop.
  cbv beta in Hloop.
  destruct (for_range 10 0 _ ((f32_zero, f32_zero), m)) as [outs m1].
  destruct Hloop as (Hout0 & Hout1 & Hext & Hmem).
  - repeat split; try reflexivity. apply extends_refl.
  - intros n [[a0 a1] s] Hn (Ha0 & Ha1 & He & Ho). cbn [fst snd] in *.
    rewrite interp_scale_run. unfold load_src, ret. cbn [fst snd].
    destruct He as (E1 & E2 & E3 & E4 & l & T & F).
    assert (I0 : Sint32_wrap (Sint32_wrap ((0 + Z.of_nat n) * 2) + 0)
                 = Z.of_nat n * 2 + 0).
    { rewrite Sint32_index; unfold SDL_MAX_SINT32; lia. }
    assert (I1 : Sint32_wrap (Sint32_wrap ((0 + Z.of_nat n) * 2) + 1)
                 = Z.of_nat n * 2 + 1).
    { rewrite Sint32_index; unfold SDL_MAX_SINT32; lia. }
    rewrite I0, I1. cbn [input log].
    split; [|split; [|split]].
    + rewrite fir_sum_S, Ha0, E4. unfold kernel_scale.
      now rewrite E2, Z.add_0_l.
    + rewrite fir_sum_S, Ha1, E4. unfold kernel_scale.
      now rewrite E2, Z.add_0_l.
    + repeat split; try assumption.
      exists (Read (src + (Z.of_nat n * 2 + 1))
                :: Read (src + (Z.of_nat n * 2 + 0)) :: l). split.
      * cbn. now rewrite T.
      * repeat constructor; try assumption; cbn; lia.
    + exact Ho.
  - cbn [fst snd] in *. unfold store_dst. cbn [snd output].
    split.
    + destruct Hext as (E1 & E2 & E3 & E4 & l & T & F).
      repeat split; try assumption. exists l. split; assumption.
    + now rewrite Hmem, Hout0, Hout1.
Qed.

(** The first loop of the generic kernel fills [scales] and leaves the
    machine alone. *)
Lemma ResampleFrame_Generic_scales (filter : Z) (interp : float32) (m : machine) :
  let r :=
    for_loop (Z.to_nat RESAMPLER_SAMPLES_PER_FRAME) 0
      (fun i scales =>
         scale <- interp_scale filter interp i ;;
         ret (upd scales i scale))
      (fun _ => f32_zero) m in
  snd r = m /\
  forall i, 0 <= i < 10 -> fst r i = kernel_scale m filter interp i.
Proof.
  cbv zeta. unfold for_loop, bind.
  change (Z.to_nat RESAMPLER_SAMPLES_PER_FRAME) with 10%nat.
  apply (for_range_inv
           (fun n (st : (Z -> float32) * machine) =>
              snd st = m /\
              forall i, 0 <= i < Z.of_nat n ->
                        fst st i = kernel_scale m filter interp i)).
  - split; [reflexivity|]. intros i Hi. lia.
  - intros n [scales s] Hn [Hs Hsc]. cbn [fst snd] in *. subst s.
    rewrite interp_scale_run. unfold ret. cbn [fst snd].
    split; [reflexivity|]. intros i Hi.
    destruct (Z.eq_dec i (0 + Z.of_nat n)) as [->|Hne].
    + apply upd_same.
    + rewrite upd_other by assumption. apply Hsc. lia.
Qed.

(** The inner loop of the generic kernel for one channel. *)
Lemma ResampleFrame_Generic_channel (src chans chan : Z)
  (scales : Z -> float32) (m : machine) :
  0 <= chan < chans -> 10 * chans <= SDL_MAX_SINT32 ->
  let r :=
    for_loop (Z.to_nat RESAMPLER_SAMPLES_PER_FRAME) 0
      (fun i out =>
         x <- load_src (src + Sint32_wrap (Sint32_wrap (i * chans) + chan)) ;;
         ret (f32_add out (f32_mul x (scales i))))
      f32_zero m in
  fst r = fir_sum (fun i => input m (src + (i * chans + chan))) scales 10 /\
  extends (event_within src (src + 10 * chans)) m (snd r) /\
  output (snd r) = output m.
Proof.
  intros Hc Hmax. cbv zeta. unfold for_loop, bind.
  change (Z.to_nat RESAMPLER_SAMPLES_PER_FRAME) with 10%nat.
  apply (for_range_inv
           (fun n (st : float32 * machine) =>
              fst st = fir_sum (fun i => input m (src + (i * chans + chan)))
                         scales n /\
              extends (event_within src (src + 10 * chans)) m (snd st) /\
              output (snd st) = output m)).
  - repeat split; try reflexivity. apply extends_refl.
  - intros n [a s] Hn (Ha & He & Ho). cbn [fst snd] in *.
    unfold load_src, ret. cbn [fst snd].
    rewrite Sint32_index by (try assumption; lia).
    destruct He as (E1 & E2 & E3 & E4 & l & T & F).
    split; [|split].
    + rewrite fir_sum_S, Ha, E4, Z.add_0_l. reflexivity.
    + repeat split; try assumption.
      exists (Read (src + ((0 + Z.of_nat n) * chans + chan)) :: l). split.
      * cbn. now rewrite T.
      * constructor; [|assumption]. unfold event_within.
        assert (0 <= Z.of_nat n * chans <= 9 * chans)
          by (split; [apply Z.mul_nonneg_nonneg|
                      apply Z.mul_le_mono_nonneg_r]; lia).
        lia.
    + exact Ho.
Qed.

(** The generic kernel: [chans] outputs, reads inside the window of ten
    frames at [src]. *)
Lemma ResampleFrame_Generic_run (src dst filter : Z) (interp : float32)
  (chans : Z) (m : machine) :
  0 <= chans -> 10 * chans <= SDL_MAX_SINT32 ->
  let m' := snd (ResampleFrame_Generic src dst filter interp chans m) in
  extends (event_within src (src + 10 * chans)) m m' /\
  (forall c, 0 <= c < chans ->
     output m' (dst + c)
     = fir_sum (fun i => input m (src + (i * chans + c)))
         (kernel_scale m filter interp) 10) /\
  (forall p, ~ (dst <= p < dst + chans) -> output m' p = output m p).
Proof.
  intros Hc0 Hmax. cbv zeta.
  set (m' := snd (ResampleFrame_Generic src dst filter interp chans m)).
  assert (Hm' : m' = snd (ResampleFrame_Generic src dst filter interp chans m))
    by reflexivity.
  clearbody m'. unfold ResampleFrame_Generic in Hm'. unfold bind at 1 in Hm'.
  pose proof (ResampleFrame_Generic_scales filter interp m) as Hsc.
  cbv zeta in Hsc.
  destruct (for_loop (Z.to_nat RESAMPLER_SAMPLES_PER_FRAME) 0
              (fun i scales =>
                 scale <- interp_scale filter interp i ;;
                 ret (upd scales i scale))
              (fun _ => f32_zero) m) as [scales m0].
  cbn [fst snd] in Hsc. destruct Hsc as [-> Hsc].
  unfold for_loop at 1 in Hm'. subst m'.
  set (Inv := fun (n : nat) (st : unit * machine) =>
          extends (event_within src (src + 10 * chans)) m (snd st) /\
          (forall c, 0 <= c < Z.of_nat n ->
             output (snd st) (dst + c)
             = fir_sum (fun i => input m (src + (i * chans + c)))
                 (kernel_scale m filter interp) 10) /\
          (forall p, ~ (dst <= p < dst + Z.of_nat n) ->
                     output (snd st) p = output m p)).
  match goal with
  | |- context [for_range ?c ?i ?b ?s] =>
      enough (HI : Inv c (for_range c i b s))
  end.
  { subst Inv. cbv beta in HI. rewrite Z2Nat.id in HI by lia. exact HI. }
  apply for_range_inv; subst Inv; cbv beta.
  - split; [apply extends_refl|]. split; [intros c Hc; lia|reflexivity].
  - intros n [u s] Hn (He & Hout & Hrest). cbn [fst snd] in *.
    unfold bind.
    pose proof (ResampleFrame_Generic_channel src chans (0 + Z.of_nat n)
                  scales s ltac:(lia) Hmax) as Hch.
    cbv zeta in Hch. unfold bind in Hch.
    destruct (for_loop (Z.to_nat RESAMPLER_SAMPLES_PER_FRAME) 0 _ f32_zero s)
      as [out s1].
    cbn [fst snd] in Hch. destruct Hch as (Ho & He1 & Hmem).
    unfold store_dst. cbn [snd output].
    split; [|split].
    + eapply extends_trans; [exact He|].
      destruct He1 as (E1 & E2 & E3 & E4 & l & T & F).
      repeat split; try assumption. exists l. split; assumption.
    + intros c Hc.
      destruct (Z.eq_dec c (Z.of_nat n)) as [->|Hne].
      * replace (dst + (0 + Z.of_nat n)) with (dst + Z.of_nat n) by lia.
        rewrite upd_same, Ho.
        destruct He as (_ & _ & _ & E4 & _). rewrite E4.
        apply fir_sum_ext. intros i Hi. split.
        -- f_equal; lia.
        -- apply Hsc; lia.
      * rewrite upd_other by lia. rewrite Hmem. apply Hout. lia.
    + intros p Hp. rewrite upd_other by lia. rewrite Hmem. apply Hrest. lia.
Qed.

(** What a call through the dispatch table does, for a kernel written
    for [chans] channels: the contract's outputs at [dst .. dst+chans-1],
    nothing else written, and reads inside the window at [src]. *)
Lemma call_ResampleFrameFunc_run (f : ResampleFrameFunc)
  (src dst filter : Z) (interp : float32) (chans : Z) (m : machine) :
  1 <= chans -> 10 * chans <= SDL_MAX_SINT32 -> kernel_supports f chans ->
  let m' := snd (call_ResampleFrameFunc f src dst filter interp chans m) in
  extends (event_within src (src + 10 * chans)) m m' /\
  (forall c, 0 <= c < chans ->
     output m' (dst + c)
     = fir_sum (fun i => input m (src + (i * chans + c)))
         (kernel_scale m filter interp) 10) /\
  (forall p, ~ (dst <= p < dst + chans) -> output m' p = output m p).
Proof.
  intros H1 Hmax Hsup. cbv zeta.
  destruct f; cbn [kernel_supports call_ResampleFrameFunc] in *.
  - contradiction.
  - apply ResampleFrame_Generic_run; lia.
  - subst chans.
    destruct (ResampleFrame_Mono_run src dst filter interp 1 m) as [He Ho].
    split; [exact He|]. rewrite Ho. split.
    + intros c Hc. assert (c = 0) by lia. subst c.
      rewrite upd_same. apply fir_sum_ext. intros i Hi.
      split; [f_equal; lia|reflexivity].
    + intros p Hp. apply upd_other. lia.
  - subst chans.
    destruct (ResampleFrame_Stereo_run src dst filter interp 2 m) as [He Ho].
    split; [exact He|]. rewrite Ho. split.
    + intros c Hc. assert (c = 0 \/ c = 1) as [-> | ->] by lia.
      * rewrite upd_other by lia. apply upd_same.
      * apply upd_same.
    + intros p Hp. rewrite !upd_other by lia. reflexivity.
Qed.

(** C1: for [1 <= C <= 8], a weight [alpha] in [[0, 1)] and a scalar
    kernel written for [C] channels (the generic one for any [C], the
    mono one for [C = 1], the stereo one for [C = 2]), the kernel writes
    exactly the [C] samples [dst[0 .. C-1]], and [dst[c]] is the sum over
    [i = 0 .. 9] of [src[i*C + c] * ((1 - alpha)*f0[i] + alpha*f1[i])] in
    single precision, the blend computed first and the taps accumulated
    from [0.0f] in increasing [i], where [f0] is [filter[0..9]] and [f1]
    is [filter[10..19]]. *)
Theorem kernel_contract (f : ResampleFrameFunc) (C src dst filter : Z)
  (alpha : float32) (m : machine) :
  1 <= C <= 8 -> kernel_supports f C ->
  f32_le f32_zero alpha = true -> f32_lt alpha f32_one = true ->
  let m' := snd (call_ResampleFrameFunc f src dst filter alpha C m) in
  (forall c, 0 <= c < C ->
     output m' (dst + c)
     = contract_output (fun k => input m (src + k))
         (fun i => ResamplerFilter m (filter + i))
         (fun i => ResamplerFilter m (filter + RESAMPLER_SAMPLES_PER_FRAME + i))
         alpha C c) /\
  (forall p, ~ (dst <= p < dst + C) -> output m' p = output m p).
Proof.
  intros HC Hsup _ _. cbv zeta.
  destruct (call_ResampleFrameFunc_run f src dst filter alpha C m)
    as (_ & Hout & Hrest); try assumption; try lia.
  { unfold SDL_MAX_SINT32. lia. }
  split; [|exact Hrest].
  intros c Hc. rewrite (Hout c Hc). unfold contract_output.
  change (Z.to_nat RESAMPLER_SAMPLES_PER_FRAME) with 10%nat.
  apply fir_sum_ext. intros i Hi.
  split; [reflexivity|apply kernel_scale_contract].
Qed.

Lemma kernel_contract_witness :
  let m := machine_at_start (fun k => f32_of_int k) (fun _ => f32_zero) in
  let m' := snd (call_ResampleFrameFunc Fn_Generic 0 0 0 f32_half 3 m) in
  (forall c, 0 <= c < 3 ->
     output m' (0 + c)
     = contract_output (fun k => input m (0 + k))
         (fun i => ResamplerFilter m (0 + i))
         (fun i => ResamplerFilter m (0 + RESAMPLER_SAMPLES_PER_FRAME + i))
         f32_half 3 c) /\
  (forall p, ~ (0 <= p < 0 + 3) -> output m' p = output m p).
Proof.
  apply (kernel_contract Fn_Generic 3 0 0 0 f32_half
           (machine_at_start (fun k => f32_of_int k) (fun _ => f32_zero)));
    [lia | exact I | reflexivity | reflexivity].
Defined.

(** ** Safety of the driver *)

(** The index and window of one iteration whose position [srcpos] lies
    between the frame before the live origin and the end of the [M]
    planned frames. *)
Lemma SDL_ResampleAudio_body_safe (f : ResampleFrameFunc)
  (chans src M rate i srcpos dst : Z) (m : machine) :
  1 <= chans <= 8 -> kernel_supports f chans ->
  0 <= M -> (M + 5) * chans <= SDL_MAX_SINT32 ->
  - 2 ^ 32 <= srcpos < M * 2 ^ 32 ->
  extends (event_within (src - 6 * chans) (src + (M + 5) * chans)) m
    (snd (SDL_ResampleAudio_body f chans
            (src - Sint32_wrap ((RESAMPLER_ZERO_CROSSINGS - 1) * chans))
            M rate i (srcpos, dst) m)).
Proof.
  intros Hch Hsup HM Hmax Hpos.
  unfold SDL_ResampleAudio_body, bind, SDL_assert, ret.
  set (srcindex := Sint32_wrap (Sint32_wrap (Z.shiftr srcpos 32))).
  assert (Hidx : srcindex = srcpos / 2 ^ 32 /\ -1 <= srcindex < M).
  { subst srcindex. rewrite Z.shiftr_div_pow2 by lia.
    pose proof (Z.div_mod srcpos (2 ^ 32) ltac:(lia)) as Hd.
    pose proof (Z.mod_pos_bound srcpos (2 ^ 32) ltac:(lia)) as Hm.
    assert (Hq : -1 <= srcpos / 2 ^ 32 < M) by lia.
    assert (HM32 : M <= SDL_MAX_SINT32) by (unfold SDL_MAX_SINT32 in *; nia).
    rewrite !Sint32_wrap_id;
      unfold in_Sint32, SDL_MIN_SINT32, SDL_MAX_SINT32 in *; try lia.
    rewrite Sint32_wrap_id;
      unfold in_Sint32, SDL_MIN_SINT32, SDL_MAX_SINT32 in *; lia. }
  destruct Hidx as [_ Hidx].
  set (filter := Uint32_wrap _). set (interp := f32_mul _ _).
  set (m1 := log (Assert ((srcindex >=? -1) && (srcindex <? M))) m).
  assert (H4 : Sint32_wrap ((RESAMPLER_ZERO_CROSSINGS - 1) * chans) = 4 * chans).
  { change (RESAMPLER_ZERO_CROSSINGS - 1) with 4. apply Sint32_wrap_id.
    unfold in_Sint32, SDL_MIN_SINT32, SDL_MAX_SINT32. lia. }
  assert (Hprod : - chans <= srcindex * chans <= (M - 1) * chans) by nia.
  assert (Hic : Sint32_wrap (srcindex * chans) = srcindex * chans).
  { apply Sint32_wrap_id.
    unfold in_Sint32, SDL_MIN_SINT32, SDL_MAX_SINT32 in *. nia. }
  rewrite H4, Hic.
  set (frame := src - 4 * chans + srcindex * chans).
  destruct (call_ResampleFrameFunc_run f frame dst filter interp chans m1)
    as (He & _); try assumption; try lia.
  { unfold SDL_MAX_SINT32 in *. nia. }
  destruct (call_ResampleFrameFunc f frame dst filter interp chans m1)
    as [u m2].
  cbn [snd] in *.
  apply extends_trans with (m2 := m1).
  - apply extends_log. cbn.
    destruct (Z.geb_spec srcindex (-1)); destruct (Z.ltb_spec srcindex M);
      try reflexivity; lia.
  - eapply extends_weaken; [|exact He].
    intros [a|b]; unfold event_within; [|auto]. subst frame. lia.
Qed.

(** C3, as amended: for [chans] in [[1, 8]] with a kernel written for
    [chans] in the dispatch table, [rate > 0], [0 <= N <= INT_MAX], an
    offset with [-2^32 <= offset < rate] (true of the offset 0 of a
    fresh stream and preserved by every such call), a planning call
    [M = SDL_GetResamplerInputFrames(N, rate, offset)] that does not
    saturate and [(M + 5) * chans <= INT_MAX]: every event of
    [SDL_ResampleAudio] is a read between 6 frames before the live
    origin and 5 frames after the [M] live frames, or an assertion that
    holds, so [-1 <= srcindex < M] in every iteration. *)
Theorem SDL_ResampleAudio_in_bounds
  (chans src dst N rate offset : Z) (m : machine) :
  1 <= chans <= 8 ->
  kernel_supports (ResampleFrame m (chans - 1)) chans ->
  in_Sint64 rate -> 0 < rate ->
  0 <= N <= SDL_MAX_SINT32 ->
  - 2 ^ 32 <= offset < rate ->
  fst (InputFrames_steps N rate offset) = false ->
  let M := SDL_GetResamplerInputFrames N rate offset in
  (M + 5) * chans <= SDL_MAX_SINT32 ->
  let m' := snd (SDL_ResampleAudio chans src M dst N rate offset m) in
  extends (event_within (src - SDL_GetResamplerHistoryFrames * chans)
             (src + (M + 5) * chans)) m m'.
Proof.
  intros Hch Hsup Hrate Hr HN Hoff Hs M Hmax. cbv zeta.
  change SDL_GetResamplerHistoryFrames with 6.
  set (P := event_within (src - 6 * chans) (src + (M + 5) * chans)).
  pose proof (InputFrames_bounds N rate offset) as HM. fold M in HM.
  unfold SDL_ResampleAudio, bind, load_ResampleFrame, SDL_assert, ret.
  rewrite (Sint32_wrap_id (chans - 1))
    by (unfold in_Sint32, SDL_MIN_SINT32, SDL_MAX_SINT32; lia).
  set (f := ResampleFrame m (chans - 1)) in *.
  set (m1 := log (Assert (rate >? 0)) m).
  assert (Hm1 : extends P m m1).
  { apply extends_log. cbn. destruct (Z.gtb_spec rate 0); [reflexivity|lia]. }
  set (src' := src - Sint32_wrap ((RESAMPLER_ZERO_CROSSINGS - 1) * chans)).
  assert (Hcov : forall n, (n < Z.to_nat N)%nat ->
                   - 2 ^ 32 <= offset + Z.of_nat n * rate < M * 2 ^ 32).
  { intros n Hn.
    assert (H1 : 1 <= N) by lia.
    assert (Hb : in_Sint64 (offset - rate + 2 ^ 32)).
    { unfold in_Sint64, SDL_MIN_SINT64, SDL_MAX_SINT64 in *. lia. }
    assert (HNin : in_Sint64 N).
    { unfold in_Sint64, SDL_MIN_SINT64, SDL_MAX_SINT64, SDL_MAX_SINT32 in *. lia. }
    assert (Hoffin : in_Sint64 offset).
    { unfold in_Sint64, SDL_MIN_SINT64, SDL_MAX_SINT64 in *. lia. }
    destruct (InputFrames_covers N rate offset HNin Hrate Hoffin H1 Hr Hb Hs)
      as (Hc & _ & _). fold M in Hc.
    assert (0 <= Z.of_nat n * rate <= (N - 1) * rate) by nia.
    lia. }
  enough (Hloop :
    extends P m1
      (snd (for_loop (Z.to_nat N) 0
              (SDL_ResampleAudio_body f chans src' M rate) (offset, dst) m1))).
  { destruct (for_loop (Z.to_nat N) 0
                (SDL_ResampleAudio_body f chans src' M rate) (offset, dst) m1)
      as [st m2].
    cbn [snd] in *. eapply extends_trans; eassumption. }
  unfold for_loop.
  enough (Hinv :
    (fun n (st : (Z * Z) * machine) =>
       fst (fst st) = Sint64_wrap (offset + Z.of_nat n * rate) /\
       extends P m1 (snd st))
      (Z.to_nat N)
      (for_range (Z.to_nat N) 0
         (fun (i : Z) '(a, s) =>
            SDL_ResampleAudio_body f chans src' M rate i a s)
         (offset, dst, m1))).
  { exact (proj2 Hinv). }
  apply for_range_inv.
  - cbn [fst snd]. split; [|apply extends_refl].
    replace (offset + Z.of_nat 0 * rate) with offset by lia.
    symmetry. apply Sint64_wrap_id.
    unfold in_Sint64, SDL_MIN_SINT64, SDL_MAX_SINT64 in *. lia.
  - intros n [[srcpos d] s] Hn [Hp He]. cbn [fst snd] in *.
    specialize (Hcov n Hn).
    rewrite Sint64_wrap_id in Hp
      by (unfold in_Sint64, SDL_MIN_SINT64, SDL_MAX_SINT64 in *; lia).
    rewrite <- Hp in Hcov.
    split.
    + rewrite SDL_ResampleAudio_body_value. cbn [fst].
      f_equal. lia.
    + eapply extends_trans; [exact He|].
      apply SDL_ResampleAudio_body_safe; try assumption; lia.
Qed.

Lemma SDL_ResampleAudio_in_bounds_witness :
  extends (event_within (0 - SDL_GetResamplerHistoryFrames * 2)
             (0 + (SDL_GetResamplerInputFrames 3 (2 ^ 31) 0 + 5) * 2))
    machine_with_dispatch
    (snd (SDL_ResampleAudio 2 0 (SDL_GetResamplerInputFrames 3 (2 ^ 31) 0)
            0 3 (2 ^ 31) 0 machine_with_dispatch)).
Proof.
  apply (SDL_ResampleAudio_in_bounds 2 0 0 3 (2 ^ 31) 0 machine_with_dispatch);
    try reflexivity;
    unfold in_Sint64, SDL_MIN_SINT64, SDL_MAX_SINT64, SDL_MAX_SINT32;
    try lia.
  vm_compute. discriminate.
Defined.

(** C3, as stated, fails: with only the [M] planned live frames and the
    6 history frames supplied, the first output at the identity rate
    ([chans = 1], [N = 1], [offset = 0], hence [M = 1]) reads the
    frames [-4 .. 5] around the live origin, five of them past the end
    of the live data. *)
Lemma SDL_ResampleAudio_reads_past_live_frames :
  ~ (forall (chans src dst N rate offset : Z) (m : machine),
        1 <= chans <= 8 ->
        kernel_supports (ResampleFrame m (chans - 1)) chans ->
        in_Sint64 rate -> 0 < rate ->
        0 <= N <= SDL_MAX_SINT32 ->
        - 2 ^ 32 <= offset < rate ->
        fst (InputFrames_steps N rate offset) = false ->
        let M := SDL_GetResamplerInputFrames N rate offset in
        (M + 5) * chans <= SDL_MAX_SINT32 ->
        let m' := snd (SDL_ResampleAudio chans src M dst N rate offset m) in
        extends (event_within (src - SDL_GetResamplerHistoryFrames * chans)
                   (src + M * chans)) m m').
Proof.
  intros H.
  specialize (H 1 0 0 1 (2 ^ 32) 0 machine_with_dispatch).
  cbv zeta in H.
  assert (C : extends
                (event_within (0 - SDL_GetResamplerHistoryFrames * 1)
                   (0 + SDL_GetResamplerInputFrames 1 (2 ^ 32) 0 * 1))
                machine_with_dispatch
                (snd (SDL_ResampleAudio 1 0
                        (SDL_GetResamplerInputFrames 1 (2 ^ 32) 0)
                        0 1 (2 ^ 32) 0 machine_with_dispatch))).
  { apply H; try reflexivity;
      unfold in_Sint64, SDL_MIN_SINT64, SDL_MAX_SINT64, SDL_MAX_SINT32;
      try lia.
    vm_compute. discriminate. }
  destruct C as (_ & _ & _ & _ & l & T & F).
  assert (Hin : In (Read 5)
                  (trace (snd (SDL_ResampleAudio 1 0
                                 (SDL_GetResamplerInputFrames 1 (2 ^ 32) 0)
                                 0 1 (2 ^ 32) 0 machine_with_dispatch)))).
  { vm_compute. left. reflexivity. }
  rewrite T in Hin. cbn [trace machine_with_dispatch] in Hin.
  rewrite app_nil_r in Hin.
  rewrite Forall_forall in F. specialize (F _ Hin).
  vm_compute in F. destruct F as [_ F]. discriminate F.
Qed.

(** The table installed by [SDL_SetupAudioResampler] holds, for every
    supported channel count, a kernel written for it. *)
Lemma SDL_SetupAudioResampler_dispatch
  (SDL_sinf : float32 -> float32) (fuel : nat) (s s' : machine) (chans : Z) :
  setup s = false ->
  SDL_SetupAudioResampler SDL_sinf fuel s = Some s' ->
  1 <= chans <= 8 ->
  kernel_supports (ResampleFrame s' (chans - 1)) chans.
Proof.
  intros Hs Hrun Hc. unfold SDL_SetupAudioResampler in Hrun.
  rewrite Hs in Hrun.
  destruct (GenerateResamplerFilter SDL_sinf fuel (ResamplerFilter s));
    [|discriminate].
  inversion Hrun; subst s'; clear Hrun. cbn [ResampleFrame].
  assert (chans = 1 \/ chans = 2 \/ chans = 3 \/ chans = 4 \/ chans = 5 \/
          chans = 6 \/ chans = 7 \/ chans = 8) as Hcases by lia.
  repeat (destruct Hcases as [->|Hcases]); try subst chans; cbn; auto.
Qed.

(** A call that follows the contract leaves an offset that again
    satisfies [-2^32 <= offset < rate]. *)
Lemma SDL_ResampleAudio_keeps_offset_contract
  (chans src dst N rate offset : Z) (m : machine) :
  in_Sint64 rate -> 0 < rate -> 0 <= N <= SDL_MAX_SINT32 ->
  - 2 ^ 32 <= offset < rate ->
  fst (InputFrames_steps N rate offset) = false ->
  let M := SDL_GetResamplerInputFrames N rate offset in
  - 2 ^ 32 <= fst (SDL_ResampleAudio chans src M dst N rate offset m) < rate.
Proof.
  intros Hrate Hr HN Hoff Hs M.
  pose proof (InputFrames_bounds N rate offset) as HM. fold M in HM.
  assert (Hoffin : in_Sint64 offset).
  { unfold in_Sint64, SDL_MIN_SINT64, SDL_MAX_SINT64 in *. lia. }
  assert (Hb : in_Sint64 (offset - rate + 2 ^ 32)).
  { unfold in_Sint64, SDL_MIN_SINT64, SDL_MAX_SINT64 in *. lia. }
  assert (Hexact : - 2 ^ 32 <= offset + N * rate - M * 2 ^ 32 < rate).
  { destruct (Z.eq_dec N 0) as [->|Hne].
    - assert (M = 0).
      { subst M. unfold SDL_GetResamplerInputFrames.
        destruct (InputFrames_steps_ok 0 rate offset Hr Hs) as (_ & _ & Hv).
        destruct (InputFrames_steps 0 rate offset) as [failed oo].
        cbn [fst snd] in *. subst failed oo.
        rewrite Z.mul_0_l, (Sint64_wrap_id 0), Z.add_0_l, !Sint64_wrap_id;
          try (unfold in_Sint64, SDL_MIN_SINT64, SDL_MAX_SINT64 in *; lia);
          try apply Sint64_wrap_range.
        rewrite SDL_max_is_max, Sint32_wrap_id
          by (apply shiftr_32_in_Sint32; exact Hb).
        rewrite Z.shiftr_div_pow2 by lia.
        assert ((offset - rate + 2 ^ 32) / 2 ^ 32 <= 0).
        { apply Z.lt_succ_r. apply Z.div_lt_upper_bound; lia. }
        lia. }
      lia.
    - assert (HNin : in_Sint64 N).
      { unfold in_Sint64, SDL_MIN_SINT64, SDL_MAX_SINT64, SDL_MAX_SINT32 in *.
        lia. }
      destruct (InputFrames_covers N rate offset HNin Hrate Hoffin
                  ltac:(lia) Hr Hb Hs) as (Hc & Hc' & _).
      fold M in Hc, Hc'.
      assert (0 <= (N - 1) * rate) by nia.
      lia. }
  destruct (SDL_ResampleAudio_loop_srcpos
              (ResampleFrame m (Sint32_wrap (chans - 1))) chans
              (src - Sint32_wrap ((RESAMPLER_ZERO_CROSSINGS - 1) * chans))
              M rate offset dst (Z.to_nat N)
              (log (Assert (rate >? 0)) m)) as [E|[E0 E]];
    unfold SDL_ResampleAudio, bind, load_ResampleFrame, SDL_assert, ret;
    destruct (for_loop (Z.to_nat N) 0 _ (offset, dst) _) as [[srcpos d] m2];
    cbn [fst snd] in *; inversion E; subst.
  - rewrite Z2Nat.id by lia.
    rewrite Sint64_wrap_sub_r, Sint64_wrap_sub_l, Z.shiftl_mul_pow2 by lia.
    rewrite Sint64_wrap_id; [lia|].
    unfold in_Sint64, SDL_MIN_SINT64, SDL_MAX_SINT64 in *. lia.
  - assert (N = 0) by lia. subst N.
    rewrite Sint64_wrap_sub_r, Z.shiftl_mul_pow2 by lia.
    rewrite Sint64_wrap_id; [lia|].
    unfold in_Sint64, SDL_MIN_SINT64, SDL_MAX_SINT64 in *. lia.
Qed.

(** ** The filter bank *)

(** More fuel does not change a result already reached. *)
Lemma bessel_loop_mono (fuel : nat) :
  forall (x sum i t v : float32) (d : nat),
    bessel_loop fuel x sum i t = Some v ->
    bessel_loop (fuel + d) x sum i t = Some v.
Proof.
  induction fuel as [|fuel IH]; intros x sum i t v d H.
  - cbn [bessel_loop] in H. cbn [Nat.add].
    destruct (f32_gt t f32_epsilon) eqn:G; [discriminate|].
    destruct d; cbn [bessel_loop]; rewrite G; exact H.
  - cbn [bessel_loop Nat.add] in *.
    destruct (f32_gt t f32_epsilon); [|exact H].
    apply IH. exact H.
Qed.

Lemma bessel_mono (fuel d : nat) (x v : float32) :
  bessel fuel x = Some v -> bessel (fuel + d) x = Some v.
Proof. unfold bessel. apply bessel_loop_mono. Qed.

Lemma GenerateKaiserTable_loop_mono (fuel d : nat) (count : nat) :
  forall (i : Z) (beta bessel_beta : float32) (tablelen : Z)
         (table table' : Z -> float32),
    GenerateKaiserTable_loop fuel count i beta bessel_beta tablelen table
    = Some table' ->
    GenerateKaiserTable_loop (fuel + d) count i beta bessel_beta tablelen table
    = Some table'.
Proof.
  induction count as [|count IH]; intros i beta bb tl table table' H;
    cbn [GenerateKaiserTable_loop] in *; [exact H|].
  match type of H with
  | match bessel fuel ?a with _ => _ end = _ =>
      destruct (bessel fuel a) as [b|] eqn:B; [|discriminate];
      rewrite (bessel_mono fuel d a b B)
  end.
  apply IH. exact H.
Qed.

Lemma GenerateKaiserTable_mono (fuel d : nat) (beta : float32)
  (table table' : Z -> float32) (tablelen : Z) :
  GenerateKaiserTable fuel beta table tablelen = Some table' ->
  GenerateKaiserTable (fuel + d) beta table tablelen = Some table'.
Proof.
  unfold GenerateKaiserTable. intros H.
  destruct (bessel fuel beta) as [bb|] eqn:B; [|discriminate].
  rewrite (bessel_mono fuel d beta bb B).
  destruct (GenerateKaiserTable_loop fuel (Z.to_nat (tablelen + 1)) 0 beta bb
              tablelen table) as [t|] eqn:L; [|discriminate].
  rewrite (GenerateKaiserTable_loop_mono fuel d _ _ _ _ _ _ _ L).
  exact H.
Qed.

(** Every [bessel] loop of the Kaiser table of the resampler ends
    within 20 iterations. *)
Lemma GenerateKaiserTable_terminates (fuel : nat) :
  (20 <= fuel)%nat ->
  exists kaiser,
    GenerateKaiserTable fuel (f32_mul f32_0_1102 (f32_sub f32_dB f32_8_7))
      (fun _ => f32_zero) KAISER_TABLE_SIZE = Some kaiser.
Proof.
  intros Hfuel.
  destruct (GenerateKaiserTable 20
              (f32_mul f32_0_1102 (f32_sub f32_dB f32_8_7))
              (fun _ => f32_zero) KAISER_TABLE_SIZE) as [kaiser|] eqn:E.
  - exists kaiser.
    replace fuel with (20 + (fuel - 20))%nat by lia.
    apply GenerateKaiserTable_mono. exact E.
  - vm_compute in E. discriminate E.
Qed.

(** A pair of writes of one value at mirrored positions keeps every
    mirrored pair written so far equal, and adds its own. *)
Lemma mirror_step (W : Z -> Prop) (b : Z -> float32) (l : Z) (v : float32) :
  (forall k, W k -> b k = b (RESAMPLER_FILTER_SIZE - 1 - k)) ->
  forall k, W k \/ k = l \/ k = RESAMPLER_FILTER_SIZE - 1 - l ->
    upd (upd b l v) (RESAMPLER_FILTER_SIZE - 1 - l) v k
    = upd (upd b l v) (RESAMPLER_FILTER_SIZE - 1 - l) v
        (RESAMPLER_FILTER_SIZE - 1 - k).
Proof.
  intros HW k Hk. set (n := RESAMPLER_FILTER_SIZE - 1) in *. unfold upd.
  destruct (Z.eqb_spec k (n - l)), (Z.eqb_spec (n - k) (n - l)),
    (Z.eqb_spec k l), (Z.eqb_spec (n - k) l); try reflexivity; try lia.
  destruct Hk as [Hk|[Hk|Hk]]; [apply HW; exact Hk|lia|lia].
Qed.

Lemma GenerateResamplerFilter_outer_mirror
  (SDL_sinf : float32 -> float32) (kaiser : Z -> float32) (winglen : Z)
  (sinc_scale : float32) (W : Z -> Prop) (i : Z) (b : Z -> float32) :
  (forall k, W k -> b k = b (RESAMPLER_FILTER_SIZE - 1 - k)) ->
  let b' := GenerateResamplerFilter_outer SDL_sinf kaiser winglen sinc_scale i b in
  forall k, W k \/ written_in_row i 5 k ->
            b' k = b' (RESAMPLER_FILTER_SIZE - 1 - k).
Proof.
  intros HW. cbv zeta. unfold GenerateResamplerFilter_outer.
  change (Z.to_nat RESAMPLER_ZERO_CROSSINGS) with 5%nat.
  apply (for_range_inv
           (fun m (st : (Z -> float32) * float32) =>
              forall k, W k \/ written_in_row i m k ->
                        fst st k = fst st (RESAMPLER_FILTER_SIZE - 1 - k))).
  - intros k [Hk|(j & Hj & _)]; [apply HW; exact Hk|lia].
  - intros m [bank s] Hm Hinv. cbn [fst] in *.
    unfold GenerateResamplerFilter_inner.
    cbv zeta. cbn [fst].
    intros k Hk.
    apply (mirror_step (fun k => W k \/ written_in_row i m k)); [exact Hinv|].
    change (RESAMPLER_SAMPLES_PER_FRAME) with 10.
    change (RESAMPLER_ZERO_CROSSINGS - 1) with 4.
    destruct Hk as [Hk|(j & Hj & Hk)]; [left; left; exact Hk|].
    destruct (Z.eq_dec j (Z.of_nat m)) as [->|Hne].
    + right. lia.
    + left. right. exists j. split; [lia|exact Hk].
Qed.

Lemma GenerateResamplerFilter_clear_mirror (W : Z -> Prop) (i : Z)
  (b : Z -> float32) :
  (forall k, W k -> b k = b (RESAMPLER_FILTER_SIZE - 1 - k)) ->
  forall k, W k ->
    GenerateResamplerFilter_clear i b k
    = GenerateResamplerFilter_clear i b (RESAMPLER_FILTER_SIZE - 1 - k).
Proof.
  intros HW k Hk. unfold GenerateResamplerFilter_clear. cbv zeta.
  set (l := RESAMPLER_FILTER_SIZE - 1 - (i + RESAMPLER_ZERO_CROSSINGS)).
  replace (i + RESAMPLER_ZERO_CROSSINGS)
    with (RESAMPLER_FILTER_SIZE - 1 - l) by (subst l; lia).
  apply (mirror_step W); [exact HW|left; exact Hk].
Qed.

Lemma Some_eq_inv {A : Type} (x y : A) : Some x = Some y -> x = y.
Proof. intros H. now injection H. Qed.

(** The bank that [GenerateResamplerFilter] leaves is mirrored on every
    position written by the main loop, whatever it held before. *)
Lemma GenerateResamplerFilter_mirror
  (SDL_sinf : float32 -> float32) (fuel : nat) (b0 bank : Z -> float32) :
  GenerateResamplerFilter SDL_sinf fuel b0 = Some bank ->
  forall k, written_rows 512 k ->
            bank k = bank (RESAMPLER_FILTER_SIZE - 1 - k).
Proof.
  unfold GenerateResamplerFilter. cbv zeta.
  destruct (GenerateKaiserTable fuel _ _ KAISER_TABLE_SIZE) as [kaiser|];
    [|discriminate].
  intros H. apply Some_eq_inv in H. subst bank.
  change (Z.to_nat RESAMPLER_SAMPLES_PER_ZERO_CROSSING) with 512%nat.
  change (Z.to_nat RESAMPLER_ZERO_CROSSINGS) with 5%nat.
  apply (for_range_inv
           (fun (n : nat) (b : Z -> float32) =>
              forall k, written_rows 512 k ->
                        b k = b (RESAMPLER_FILTER_SIZE - 1 - k))).
  - apply (for_range_inv
             (fun (n : nat) (b : Z -> float32) =>
                forall k, written_rows n k ->
                          b k = b (RESAMPLER_FILTER_SIZE - 1 - k))).
    + intros k (i & Hi & _). lia.
    + intros n b Hn Hinv k Hk.
      apply (GenerateResamplerFilter_outer_mirror SDL_sinf kaiser _ _
               (written_rows n)); [exact Hinv|].
      destruct Hk as (i & Hi & Hk).
      destruct (Z.eq_dec i (Z.of_nat n)) as [->|Hne].
      * right. rewrite Z.add_0_l. exact Hk.
      * left. exists i. split; [lia|exact Hk].
  - intros n b Hn Hinv k Hk.
    apply (GenerateResamplerFilter_clear_mirror (written_rows 512));
      assumption.
Qed.

(** C8: once [SDL_SetupAudioResampler] has run (enough fuel for the
    [bessel] loops, any [SDL_sinf], any earlier content of the bank),
    the bank satisfies
    [ResamplerFilter[p*10 + i] = ResamplerFilter[(512 - p)*10 + (9 - i)]]
    for every phase [p] in [[1, 511]] and tap [i] in [[0, 10)], and
    running the setup again changes nothing. *)
Theorem ResamplerFilter_symmetric
  (SDL_sinf : float32 -> float32) (fuel : nat) (s : machine) :
  (20 <= fuel)%nat -> setup s = false ->
  exists s',
    SDL_SetupAudioResampler SDL_sinf fuel s = Some s' /\
    SDL_SetupAudioResampler SDL_sinf fuel s' = Some s' /\
    forall p i, 1 <= p <= 511 -> 0 <= i < 10 ->
      ResamplerFilter s' (p * 10 + i)
      = ResamplerFilter s' ((512 - p) * 10 + (9 - i)).
Proof.
  intros Hfuel Hs. unfold SDL_SetupAudioResampler at 1. rewrite Hs.
  destruct (GenerateResamplerFilter SDL_sinf fuel (ResamplerFilter s))
    as [bank|] eqn:G.
  - eexists. split; [reflexivity|]. split; [reflexivity|].
    cbn [ResamplerFilter]. intros p i Hp Hi.
    rewrite (GenerateResamplerFilter_mirror SDL_sinf fuel _ bank G).
    + f_equal. change RESAMPLER_FILTER_SIZE with 5130. lia.
    + change RESAMPLER_FILTER_SIZE with 5130.
      destruct (Z_lt_le_dec i 5) as [Hlo|Hhi].
      * exists p. split; [lia|]. exists (4 - i). split; [lia|]. left. lia.
      * exists (512 - p). split; [lia|]. exists (i - 5). split; [lia|].
        right. change RESAMPLER_FILTER_SIZE with 5130. lia.
  - exfalso. unfold GenerateResamplerFilter in G. cbv zeta in G.
    destruct (GenerateKaiserTable_terminates fuel Hfuel) as [kaiser K].
    rewrite K in G. discriminate G.
Qed.

Lemma ResamplerFilter_symmetric_witness :
  exists s',
    SDL_SetupAudioResampler (fun x => x) 20
      (machine_at_start (fun _ => f32_zero) (fun _ => f32_zero)) = Some s' /\
    SDL_SetupAudioResampler (fun x => x) 20 s' = Some s' /\
    forall p i, 1 <= p <= 511 -> 0 <= i < 10 ->
      ResamplerFilter s' (p * 10 + i)
      = ResamplerFilter s' ((512 - p) * 10 + (9 - i)).
Proof.
  apply (ResamplerFilter_symmetric (fun x => x) 20
           (machine_at_start (fun _ => f32_zero) (fun _ => f32_zero)));
    [lia|reflexivity].
Defined.

(** ** Sanity checks on concrete inputs *)

Example SDL_GetResampleRate_48000_44100 :
  SDL_GetResampleRate 48000 44100 = 4674794335.
Proof. reflexivity. Qed.

Example SDL_GetResamplerOutputFrames_4410 :
  SDL_GetResamplerOutputFrames 4410 4674794335 0 = (4052, 1460870060).
Proof. reflexivity. Qed.

(** The centre tap of phase 0 is [1.0f] and its mirror image sits in the
    last row; the outer taps of row 0 are cleared. *)
Example GenerateResamplerFilter_centre_tap :
  option_map (fun bank => (bank 4, bank 5125, bank 5))
    (GenerateResamplerFilter (fun x => x) 20 ResamplerFilter_static)
  = Some (f32_one, f32_one, f32_zero).
Proof. vm_compute. reflexivity. Qed.

(** * Further properties of the planning arithmetic *)

(** X1: for positive [int] rates, [SDL_GetResampleRate] is the exact
    floor of [src_rate * 2^32 / dst_rate], it is positive (the last
    assertion of the function holds), and it is the identity step
    [2^32] exactly when the two rates are equal. *)
Theorem SDL_GetResampleRate_exact (src_rate dst_rate : Z) :
  0 < src_rate <= SDL_MAX_SINT32 -> 0 < dst_rate <= SDL_MAX_SINT32 ->
  let rate := SDL_GetResampleRate src_rate dst_rate in
  rate = (src_rate * 2 ^ 32) / dst_rate /\
  rate * dst_rate <= src_rate * 2 ^ 32 < (rate + 1) * dst_rate /\
  0 < rate /\
  (rate = 2 ^ 32 <-> src_rate = dst_rate).
Proof.
  intros Hs Hd. cbv zeta. unfold SDL_GetResampleRate.
  unfold SDL_MAX_SINT32 in *.
  rewrite Z.shiftl_mul_pow2 by lia.
  rewrite (Sint64_wrap_id (src_rate * 2 ^ 32))
    by (unfold in_Sint64, SDL_MIN_SINT64, SDL_MAX_SINT64; lia).
  rewrite Z.quot_div_nonneg by lia.
  pose proof (Z.div_mod (src_rate * 2 ^ 32) dst_rate ltac:(lia)) as Hdm.
  pose proof (Z.mod_pos_bound (src_rate * 2 ^ 32) dst_rate ltac:(lia)) as Hm.
  set (q := src_rate * 2 ^ 32 / dst_rate) in *.
  assert (Hq0 : 0 <= q) by (apply Z.div_pos; lia).
  assert (Hq1 : q <= src_rate * 2 ^ 32).
  { assert (q * 1 <= q * dst_rate) by (apply Z.mul_le_mono_nonneg_l; lia). lia. }
  rewrite (Sint64_wrap_id q)
    by (unfold in_Sint64, SDL_MIN_SINT64, SDL_MAX_SINT64; lia).
  split; [reflexivity|]. split; [lia|]. split.
  - assert (q <> 0) by (intros E; rewrite E in Hdm; lia). lia.
  - split; intros E.
    + rewrite E in Hdm. lia.
    + subst src_rate.
      assert (q = 2 ^ 32); [|assumption].
      nia.
Qed.

Lemma SDL_GetResampleRate_exact_witness :
  let rate := SDL_GetResampleRate 48000 44100 in
  rate = (48000 * 2 ^ 32) / 44100 /\
  rate * 44100 <= 48000 * 2 ^ 32 < (rate + 1) * 44100 /\
  0 < rate /\
  (rate = 2 ^ 32 <-> 48000 = 44100).
Proof.
  apply (SDL_GetResampleRate_exact 48000 44100); unfold SDL_MAX_SINT32; lia.
Defined.

(** X2: on 64-bit operands [ResamplerAdd] reports an overflow exactly
    when [b > 0] and [a + b] exceeds [SDL_MAX_SINT64], and then leaves
    [*ret] alone; otherwise it returns 0 and stores [a + b], exactly
    unless the sum lies below [SDL_MIN_SINT64], which is not checked. *)
Theorem ResamplerAdd_detects_overflow (a b ret : Z) :
  in_Sint64 a -> in_Sint64 b ->
  (ResamplerAdd a b ret = (-1, ret) /\ 0 < b /\ SDL_MAX_SINT64 < a + b) \/
  (fst (ResamplerAdd a b ret) = 0 /\
   a + b <= SDL_MAX_SINT64 /\
   (SDL_MIN_SINT64 <= a + b -> snd (ResamplerAdd a b ret) = a + b) /\
   (a + b < SDL_MIN_SINT64 -> snd (ResamplerAdd a b ret) = a + b + 2 ^ 64)).
Proof.
  intros Ha Hb. unfold ResamplerAdd.
  unfold in_Sint64, SDL_MIN_SINT64, SDL_MAX_SINT64 in *.
  destruct (Z.gtb_spec b 0) as [Hb0|Hb0];
    [destruct (Z.gtb_spec a (2 ^ 63 - 1 - b)) as [Hov|Hov]|];
    cbn [andb fst snd].
  - left. repeat split; lia.
  - right. split; [reflexivity|]. split; [lia|]. split; intros H.
    + apply Sint64_wrap_id. unfold in_Sint64, SDL_MIN_SINT64, SDL_MAX_SINT64. lia.
    + lia.
  - right. split; [reflexivity|]. split; [lia|]. split; intros H.
    + apply Sint64_wrap_id. unfold in_Sint64, SDL_MIN_SINT64, SDL_MAX_SINT64. lia.
    + unfold Sint64_wrap.
      replace (a + b + 2 ^ 63) with (a + b + 2 ^ 63 + 2 ^ 64 + (-1) * 2 ^ 64) by lia.
      rewrite Z.mod_add by lia. rewrite Z.mod_small; lia.
Qed.

Lemma ResamplerAdd_detects_overflow_witness :
  (ResamplerAdd SDL_MAX_SINT64 1 7 = (-1, 7) /\ 0 < 1 /\
   SDL_MAX_SINT64 < SDL_MAX_SINT64 + 1) \/
  (fst (ResamplerAdd SDL_MAX_SINT64 1 7) = 0 /\
   SDL_MAX_SINT64 + 1 <= SDL_MAX_SINT64 /\
   (SDL_MIN_SINT64 <= SDL_MAX_SINT64 + 1 ->
    snd (ResamplerAdd SDL_MAX_SINT64 1 7) = SDL_MAX_SINT64 + 1) /\
   (SDL_MAX_SINT64 + 1 < SDL_MIN_SINT64 ->
    snd (ResamplerAdd SDL_MAX_SINT64 1 7) = SDL_MAX_SINT64 + 1 + 2 ^ 64)).
Proof.
  apply (ResamplerAdd_detects_overflow SDL_MAX_SINT64 1 7);
    unfold in_Sint64, SDL_MIN_SINT64, SDL_MAX_SINT64; lia.
Defined.

(** X3: on 64-bit operands [ResamplerMul] reports an overflow exactly
    when [b > 0] and [a * b] exceeds [SDL_MAX_SINT64], and then leaves
    [*ret] alone; otherwise it returns 0 and stores [a * b], exactly
    whenever the product fits 64 bits (always so for [a >= 0] and
    [b > 0]). *)
Theorem ResamplerMul_detects_overflow (a b ret : Z) :
  in_Sint64 a -> in_Sint64 b ->
  (ResamplerMul a b ret = (-1, ret) /\ 0 < b /\ SDL_MAX_SINT64 < a * b) \/
  (fst (ResamplerMul a b ret) = 0 /\
   (0 < b -> a * b <= SDL_MAX_SINT64) /\
   (in_Sint64 (a * b) -> snd (ResamplerMul a b ret) = a * b) /\
   (0 <= a -> 0 < b -> snd (ResamplerMul a b ret) = a * b)).
Proof.
  intros Ha Hb.
  destruct (ResamplerMul_cases a b ret) as [E|E]; rewrite E; cbn [fst snd].
  - left. split; [reflexivity|].
    destruct (Z_lt_le_dec 0 b) as [Hb0|Hb0].
    + split; [assumption|].
      pose proof (ResamplerMul_status a b ret Hb0) as Hst. rewrite E in Hst.
      cbn [fst] in Hst.
      destruct (Z_le_gt_dec (a * b) SDL_MAX_SINT64) as [Hle|Hgt]; [|lia].
      apply Hst in Hle. discriminate Hle.
    + exfalso. unfold ResamplerMul in E.
      destruct (Z.gtb_spec b 0); [lia|]. cbn [andb] in E. discriminate E.
  - right. split; [reflexivity|].
    assert (Hpos : 0 < b -> a * b <= SDL_MAX_SINT64).
    { intros Hb0. apply (ResamplerMul_status a b ret Hb0). rewrite E. reflexivity. }
    split; [exact Hpos|]. split.
    + intros Hin. apply Sint64_wrap_id. exact Hin.
    + intros Ha0 Hb0. apply Sint64_wrap_id. specialize (Hpos Hb0).
      unfold in_Sint64, SDL_MIN_SINT64 in *. nia.
Qed.

Lemma ResamplerMul_detects_overflow_witness :
  (ResamplerMul (2 ^ 31) (2 ^ 32) 7 = (-1, 7) /\ 0 < 2 ^ 32 /\
   SDL_MAX_SINT64 < 2 ^ 31 * 2 ^ 32) \/
  (fst (ResamplerMul (2 ^ 31) (2 ^ 32) 7) = 0 /\
   (0 < 2 ^ 32 -> 2 ^ 31 * 2 ^ 32 <= SDL_MAX_SINT64) /\
   (in_Sint64 (2 ^ 31 * 2 ^ 32) ->
    snd (ResamplerMul (2 ^ 31) (2 ^ 32) 7) = 2 ^ 31 * 2 ^ 32) /\
   (0 <= 2 ^ 31 -> 0 < 2 ^ 32 ->
    snd (ResamplerMul (2 ^ 31) (2 ^ 32) 7) = 2 ^ 31 * 2 ^ 32)).
Proof.
  apply (ResamplerMul_detects_overflow (2 ^ 31) (2 ^ 32) 7);
    unfold in_Sint64, SDL_MIN_SINT64, SDL_MAX_SINT64; lia.
Defined.

(** Output planning does not saturate for a 32-bit input count and an
    offset whose exact [input_offset] fits. *)
Lemma OutputFrames_steps_false (M offset : Z) :
  0 <= M <= SDL_MAX_SINT32 -> in_Sint64 offset -> SDL_MIN_SINT64 < offset ->
  M * 2 ^ 32 - offset <= SDL_MAX_SINT64 ->
  fst (OutputFrames_steps M offset) = false.
Proof.
  intros HM Hoff Hmin Hfit.
  destruct (OutputFrames_input_offset_cases M offset) as [[Hs _]|[Hs _]];
    [|exact Hs].
  exfalso. unfold OutputFrames_steps in Hs.
  pose proof (ResamplerMul_status M 0x100000000 0 ltac:(lia)) as HMs.
  destruct (ResamplerMul_cases M 0x100000000 0) as [E|E]; rewrite E in *;
    cbn [fst snd] in *.
  - assert (-1 = 0); [|discriminate].
    apply HMs. unfold SDL_MAX_SINT32, SDL_MAX_SINT64 in *. lia.
  - change (negb (0 =? 0)) with false in Hs. cbv iota in Hs.
    set (a := Sint64_wrap (M * 4294967296)) in *.
    pose proof (ResamplerAdd_status a (Sint64_wrap (- offset)) a) as HAs.
    destruct (ResamplerAdd_cases a (Sint64_wrap (- offset)) a) as [F|F];
      rewrite F in *; cbn [fst snd] in *; [|discriminate Hs].
    assert (-1 = 0); [|discriminate].
    apply HAs. right. subst a.
    rewrite !Sint64_wrap_id;
      unfold in_Sint64, SDL_MIN_SINT32, SDL_MAX_SINT32, SDL_MIN_SINT64,
        SDL_MAX_SINT64 in *; lia.
Qed.

(** X4: the planned input count is the least one.  For [N >= 1]
    outputs, an offset in [[-2^32, rate)] and a plan that does not
    saturate, one input frame fewer than
    [SDL_GetResamplerInputFrames(N, rate, offset)] gives fewer than [N]
    outputs. *)
Theorem InputFrames_minimal (N rate offset : Z) :
  in_Sint64 N -> in_Sint64 rate -> 0 < rate -> 1 <= N ->
  - 2 ^ 32 <= offset < rate ->
  fst (InputFrames_steps N rate offset) = false ->
  let M := SDL_GetResamplerInputFrames N rate offset in
  1 <= M ->
  fst (SDL_GetResamplerOutputFrames (M - 1) rate offset) < N.
Proof.
  intros HN Hrate Hr H1 Hoff Hs M HM1.
  assert (Hoffin : in_Sint64 offset).
  { unfold in_Sint64, SDL_MIN_SINT64, SDL_MAX_SINT64 in *. lia. }
  assert (Hb : in_Sint64 (offset - rate + 2 ^ 32)).
  { unfold in_Sint64, SDL_MIN_SINT64, SDL_MAX_SINT64 in *. lia. }
  destruct (InputFrames_covers N rate offset HN Hrate Hoffin H1 Hr Hb Hs)
    as (_ & Hup & _). fold M in Hup.
  assert (0 <= (N - 1) * rate) by nia.
  specialize (Hup ltac:(lia)).
  pose proof (InputFrames_bounds N rate offset) as HMb. fold M in HMb.
  assert (Hns : fst (OutputFrames_steps (M - 1) offset) = false).
  { apply OutputFrames_steps_false; try assumption;
      unfold SDL_MAX_SINT32, SDL_MIN_SINT64, SDL_MAX_SINT64 in *; lia. }
  assert (Hio : OutputFrames_input_offset (M - 1) offset
                = (M - 1) * 2 ^ 32 - offset).
  { apply OutputFrames_input_offset_exact; try assumption; try lia.
    unfold SDL_MIN_SINT64. lia. }
  destruct (OutputFrames_of_input_offset (M - 1) rate offset Hrate Hr)
    as [Hle Hgt].
  rewrite Hio in Hle, Hgt.
  destruct (Z_le_gt_dec ((M - 1) * 2 ^ 32 - offset) 0) as [H0|H0].
  - destruct (Hle H0) as [-> _]. lia.
  - destruct (Hgt ltac:(lia)) as (-> & _).
    assert (((M - 1) * 2 ^ 32 - offset - 1) / rate < N - 1).
    { apply Z.div_lt_upper_bound; lia. }
    lia.
Qed.

Lemma InputFrames_minimal_witness :
  fst (SDL_GetResamplerOutputFrames
         (SDL_GetResamplerInputFrames 4050 4674794335 17 - 1) 4674794335 17)
  < 4050.
Proof.
  apply (InputFrames_minimal 4050 4674794335 17);
    unfold in_Sint64, SDL_MIN_SINT64, SDL_MAX_SINT64; try lia;
    try reflexivity.
  vm_compute. discriminate.
Defined.

(** [input_offset] grows with the input count. *)
Lemma OutputFrames_input_offset_mono (M M' offset : Z) :
  0 <= M <= M' ->
  OutputFrames_input_offset M offset <= OutputFrames_input_offset M' offset.
Proof.
  intros HM.
  pose proof (OutputFrames_input_offset_range M offset) as R.
  destruct (OutputFrames_input_offset_cases M' offset)
    as [[_ ->]|(_ & E' & Hmul' & Hadd')].
  { unfold in_Sint64 in R. lia. }
  destruct (OutputFrames_input_offset_cases M offset)
    as [[Hs _]|(_ & E & Hmul & Hadd)].
  - exfalso. unfold OutputFrames_steps in Hs.
    pose proof (ResamplerMul_status M 0x100000000 0 ltac:(lia)) as HMs.
    destruct (ResamplerMul_cases M 0x100000000 0) as [F|F]; rewrite F in *;
      cbn [fst snd] in *.
    + assert (-1 = 0); [|discriminate]. apply HMs.
      change 4294967296 with (2 ^ 32). lia.
    + change (negb (0 =? 0)) with false in Hs. cbv iota in Hs.
      set (a := Sint64_wrap (M * 4294967296)) in *.
      pose proof (ResamplerAdd_status a (Sint64_wrap (- offset)) a) as HAs.
      destruct (ResamplerAdd_cases a (Sint64_wrap (- offset)) a) as [G|G];
        rewrite G in *; cbn [fst snd] in *; [|discriminate Hs].
      assert (-1 = 0); [|discriminate]. apply HAs.
      destruct Hadd' as [Hadd'|Hadd']; [left; exact Hadd'|right].
      subst a. change 4294967296 with (2 ^ 32).
      rewrite (Sint64_wrap_id (M * 2 ^ 32))
        by (unfold in_Sint64, SDL_MIN_SINT64, SDL_MAX_SINT64 in *; lia).
      rewrite (Sint64_wrap_id (M' * 2 ^ 32)) in Hadd'
        by (unfold in_Sint64, SDL_MIN_SINT64, SDL_MAX_SINT64 in *; lia).
      lia.
  - rewrite E, E', !Z.shiftl_mul_pow2 by lia.
    pose proof (Sint64_wrap_range (- offset)) as Rb.
    rewrite (Sint64_wrap_id (M * 2 ^ 32)) in Hadd
      by (unfold in_Sint64, SDL_MIN_SINT64, SDL_MAX_SINT64 in *; lia).
    rewrite (Sint64_wrap_id (M' * 2 ^ 32)) in Hadd'
      by (unfold in_Sint64, SDL_MIN_SINT64, SDL_MAX_SINT64 in *; lia).
    replace (M * 2 ^ 32 - offset) with (M * 2 ^ 32 + - offset) by lia.
    replace (M' * 2 ^ 32 - offset) with (M' * 2 ^ 32 + - offset) by lia.
    rewrite <- (Sint64_wrap_add_r (M * 2 ^ 32) (- offset)).
    rewrite <- (Sint64_wrap_add_r (M' * 2 ^ 32) (- offset)).
    set (b := Sint64_wrap (- offset)) in *.
    rewrite (Sint64_wrap_id (M * 2 ^ 32 + b))
      by (unfold in_Sint64, SDL_MIN_SINT64, SDL_MAX_SINT64 in *; lia).
    rewrite (Sint64_wrap_id (M' * 2 ^ 32 + b))
      by (unfold in_Sint64, SDL_MIN_SINT64, SDL_MAX_SINT64 in *; lia).
    lia.
Qed.

(** X5: more input never plans fewer outputs.  For [rate > 0] and
    [0 <= M <= M'], [SDL_GetResamplerOutputFrames] returns at [M'] at
    least what it returns at [M], for every offset and also when a step
    saturates. *)
Theorem OutputFrames_monotone (M M' rate offset : Z) :
  in_Sint64 rate -> 0 < rate -> 0 <= M <= M' ->
  fst (SDL_GetResamplerOutputFrames M rate offset)
  <= fst (SDL_GetResamplerOutputFrames M' rate offset).
Proof.
  intros Hrate Hr HM.
  pose proof (OutputFrames_input_offset_mono M M' offset HM) as Hio.
  destruct (OutputFrames_of_input_offset M rate offset Hrate Hr) as [Hle Hgt].
  destruct (OutputFrames_of_input_offset M' rate offset Hrate Hr) as [_ Hgt'].
  destruct (Z_le_gt_dec (OutputFrames_input_offset M offset) 0) as [H0|H0].
  - destruct (Hle H0) as [-> _]. apply OutputFrames_nonneg; assumption.
  - destruct (Hgt ltac:(lia)) as (-> & _).
    destruct (Hgt' ltac:(lia)) as (-> & _).
    apply Z.add_le_mono_r. apply Z.div_le_mono; lia.
Qed.

Lemma OutputFrames_monotone_witness :
  fst (SDL_GetResamplerOutputFrames 100 4674794335 17)
  <= fst (SDL_GetResamplerOutputFrames (2 ^ 40) 4674794335 17).
Proof.
  apply (OutputFrames_monotone 100 (2 ^ 40) 4674794335 17);
    unfold in_Sint64, SDL_MIN_SINT64, SDL_MAX_SINT64; lia.
Defined.

(** X6: more output never plans less input.  For [rate > 0] and
    [0 <= N <= N'], [SDL_GetResamplerInputFrames] returns at [N'] at
    least what it returns at [N], also when a step saturates. *)
Theorem InputFrames_monotone (N N' rate offset : Z) :
  in_Sint64 N' -> 0 < rate -> 0 <= N <= N' ->
  SDL_GetResamplerInputFrames N rate offset
  <= SDL_GetResamplerInputFrames N' rate offset.
Proof.
  intros HN' Hr HN.
  pose proof (InputFrames_bounds N rate offset) as HB.
  destruct (fst (InputFrames_steps N' rate offset)) eqn:Hs'.
  { rewrite (InputFrames_saturated N' rate offset Hs').
    unfold SDL_MAX_SINT32. lia. }
  destruct (InputFrames_steps_ok N' rate offset Hr Hs') as (Hm' & Ha' & Hv').
  set (b := Sint64_wrap (offset - rate + 2 ^ 32)) in *.
  pose proof (Sint64_wrap_range (offset - rate + 2 ^ 32)) as Rb. fold b in Rb.
  assert (HNr : 0 <= N * rate <= N' * rate) by nia.
  rewrite (Sint64_wrap_id (N' * rate)) in Ha', Hv'
    by (unfold in_Sint64, SDL_MIN_SINT64, SDL_MAX_SINT64 in *; lia).
  assert (Hs : fst (InputFrames_steps N rate offset) = false).
  { unfold InputFrames_steps. rewrite InputFrames_addend. fold b.
    pose proof (ResamplerMul_status N rate 0 Hr) as HMs.
    destruct (ResamplerMul_cases N rate 0) as [F|F]; rewrite F in *;
      cbn [fst snd] in *.
    - assert (-1 = 0); [|discriminate]. apply HMs. lia.
    - change (negb (0 =? 0)) with false. cbv iota.
      set (a := Sint64_wrap (N * rate)).
      pose proof (ResamplerAdd_status a b a) as HAs.
      destruct (ResamplerAdd_cases a b a) as [G|G]; rewrite G in *;
        cbn [fst snd] in *; [|reflexivity].
      assert (-1 = 0); [|discriminate]. apply HAs.
      destruct Ha' as [Ha'|Ha']; [left; exact Ha'|right].
      subst a. rewrite Sint64_wrap_id
        by (unfold in_Sint64, SDL_MIN_SINT64, SDL_MAX_SINT64 in *; lia).
      lia. }
  destruct (InputFrames_steps_ok N rate offset Hr Hs) as (Hm & Ha & Hv).
  fold b in Ha, Hv.
  rewrite (Sint64_wrap_id (N * rate)) in Ha, Hv
    by (unfold in_Sint64, SDL_MIN_SINT64, SDL_MAX_SINT64 in *; lia).
  assert (Hin : in_Sint64 (N * rate + b))
    by (unfold in_Sint64, SDL_MIN_SINT64, SDL_MAX_SINT64 in *; lia).
  assert (Hin' : in_Sint64 (N' * rate + b))
    by (unfold in_Sint64, SDL_MIN_SINT64, SDL_MAX_SINT64 in *; lia).
  rewrite (Sint64_wrap_id _ Hin) in Hv. rewrite (Sint64_wrap_id _ Hin') in Hv'.
  destruct (InputFrames_not_saturated N rate offset Hs) as [E|E];
    [|rewrite Hv in E; contradiction].
  destruct (InputFrames_not_saturated N' rate offset Hs') as [E'|E'];
    [|rewrite Hv' in E'; contradiction].
  rewrite E, E', Hv, Hv', !Z.shiftr_div_pow2 by lia.
  apply Z.max_le_compat_l. apply Z.div_le_mono; lia.
Qed.

Lemma InputFrames_monotone_witness :
  SDL_GetResamplerInputFrames 10 4674794335 17
  <= SDL_GetResamplerInputFrames (2 ^ 40) 4674794335 17.
Proof.
  apply (InputFrames_monotone 10 (2 ^ 40) 4674794335 17);
    unfold in_Sint64, SDL_MIN_SINT64, SDL_MAX_SINT64; lia.
Defined.

(** * Further properties of the driver *)

(** One iteration, in terms of the quantities above. *)
Lemma SDL_ResampleAudio_body_unfold (f : ResampleFrameFunc)
  (chans src inframes rate i srcpos dst : Z) :
  SDL_ResampleAudio_body f chans
    (src - Sint32_wrap ((RESAMPLER_ZERO_CROSSINGS - 1) * chans))
    inframes rate i (srcpos, dst)
  = (SDL_assert ((driver_srcindex srcpos >=? -1)
                 && (driver_srcindex srcpos <? inframes)) ;;;
     call_ResampleFrameFunc f (driver_frame chans src srcpos) dst
       (driver_filter srcpos) (driver_interp srcpos) chans ;;;
     ret (Sint64_wrap (srcpos + rate), dst + chans)).
Proof. reflexivity. Qed.

(** The offset the driver returns, as one 64-bit value. *)
Lemma SDL_ResampleAudio_offset_value
  (chans src inframes dst outframes rate offset : Z) (m : machine) :
  0 <= outframes ->
  fst (SDL_ResampleAudio chans src inframes dst outframes rate offset m)
  = Sint64_wrap (offset + outframes * rate - inframes * 2 ^ 32).
Proof.
  intros HN.
  unfold SDL_ResampleAudio, bind, load_ResampleFrame, SDL_assert, ret.
  match goal with
  | |- context [for_loop ?n 0 (SDL_ResampleAudio_body ?f ?c ?s ?M ?r) ?st ?m1] =>
      pose proof (SDL_ResampleAudio_loop_srcpos f c s M r offset dst n m1)
        as Hloop;
      destruct (for_loop n 0 (SDL_ResampleAudio_body f c s M r) st m1)
        as [[srcpos d] m2]
  end.
  cbn [fst snd] in *.
  rewrite Sint64_wrap_sub_r, Z.shiftl_mul_pow2 by lia.
  destruct Hloop as [E|[E0 E]]; inversion E; subst.
  - rewrite Z2Nat.id by lia. apply Sint64_wrap_sub_l.
  - assert (outframes = 0) by lia. subst outframes. f_equal. lia.
Qed.

(** The whole effect of a call on the machine: the statics and the
    input are kept, the output frame [k] holds the kernel's sums for
    the position of output [k], and nothing else is written. *)
Lemma SDL_ResampleAudio_run
  (chans src inframes dst N rate offset : Z) (m : machine) :
  1 <= chans <= 8 ->
  kernel_supports (ResampleFrame m (chans - 1)) chans ->
  in_Sint64 offset -> 0 <= N ->
  let m' := snd (SDL_ResampleAudio chans src inframes dst N rate offset m) in
  extends (fun _ => True) m m' /\
  (forall k c, 0 <= k < N -> 0 <= c < chans ->
     output m' (dst + (k * chans + c))
     = driver_sample m chans src (Sint64_wrap (offset + k * rate)) c) /\
  (forall p, ~ (dst <= p < dst + N * chans) -> output m' p = output m p).
Proof.
  intros Hch Hsup Hoff HN. cbv zeta.
  unfold SDL_ResampleAudio, bind, load_ResampleFrame, SDL_assert, ret.
  rewrite (Sint32_wrap_id (chans - 1))
    by (unfold in_Sint32, SDL_MIN_SINT32, SDL_MAX_SINT32; lia).
  set (f := ResampleFrame m (chans - 1)) in *.
  set (m1 := log (Assert (rate >? 0)) m).
  set (Inv := fun (n : nat) (st : (Z * Z) * machine) =>
    fst st = (Sint64_wrap (offset + Z.of_nat n * rate),
              dst + Z.of_nat n * chans) /\
    extends (fun _ => True) m (snd st) /\
    (forall k c, 0 <= k < Z.of_nat n -> 0 <= c < chans ->
       output (snd st) (dst + (k * chans + c))
       = driver_sample m chans src (Sint64_wrap (offset + k * rate)) c) /\
    (forall p, ~ (dst <= p < dst + Z.of_nat n * chans) ->
               output (snd st) p = output m p)).
  enough (HI : Inv (Z.to_nat N)
                 (for_loop (Z.to_nat N) 0
                    (SDL_ResampleAudio_body f chans
                       (src - Sint32_wrap ((RESAMPLER_ZERO_CROSSINGS - 1) * chans))
                       inframes rate) (offset, dst) m1)).
  { destruct (for_loop (Z.to_nat N) 0 _ (offset, dst) m1) as [st m2].
    subst Inv. cbv beta in HI. cbn [fst snd] in *.
    rewrite Z2Nat.id in HI by lia. destruct HI as (_ & He & Ho & Hr).
    repeat split; try apply He; assumption. }
  unfold for_loop. apply for_range_inv; subst Inv; cbv beta.
  - cbn [fst snd]. split; [|split; [|split]].
    + f_equal; [|lia]. symmetry.
      replace (offset + Z.of_nat 0 * rate) with offset by lia.
      apply Sint64_wrap_id. exact Hoff.
    + subst m1. apply extends_log. exact I.
    + intros k c Hk. lia.
    + intros p _. reflexivity.
  - intros n [[srcpos d] s] Hn (Hst & He & Ho & Hr). cbn [fst snd] in *.
    inversion Hst; subst srcpos d; clear Hst.
    rewrite Z.add_0_l, SDL_ResampleAudio_body_unfold.
    unfold bind, SDL_assert, ret.
    set (p := Sint64_wrap (offset + Z.of_nat n * rate)).
    set (s1 := log (Assert _) s).
    assert (He1 : extends (fun _ => True) m s1).
    { eapply extends_trans; [exact He|]. apply extends_log. exact I. }
    destruct (call_ResampleFrameFunc_run f (driver_frame chans src p)
                (dst + Z.of_nat n * chans) (driver_filter p) (driver_interp p)
                chans s1) as (Hk1 & Hk2 & Hk3); try assumption; try lia.
    { unfold SDL_MAX_SINT32. lia. }
    destruct (call_ResampleFrameFunc f (driver_frame chans src p)
                (dst + Z.of_nat n * chans) (driver_filter p) (driver_interp p)
                chans s1) as [u s2].
    cbn [fst snd] in *.
    assert (Hin : input s1 = input m) by apply He1.
    assert (Hfl : ResamplerFilter s1 = ResamplerFilter m) by apply He1.
    split; [|split; [|split]].
    + f_equal; [|lia]. subst p. rewrite Sint64_wrap_add_l. f_equal. lia.
    + eapply extends_trans; [exact He1|].
      eapply extends_weaken; [|exact Hk1]. intros; exact I.
    + intros k c Hk Hc.
      destruct (Z.eq_dec k (Z.of_nat n)) as [->|Hne].
      * replace (dst + (Z.of_nat n * chans + c))
          with (dst + Z.of_nat n * chans + c) by lia.
        rewrite (Hk2 c Hc). unfold driver_sample, contract_output.
        change (Z.to_nat RESAMPLER_SAMPLES_PER_FRAME) with 10%nat.
        fold p. rewrite Hin. apply fir_sum_ext. intros i Hi. split.
        -- reflexivity.
        -- rewrite kernel_scale_contract, Hfl. reflexivity.
      * assert (k * chans + c < Z.of_nat n * chans) by nia.
        assert (0 <= k * chans) by nia.
        rewrite Hk3 by lia.
        change (output s1) with (output s). apply Ho; lia.
    + intros q Hq.
      assert (0 <= Z.of_nat n * chans) by nia.
      rewrite Hk3 by lia.
      change (output s1) with (output s). apply Hr. lia.
Qed.

(** X7: every sample of the [N] output frames is the kernel contract
    at the position of its frame.  For [chans] in [[1, 8]] with its
    kernel in the dispatch table, output [k] (of [0 .. N-1]), channel
    [c], holds the sum of the ten taps of the window at
    [driver_frame], blended from the rows at [driver_filter] with the
    weight [driver_interp], all taken at the 64-bit position
    [offset + k * rate]. *)
Theorem SDL_ResampleAudio_output
  (chans src inframes dst N rate offset : Z) (m : machine) :
  1 <= chans <= 8 ->
  kernel_supports (ResampleFrame m (chans - 1)) chans ->
  in_Sint64 offset -> 0 <= N ->
  let m' := snd (SDL_ResampleAudio chans src inframes dst N rate offset m) in
  forall k c, 0 <= k < N -> 0 <= c < chans ->
    output m' (dst + (k * chans + c))
    = driver_sample m chans src (Sint64_wrap (offset + k * rate)) c.
Proof.
  intros Hch Hsup Hoff HN.
  apply (SDL_ResampleAudio_run chans src inframes dst N rate offset m);
    assumption.
Qed.

Lemma SDL_ResampleAudio_output_witness :
  output (snd (SDL_ResampleAudio 2 0 3 0 3 (2 ^ 31) 0 machine_with_dispatch))
    (0 + (1 * 2 + 1))
  = driver_sample machine_with_dispatch 2 0 (Sint64_wrap (0 + 1 * 2 ^ 31)) 1.
Proof.
  refine (SDL_ResampleAudio_output 2 0 3 0 3 (2 ^ 31) 0 machine_with_dispatch
            _ _ _ _ 1 1 _ _);
    try reflexivity;
    unfold in_Sint64, SDL_MIN_SINT64, SDL_MAX_SINT64; lia.
Defined.

(** X8: a call writes nothing but its [N] output frames.  Outside
    [dst .. dst + N*chans - 1] the output buffer is as before, and the
    input buffer, the filter bank, the dispatch table and the setup
    flag are unchanged. *)
Theorem SDL_ResampleAudio_frame
  (chans src inframes dst N rate offset : Z) (m : machine) :
  1 <= chans <= 8 ->
  kernel_supports (ResampleFrame m (chans - 1)) chans ->
  in_Sint64 offset -> 0 <= N ->
  let m' := snd (SDL_ResampleAudio chans src inframes dst N rate offset m) in
  (forall p, ~ (dst <= p < dst + N * chans) -> output m' p = output m p) /\
  input m' = input m /\
  ResamplerFilter m' = ResamplerFilter m /\
  ResampleFrame m' = ResampleFrame m /\
  setup m' = setup m.
Proof.
  intros Hch Hsup Hoff HN. cbv zeta.
  destruct (SDL_ResampleAudio_run chans src inframes dst N rate offset m)
    as ((E1 & E2 & E3 & E4 & _) & _ & Hr); try assumption.
  repeat split; assumption.
Qed.

Lemma SDL_ResampleAudio_frame_witness :
  let m' := snd (SDL_ResampleAudio 2 0 3 0 3 (2 ^ 31) 0 machine_with_dispatch) in
  (forall p, ~ (0 <= p < 0 + 3 * 2) ->
             output m' p = output machine_with_dispatch p) /\
  input m' = input machine_with_dispatch /\
  ResamplerFilter m' = ResamplerFilter machine_with_dispatch /\
  ResampleFrame m' = ResampleFrame machine_with_dispatch /\
  setup m' = setup machine_with_dispatch.
Proof.
  apply (SDL_ResampleAudio_frame 2 0 3 0 3 (2 ^ 31) 0 machine_with_dispatch);
    try reflexivity;
    unfold in_Sint64, SDL_MIN_SINT64, SDL_MAX_SINT64; lia.
Defined.

Lemma land_low_bits (a n : Z) : 0 <= n -> Z.land a (2 ^ n - 1) = a mod 2 ^ n.
Proof.
  intros Hn. rewrite <- Z.land_ones by assumption. f_equal.
  rewrite Z.ones_equiv. lia.
Qed.

(** X9: the driver decodes a 32.32 position without loss, and the row
    pair it selects is inside the bank.  For a 64-bit [srcpos],
    [srcindex] is its floor by [2^32], the fraction splits into a row
    in [[0, 512)] and a sub-phase in [[0, 2^23)], the three parts give
    [srcpos] back, and the twenty taps at [driver_filter] are entries
    of [ResamplerFilter]. *)
Theorem driver_position_decode (srcpos : Z) :
  in_Sint64 srcpos ->
  let sub := Z.land (driver_srcfraction srcpos)
               (RESAMPLER_FILTER_INTERP_RANGE - 1) in
  driver_srcindex srcpos = srcpos / 2 ^ 32 /\
  driver_srcfraction srcpos = srcpos mod 2 ^ 32 /\
  driver_filter srcpos
  = RESAMPLER_SAMPLES_PER_FRAME * (driver_srcfraction srcpos / 2 ^ 23) /\
  0 <= driver_filter srcpos /\
  driver_filter srcpos + 2 * RESAMPLER_SAMPLES_PER_FRAME
  <= RESAMPLER_FILTER_SIZE /\
  0 <= sub < 2 ^ 23 /\
  srcpos = driver_srcindex srcpos * 2 ^ 32
           + (driver_filter srcpos / RESAMPLER_SAMPLES_PER_FRAME) * 2 ^ 23
           + sub.
Proof.
  intros Hp. cbv zeta.
  assert (Hidx : driver_srcindex srcpos = srcpos / 2 ^ 32).
  { unfold driver_srcindex.
    pose proof (shiftr_32_in_Sint32 srcpos Hp) as R.
    rewrite (Sint32_wrap_id _ R), (Sint32_wrap_id _ R).
    apply Z.shiftr_div_pow2. lia. }
  assert (Hfr : driver_srcfraction srcpos = srcpos mod 2 ^ 32).
  { unfold driver_srcfraction, Uint32_wrap.
    change 0xFFFFFFFF with (2 ^ 32 - 1).
    rewrite land_low_bits by lia. apply Z.mod_mod. lia. }
  pose proof (Z.mod_pos_bound srcpos (2 ^ 32) ltac:(lia)) as Hfb.
  pose proof (Z.div_mod srcpos (2 ^ 32) ltac:(lia)) as Hdm.
  set (frac := driver_srcfraction srcpos) in *.
  pose proof (Z.div_mod frac (2 ^ 23) ltac:(lia)) as Hrow.
  pose proof (Z.mod_pos_bound frac (2 ^ 23) ltac:(lia)) as Hsub.
  assert (Hrb : 0 <= frac / 2 ^ 23 < 512).
  { split; [apply Z.div_pos; lia|apply Z.div_lt_upper_bound; lia]. }
  assert (Hfl : driver_filter srcpos
                = RESAMPLER_SAMPLES_PER_FRAME * (frac / 2 ^ 23)).
  { unfold driver_filter, Uint32_wrap. fold frac.
    change RESAMPLER_FILTER_INTERP_BITS with 23.
    change RESAMPLER_SAMPLES_PER_FRAME with 10.
    rewrite Z.shiftr_div_pow2 by lia.
    rewrite Z.mod_small by lia. lia. }
  change (RESAMPLER_FILTER_INTERP_RANGE - 1) with (2 ^ 23 - 1).
  rewrite land_low_bits by lia.
  rewrite Hfl, Hidx.
  change RESAMPLER_SAMPLES_PER_FRAME with 10.
  change RESAMPLER_FILTER_SIZE with 5130.
  replace (10 * (frac / 2 ^ 23) / 10) with (frac / 2 ^ 23)
    by (rewrite Z.mul_comm, Z.div_mul; lia).
  repeat split; try lia.
Qed.

Lemma driver_position_decode_witness :
  driver_filter (5 * 2 ^ 32 + 3 * 2 ^ 23 + 77)
  = RESAMPLER_SAMPLES_PER_FRAME
    * (driver_srcfraction (5 * 2 ^ 32 + 3 * 2 ^ 23 + 77) / 2 ^ 23).
Proof.
  refine (proj1 (proj2 (proj2
    (driver_position_decode (5 * 2 ^ 32 + 3 * 2 ^ 23 + 77) _)))).
  unfold in_Sint64, SDL_MIN_SINT64, SDL_MAX_SINT64. lia.
Defined.

Lemma driver_srcindex_floor (srcpos : Z) :
  in_Sint64 srcpos -> driver_srcindex srcpos = srcpos / 2 ^ 32.
Proof.
  intros Hp. unfold driver_srcindex.
  pose proof (shiftr_32_in_Sint32 srcpos Hp) as R.
  rewrite (Sint32_wrap_id _ R), (Sint32_wrap_id _ R).
  apply Z.shiftr_div_pow2. lia.
Qed.

Lemma driver_srcfraction_mod (srcpos : Z) :
  driver_srcfraction srcpos = srcpos mod 2 ^ 32.
Proof.
  unfold driver_srcfraction, Uint32_wrap.
  change 0xFFFFFFFF with (2 ^ 32 - 1).
  rewrite land_low_bits by lia. apply Z.mod_mod. lia.
Qed.

(** Moving the origin by [M] whole frames changes neither the row, the
    weight nor the window: the same samples are read through a pointer
    advanced by [M] frames. *)
Lemma driver_shift_origin (chans src M lim srcpos : Z) :
  1 <= chans -> 0 <= M <= lim -> (lim + 5) * chans <= SDL_MAX_SINT32 ->
  - 2 ^ 32 <= srcpos < lim * 2 ^ 32 ->
  driver_filter (srcpos - M * 2 ^ 32) = driver_filter srcpos /\
  driver_interp (srcpos - M * 2 ^ 32) = driver_interp srcpos /\
  driver_frame chans (src + M * chans) (srcpos - M * 2 ^ 32)
  = driver_frame chans src srcpos.
Proof.
  intros Hch HM Hmax Hp.
  assert (Hlim : lim <= SDL_MAX_SINT32) by (unfold SDL_MAX_SINT32 in *; nia).
  assert (Hfr : driver_srcfraction (srcpos - M * 2 ^ 32)
                = driver_srcfraction srcpos).
  { rewrite !driver_srcfraction_mod.
    replace (srcpos - M * 2 ^ 32) with (srcpos + (- M) * 2 ^ 32) by lia.
    apply Z.mod_add. lia. }
  split; [unfold driver_filter; now rewrite Hfr|].
  split; [unfold driver_interp; now rewrite Hfr|].
  unfold driver_frame.
  rewrite !driver_srcindex_floor
    by (unfold in_Sint64, SDL_MIN_SINT64, SDL_MAX_SINT64, SDL_MAX_SINT32 in *;
        lia).
  replace (srcpos - M * 2 ^ 32) with (srcpos + (- M) * 2 ^ 32) by lia.
  rewrite Z.div_add by lia.
  pose proof (Z.div_mod srcpos (2 ^ 32) ltac:(lia)) as Hd.
  pose proof (Z.mod_pos_bound srcpos (2 ^ 32) ltac:(lia)) as Hm.
  set (idx := srcpos / 2 ^ 32) in *.
  assert (Hidx : -1 <= idx < lim) by lia.
  assert (- chans <= idx * chans <= lim * chans) by nia.
  assert (- (M + 1) * chans <= (idx + - M) * chans <= lim * chans) by nia.
  assert (0 <= M * chans <= lim * chans) by nia.
  rewrite (Sint32_wrap_id (idx * chans))
    by (unfold in_Sint32, SDL_MIN_SINT32, SDL_MAX_SINT32 in *; lia).
  rewrite (Sint32_wrap_id ((idx + - M) * chans))
    by (unfold in_Sint32, SDL_MIN_SINT32, SDL_MAX_SINT32 in *; lia).
  lia.
Qed.

(** X10: resampling in two chunks gives the same samples, bit for bit,
    and the same final offset as one call.  The second call continues
    at the input pointer advanced by the [M1] frames consumed and at the
    output pointer advanced by the [N1] frames produced, with the offset
    the first call stored; the positions of its outputs are assumed to
    lie inside the combined input, as the safety of the single call
    requires. *)
Theorem SDL_ResampleAudio_chunk_invariance
  (chans src dst M1 N1 M2 N2 rate offset : Z) (m : machine) :
  1 <= chans <= 8 ->
  kernel_supports (ResampleFrame m (chans - 1)) chans ->
  in_Sint64 offset ->
  0 <= N1 -> 0 <= N2 -> 0 <= M1 -> 0 <= M2 ->
  (M1 + M2 + 5) * chans <= SDL_MAX_SINT32 ->
  (forall k, N1 <= k < N1 + N2 ->
             - 2 ^ 32 <= offset + k * rate < (M1 + M2) * 2 ^ 32) ->
  let r1 := SDL_ResampleAudio chans src M1 dst N1 rate offset m in
  let r2 := SDL_ResampleAudio chans (src + M1 * chans) M2
              (dst + N1 * chans) N2 rate (fst r1) (snd r1) in
  let r := SDL_ResampleAudio chans src (M1 + M2) dst (N1 + N2) rate offset m in
  fst r2 = fst r /\
  forall p, output (snd r2) p = output (snd r) p.
Proof.
  intros Hch Hsup Hoff HN1 HN2 HM1 HM2 Hmax Hpos. cbv zeta.
  set (r1 := SDL_ResampleAudio chans src M1 dst N1 rate offset m).
  assert (Hoff1 : fst r1 = Sint64_wrap (offset + N1 * rate - M1 * 2 ^ 32)).
  { apply SDL_ResampleAudio_offset_value. exact HN1. }
  destruct (SDL_ResampleAudio_run chans src M1 dst N1 rate offset m)
    as (He1 & Ho1 & Hr1); try assumption.
  fold r1 in He1, Ho1, Hr1.
  assert (Hin1 : input (snd r1) = input m) by apply He1.
  assert (Hfl1 : ResamplerFilter (snd r1) = ResamplerFilter m) by apply He1.
  assert (Htb1 : ResampleFrame (snd r1) = ResampleFrame m) by apply He1.
  assert (Hoffin1 : in_Sint64 (fst r1)).
  { rewrite Hoff1. apply Sint64_wrap_range. }
  destruct (SDL_ResampleAudio_run chans (src + M1 * chans) M2
              (dst + N1 * chans) N2 rate (fst r1) (snd r1))
    as (_ & Ho2 & Hr2); try assumption.
  { rewrite Htb1. exact Hsup. }
  destruct (SDL_ResampleAudio_run chans src (M1 + M2) dst (N1 + N2) rate
              offset m) as (_ & Ho & Hr); try assumption; try lia.
  split.
  - rewrite !SDL_ResampleAudio_offset_value by lia.
    rewrite Hoff1.
    rewrite <- Z.add_sub_assoc, Sint64_wrap_add_l. f_equal. lia.
  - intros p.
    destruct (Z_lt_le_dec p dst) as [Hlo|Hlo].
    { rewrite Hr2 by nia. rewrite Hr1 by nia. rewrite Hr by nia. reflexivity. }
    destruct (Z_lt_le_dec p (dst + (N1 + N2) * chans)) as [Hhi|Hhi].
    2:{ rewrite Hr2 by nia. rewrite Hr1 by nia. rewrite Hr by nia.
        reflexivity. }
    pose proof (Z.div_mod (p - dst) chans ltac:(lia)) as Hd.
    pose proof (Z.mod_pos_bound (p - dst) chans ltac:(lia)) as Hc.
    set (k := (p - dst) / chans) in *. set (c := (p - dst) mod chans) in *.
    assert (Hk : 0 <= k < N1 + N2) by nia.
    replace p with (dst + (k * chans + c)) by lia.
    rewrite (Ho k c Hk Hc).
    destruct (Z_lt_le_dec k N1) as [Hk1|Hk1].
    + rewrite Hr2 by nia. apply Ho1; lia.
    + replace (dst + (k * chans + c))
        with (dst + N1 * chans + ((k - N1) * chans + c)) by lia.
      rewrite (Ho2 (k - N1) c) by lia.
      specialize (Hpos k ltac:(lia)).
      assert (Hp : Sint64_wrap (offset + k * rate) = offset + k * rate).
      { apply Sint64_wrap_id.
        unfold in_Sint64, SDL_MIN_SINT64, SDL_MAX_SINT64, SDL_MAX_SINT32 in *.
        nia. }
      assert (Hp' : Sint64_wrap (fst r1 + (k - N1) * rate)
                    = offset + k * rate - M1 * 2 ^ 32).
      { rewrite Hoff1, Sint64_wrap_add_l.
        replace (offset + N1 * rate - M1 * 2 ^ 32 + (k - N1) * rate)
          with (offset + k * rate - M1 * 2 ^ 32) by lia.
        apply Sint64_wrap_id.
        unfold in_Sint64, SDL_MIN_SINT64, SDL_MAX_SINT64, SDL_MAX_SINT32 in *.
        nia. }
      rewrite Hp, Hp'.
      destruct (driver_shift_origin chans src M1 (M1 + M2) (offset + k * rate))
        as (Ef & Ei & Efr); try lia.
      unfold driver_sample. rewrite Ef, Ei, Efr, Hin1, Hfl1. reflexivity.
Qed.

Lemma SDL_ResampleAudio_chunk_invariance_witness :
  let r1 := SDL_ResampleAudio 2 0 3 0 3 (2 ^ 32) 0 machine_with_dispatch in
  let r2 := SDL_ResampleAudio 2 (0 + 3 * 2) 2 (0 + 3 * 2) 2 (2 ^ 32)
              (fst r1) (snd r1) in
  let r := SDL_ResampleAudio 2 0 (3 + 2) 0 (3 + 2) (2 ^ 32) 0
             machine_with_dispatch in
  fst r2 = fst r /\
  forall p, output (snd r2) p = output (snd r) p.
Proof.
  apply (SDL_ResampleAudio_chunk_invariance 2 0 0 3 3 2 2 (2 ^ 32) 0
           machine_with_dispatch);
    try reflexivity;
    unfold in_Sint64, SDL_MIN_SINT64, SDL_MAX_SINT64, SDL_MAX_SINT32;
    lia.
Defined.

(** A call whose output positions all lie between the frame before the
    live origin and the end of the [M] live frames reads only inside
    the buffer with 6 frames of history and 5 of padding, and all its
    assertions hold. *)
Lemma SDL_ResampleAudio_safe_positions
  (chans src dst M N rate offset : Z) (m : machine) :
  1 <= chans <= 8 ->
  kernel_supports (ResampleFrame m (chans - 1)) chans ->
  0 < rate -> 0 <= M -> (M + 5) * chans <= SDL_MAX_SINT32 ->
  in_Sint64 offset -> 0 <= N ->
  (forall k, 0 <= k < N -> - 2 ^ 32 <= offset + k * rate < M * 2 ^ 32) ->
  extends (event_within (src - 6 * chans) (src + (M + 5) * chans)) m
    (snd (SDL_ResampleAudio chans src M dst N rate offset m)).
Proof.
  intros Hch Hsup Hr HM Hmax Hoff HN Hpos.
  set (P := event_within (src - 6 * chans) (src + (M + 5) * chans)).
  assert (HM32 : M <= SDL_MAX_SINT32) by (unfold SDL_MAX_SINT32 in *; nia).
  unfold SDL_ResampleAudio, bind, load_ResampleFrame, SDL_assert, ret.
  rewrite (Sint32_wrap_id (chans - 1))
    by (unfold in_Sint32, SDL_MIN_SINT32, SDL_MAX_SINT32; lia).
  set (f := ResampleFrame m (chans - 1)) in *.
  set (m1 := log (Assert (rate >? 0)) m).
  assert (Hm1 : extends P m m1).
  { apply extends_log. cbn. destruct (Z.gtb_spec rate 0); [reflexivity|lia]. }
  set (src' := src - Sint32_wrap ((RESAMPLER_ZERO_CROSSINGS - 1) * chans)).
  enough (Hinv :
    (fun n (st : (Z * Z) * machine) =>
       fst (fst st) = Sint64_wrap (offset + Z.of_nat n * rate) /\
       extends P m1 (snd st))
      (Z.to_nat N)
      (for_loop (Z.to_nat N) 0
         (SDL_ResampleAudio_body f chans src' M rate) (offset, dst) m1)).
  { cbv beta in Hinv.
    destruct (for_loop (Z.to_nat N) 0 _ (offset, dst) m1) as [st m2].
    cbn [snd] in *. eapply extends_trans; [exact Hm1|apply Hinv]. }
  unfold for_loop. apply for_range_inv.
  - cbn [fst snd]. split; [|apply extends_refl].
    replace (offset + Z.of_nat 0 * rate) with offset by lia.
    symmetry. apply Sint64_wrap_id. exact Hoff.
  - intros n [[srcpos d] s] Hn [Hp He]. cbn [fst snd] in *.
    specialize (Hpos (Z.of_nat n) ltac:(lia)).
    rewrite Sint64_wrap_id in Hp
      by (unfold in_Sint64, SDL_MIN_SINT64, SDL_MAX_SINT64, SDL_MAX_SINT32 in *;
          lia).
    rewrite <- Hp in Hpos.
    split.
    + rewrite SDL_ResampleAudio_body_value. cbn [fst]. f_equal. lia.
    + eapply extends_trans; [exact He|].
      apply SDL_ResampleAudio_body_safe; try assumption; lia.
Qed.

(** The count planned from [M] input frames, with its positions. *)
Lemma OutputFrames_positions (M rate offset : Z) :
  in_Sint64 rate -> 0 < rate -> 0 <= M <= SDL_MAX_SINT32 - 5 ->
  in_Sint64 offset -> - 2 ^ 32 <= offset ->
  let N := fst (SDL_GetResamplerOutputFrames M rate offset) in
  0 <= N /\
  (forall k, 0 <= k < N -> - 2 ^ 32 <= offset + k * rate < M * 2 ^ 32) /\
  snd (SDL_GetResamplerOutputFrames M rate offset)
  = Sint64_wrap (offset + N * rate - M * 2 ^ 32) /\
  (1 <= N -> 0 <= snd (SDL_GetResamplerOutputFrames M rate offset) < rate).
Proof.
  intros Hrate Hr HM Hoff Hlo. cbv zeta.
  assert (Hns : fst (OutputFrames_steps M offset) = false).
  { apply OutputFrames_steps_false; try assumption;
      unfold SDL_MAX_SINT32, SDL_MIN_SINT64, SDL_MAX_SINT64 in *; lia. }
  assert (Hio : OutputFrames_input_offset M offset = M * 2 ^ 32 - offset).
  { apply OutputFrames_input_offset_exact; try assumption; try lia.
    unfold SDL_MIN_SINT64. lia. }
  destruct (OutputFrames_of_input_offset M rate offset Hrate Hr) as [Hle Hgt].
  rewrite Hio in Hle, Hgt.
  destruct (Z_le_gt_dec (M * 2 ^ 32 - offset) 0) as [H0|H0].
  - destruct (Hle H0) as [-> ->].
    split; [lia|]. split; [intros k Hk; lia|]. split; [f_equal; lia|lia].
  - destruct (Hgt ltac:(lia)) as (Eo & Hb & ->).
    set (N := fst (SDL_GetResamplerOutputFrames M rate offset)) in *.
    assert (HN : 1 <= N).
    { rewrite Eo.
      assert (0 <= (M * 2 ^ 32 - offset - 1) / rate) by (apply Z.div_pos; lia).
      lia. }
    split; [lia|]. split; [|split].
    + intros k Hk. assert (0 <= k * rate <= (N - 1) * rate) by nia. lia.
    + symmetry. replace (offset + N * rate - M * 2 ^ 32)
        with (N * rate - (M * 2 ^ 32 - offset)) by lia.
      apply Sint64_wrap_id. unfold in_Sint64, SDL_MIN_SINT64, SDL_MAX_SINT64 in *.
      lia.
    + intros _. lia.
Qed.

(** X11: the planner and the driver agree on the offset.  Producing
    the [N = SDL_GetResamplerOutputFrames(M, rate, &offset)] frames
    planned from [M] input frames (a count that fits the [int]
    parameter) leaves in [*inout_resample_offset] exactly the offset the
    planner stored. *)
Theorem OutputFrames_predicts_driver_offset
  (chans src dst M rate offset : Z) (m : machine) :
  in_Sint64 rate -> 0 < rate -> 0 <= M <= SDL_MAX_SINT32 - 5 ->
  in_Sint64 offset -> - 2 ^ 32 <= offset ->
  let N := fst (SDL_GetResamplerOutputFrames M rate offset) in
  N <= SDL_MAX_SINT32 ->
  fst (SDL_ResampleAudio chans src M dst N rate offset m)
  = snd (SDL_GetResamplerOutputFrames M rate offset).
Proof.
  intros Hrate Hr HM Hoff Hlo N Hint.
  destruct (OutputFrames_positions M rate offset Hrate Hr HM Hoff Hlo)
    as (HN & _ & -> & _).
  apply SDL_ResampleAudio_offset_value. exact HN.
Qed.

Lemma OutputFrames_predicts_driver_offset_witness :
  fst (SDL_ResampleAudio 2 0 4410 0
         (fst (SDL_GetResamplerOutputFrames 4410 4674794335 17))
         4674794335 17 machine_with_dispatch)
  = snd (SDL_GetResamplerOutputFrames 4410 4674794335 17).
Proof.
  apply (OutputFrames_predicts_driver_offset 2 0 0 4410 4674794335 17
           machine_with_dispatch);
    unfold in_Sint64, SDL_MIN_SINT64, SDL_MAX_SINT64, SDL_MAX_SINT32;
    try lia.
  vm_compute. discriminate.
Defined.

(** X12: the output count planned from [M] input frames is safe to
    produce.  With [-2^32 <= offset], [(M + 5) * chans <= INT_MAX] and
    the kernel for [chans] installed, the call for
    [N = SDL_GetResamplerOutputFrames(M, rate, &offset) <= INT_MAX]
    outputs reads
    only between 6 frames before the live origin and 5 frames after
    the [M] live frames, and each of its assertions holds. *)
Theorem SDL_ResampleAudio_safe_for_planned_output
  (chans src dst M rate offset : Z) (m : machine) :
  1 <= chans <= 8 ->
  kernel_supports (ResampleFrame m (chans - 1)) chans ->
  in_Sint64 rate -> 0 < rate -> 0 <= M ->
  (M + 5) * chans <= SDL_MAX_SINT32 ->
  in_Sint64 offset -> - 2 ^ 32 <= offset ->
  let N := fst (SDL_GetResamplerOutputFrames M rate offset) in
  N <= SDL_MAX_SINT32 ->
  extends (event_within (src - SDL_GetResamplerHistoryFrames * chans)
             (src + (M + 5) * chans)) m
    (snd (SDL_ResampleAudio chans src M dst N rate offset m)).
Proof.
  intros Hch Hsup Hrate Hr HM Hmax Hoff Hlo N Hint.
  assert (HM' : 0 <= M <= SDL_MAX_SINT32 - 5)
    by (unfold SDL_MAX_SINT32 in *; nia).
  destruct (OutputFrames_positions M rate offset Hrate Hr HM' Hoff Hlo)
    as (HN & Hpos & _).
  change SDL_GetResamplerHistoryFrames with 6.
  apply SDL_ResampleAudio_safe_positions; assumption.
Qed.

Lemma SDL_ResampleAudio_safe_for_planned_output_witness :
  extends (event_within (0 - SDL_GetResamplerHistoryFrames * 2)
             (0 + (3 + 5) * 2)) machine_with_dispatch
    (snd (SDL_ResampleAudio 2 0 3 0
            (fst (SDL_GetResamplerOutputFrames 3 (2 ^ 31) 0))
            (2 ^ 31) 0 machine_with_dispatch)).
Proof.
  apply (SDL_ResampleAudio_safe_for_planned_output 2 0 0 3 (2 ^ 31) 0
           machine_with_dispatch);
    try reflexivity;
    unfold in_Sint64, SDL_MIN_SINT64, SDL_MAX_SINT64, SDL_MAX_SINT32;
    try lia.
  vm_compute. discriminate.
Defined.

(** X13: a call that follows the planning contract hands back an offset
    that satisfies it again.  With [-2^32 <= offset < rate] and
    [M = SDL_GetResamplerInputFrames(N, rate, offset)] computed without
    saturation, the offset the driver stores is again in
    [[-2^32, rate)]. *)
Theorem SDL_ResampleAudio_offset_contract
  (chans src dst N rate offset : Z) (m : machine) :
  in_Sint64 rate -> 0 < rate -> 0 <= N <= SDL_MAX_SINT32 ->
  - 2 ^ 32 <= offset < rate ->
  fst (InputFrames_steps N rate offset) = false ->
  let M := SDL_GetResamplerInputFrames N rate offset in
  - 2 ^ 32 <= fst (SDL_ResampleAudio chans src M dst N rate offset m) < rate.
Proof.
  intros Hrate Hr HN Hoff Hs.
  apply SDL_ResampleAudio_keeps_offset_contract; assumption.
Qed.

Lemma SDL_ResampleAudio_offset_contract_witness :
  - 2 ^ 32
  <= fst (SDL_ResampleAudio 2 0 (SDL_GetResamplerInputFrames 4050 4674794335 17)
            0 4050 4674794335 17 machine_with_dispatch)
  < 4674794335.
Proof.
  apply (SDL_ResampleAudio_offset_contract 2 0 0 4050 4674794335 17
           machine_with_dispatch);
    unfold in_Sint64, SDL_MIN_SINT64, SDL_MAX_SINT64, SDL_MAX_SINT32;
    try lia.
  reflexivity.
Defined.

(** * Further properties of the kernels and of the setup *)

(** X14: channels do not mix.  The sample a scalar kernel written for
    [C] channels stores for channel [c] is, bit for bit, the one the
    mono kernel stores for the de-interleaved channel: an input whose
    ten samples are [src[i*C + c]], with the same twenty filter taps
    and the same weight. *)
Theorem kernel_channel_independence (f : ResampleFrameFunc)
  (C src dst filter : Z) (interp : float32) (m : machine)
  (c src1 dst1 : Z) (m1 : machine) :
  1 <= C <= 8 -> kernel_supports f C -> 0 <= c < C ->
  (forall i, 0 <= i < 10 -> input m1 (src1 + i) = input m (src + (i * C + c))) ->
  (forall i, 0 <= i < 20 ->
     ResamplerFilter m1 (filter + i) = ResamplerFilter m (filter + i)) ->
  output (snd (call_ResampleFrameFunc f src dst filter interp C m)) (dst + c)
  = output (snd (ResampleFrame_Mono src1 dst1 filter interp 1 m1)) (dst1 + 0).
Proof.
  intros HC Hsup Hc Hin Hfl.
  destruct (call_ResampleFrameFunc_run f src dst filter interp C m)
    as (_ & Ho & _); try assumption; try lia.
  { unfold SDL_MAX_SINT32. lia. }
  destruct (ResampleFrame_Mono_run src1 dst1 filter interp 1 m1) as [_ Ho1].
  rewrite (Ho c Hc), Ho1, upd_same.
  apply fir_sum_ext. intros i Hi. split.
  - symmetry. apply Hin. lia.
  - unfold kernel_scale. change RESAMPLER_SAMPLES_PER_FRAME with 10.
    rewrite (Hfl i) by lia.
    replace (filter + (i + 10)) with (filter + (10 + i)) by lia.
    rewrite (Hfl (10 + i)) by lia. reflexivity.
Qed.

Lemma kernel_channel_independence_witness :
  output (snd (call_ResampleFrameFunc Fn_Generic 0 0 0 f32_half 3
                 (machine_at_start (fun k => f32_of_int k) (fun _ => f32_zero))))
    (0 + 1)
  = output (snd (ResampleFrame_Mono 0 0 0 f32_half 1
                   (machine_at_start (fun k => f32_of_int (k * 3 + 1))
                      (fun _ => f32_zero))))
      (0 + 0).
Proof.
  apply (kernel_channel_independence Fn_Generic 3 0 0 0 f32_half
           (machine_at_start (fun k => f32_of_int k) (fun _ => f32_zero))
           1 0 0
           (machine_at_start (fun k => f32_of_int (k * 3 + 1))
              (fun _ => f32_zero)));
    try lia; try exact I; intros i Hi; reflexivity.
Defined.

(** With fuel for 20 iterations of [bessel] the setup returns. *)
Lemma SDL_SetupAudioResampler_runs
  (SDL_sinf : float32 -> float32) (fuel : nat) (s : machine) :
  (20 <= fuel)%nat ->
  exists s', SDL_SetupAudioResampler SDL_sinf fuel s = Some s'.
Proof.
  intros Hfuel. unfold SDL_SetupAudioResampler.
  destruct (setup s); [eauto|].
  unfold GenerateResamplerFilter. cbv zeta.
  destruct (GenerateKaiserTable_terminates fuel Hfuel) as [kaiser K].
  rewrite K. eauto.
Qed.

(** What a run of the setup that returns has done to the machine. *)
Lemma setup_run_dispatch
  (SDL_sinf : float32 -> float32) (fuel : nat) (s s' : machine) :
  SDL_SetupAudioResampler SDL_sinf fuel s = Some s' ->
  (setup s = true -> s' = s) /\
  (setup s = false ->
   setup s' = true /\
   ResampleFrame s' 0 = Fn_Mono /\
   ResampleFrame s' 1 = Fn_Stereo /\
   (forall i, 2 <= i < 8 -> ResampleFrame s' i = Fn_Generic) /\
   (forall i, ~ (0 <= i < 8) -> ResampleFrame s' i = ResampleFrame s i) /\
   input s' = input s /\ output s' = output s /\ trace s' = trace s).
Proof.
  intros Hrun. unfold SDL_SetupAudioResampler in Hrun.
  destruct (setup s) eqn:Hs.
  - split; [intros _; now apply Some_eq_inv in Hrun|discriminate].
  - split; [discriminate|]. intros _.
    destruct (GenerateResamplerFilter SDL_sinf fuel (ResamplerFilter s));
      [|discriminate].
    apply Some_eq_inv in Hrun. subst s'. cbn [setup ResampleFrame input output trace].
    split; [reflexivity|]. split; [reflexivity|]. split; [reflexivity|].
    split; [|split; [|repeat split]].
    + intros i Hi.
      assert (i = 2 \/ i = 3 \/ i = 4 \/ i = 5 \/ i = 6 \/ i = 7) as Hc by lia.
      repeat (destruct Hc as [->|Hc]); try subst i; reflexivity.
    + intros i Hi. cbn [for_range]. unfold upd.
      repeat match goal with
             | |- context [i =? ?k] => destruct (Z.eqb_spec i k); [lia|]
             end.
      reflexivity.
Qed.

(** X15: the dispatch table the setup installs.  With fuel for the
    [bessel] loops the setup returns; the first run sets the
    flag, puts the mono kernel at index 0, the stereo kernel at index 1
    and the generic kernel at indices 2 to 7 (the two special entries
    are written after the generic fill), leaves every other index and
    the caller's buffers alone; and a run with the flag set changes
    nothing. *)
Theorem SDL_SetupAudioResampler_table
  (SDL_sinf : float32 -> float32) (fuel : nat) (s : machine) :
  (20 <= fuel)%nat ->
  exists s',
    SDL_SetupAudioResampler SDL_sinf fuel s = Some s' /\
    (setup s = true -> s' = s) /\
    (setup s = false ->
     setup s' = true /\
     ResampleFrame s' 0 = Fn_Mono /\
     ResampleFrame s' 1 = Fn_Stereo /\
     (forall i, 2 <= i < 8 -> ResampleFrame s' i = Fn_Generic) /\
     (forall i, ~ (0 <= i < 8) -> ResampleFrame s' i = ResampleFrame s i) /\
     input s' = input s /\ output s' = output s /\ trace s' = trace s).
Proof.
  intros Hfuel.
  destruct (SDL_SetupAudioResampler_runs SDL_sinf fuel s Hfuel) as [s' E].
  exists s'. split; [exact E|].
  exact (setup_run_dispatch SDL_sinf fuel s s' E).
Qed.

Lemma SDL_SetupAudioResampler_table_witness :
  exists s',
    SDL_SetupAudioResampler (fun x => x) 20
      (machine_at_start (fun _ => f32_zero) (fun _ => f32_zero)) = Some s' /\
    (setup (machine_at_start (fun _ => f32_zero) (fun _ => f32_zero)) = true ->
     s' = machine_at_start (fun _ => f32_zero) (fun _ => f32_zero)) /\
    (setup (machine_at_start (fun _ => f32_zero) (fun _ => f32_zero)) = false ->
     setup s' = true /\
     ResampleFrame s' 0 = Fn_Mono /\
     ResampleFrame s' 1 = Fn_Stereo /\
     (forall i, 2 <= i < 8 -> ResampleFrame s' i = Fn_Generic) /\
     (forall i, ~ (0 <= i < 8) ->
        ResampleFrame s' i
        = ResampleFrame
            (machine_at_start (fun _ => f32_zero) (fun _ => f32_zero)) i) /\
     input s' = input (machine_at_start (fun _ => f32_zero) (fun _ => f32_zero)) /\
     output s' = output (machine_at_start (fun _ => f32_zero) (fun _ => f32_zero)) /\
     trace s' = trace (machine_at_start (fun _ => f32_zero) (fun _ => f32_zero))).
Proof.
  apply (SDL_SetupAudioResampler_table (fun x => x) 20
           (machine_at_start (fun _ => f32_zero) (fun _ => f32_zero))).
  lia.
Defined.

(** * Further properties of the filter bank generator *)

(** Induction over two runs of a counted loop side by side. *)
Lemma for_range_rel {S T : Type} (R : nat -> S -> T -> Prop)
  (body : Z -> S -> S) (body' : Z -> T -> T) :
  forall (count : nat) (i : Z) (s : S) (t : T),
    R O s t ->
    (forall n s t, (n < count)%nat -> R n s t ->
                   R (Datatypes.S n) (body (i + Z.of_nat n) s)
                     (body' (i + Z.of_nat n) t)) ->
    R count (for_range count i body s) (for_range count i body' t).
Proof.
  intros count. revert R.
  induction count as [|count IH]; intros R i s t H0 Hstep; cbn [for_range].
  - exact H0.
  - apply (IH (fun n => R (Datatypes.S n))).
    + specialize (Hstep O s t ltac:(lia) H0).
      now rewrite Z.add_0_r in Hstep.
    + intros n s' t' Hn Hi.
      specialize (Hstep (Datatypes.S n) s' t' ltac:(lia) Hi).
      now replace (i + 1 + Z.of_nat n) with (i + Z.of_nat (Datatypes.S n)) by lia.
Qed.

(** A row of the main loop leaves every position it does not write. *)
Lemma GenerateResamplerFilter_outer_frame
  (SDL_sinf : float32 -> float32) (kaiser : Z -> float32) (winglen : Z)
  (sinc_scale : float32) (i : Z) (b : Z -> float32) (q : Z) :
  ~ written_in_row i 5 q ->
  GenerateResamplerFilter_outer SDL_sinf kaiser winglen sinc_scale i b q = b q.
Proof.
  intros Hq. unfold GenerateResamplerFilter_outer.
  change (Z.to_nat RESAMPLER_ZERO_CROSSINGS) with 5%nat.
  apply (for_range_inv
           (fun (m : nat) (st : (Z -> float32) * float32) =>
              (m <= 5)%nat -> fst st q = b q)); [reflexivity| |lia].
  intros m [bank s] Hm Hinv _. cbn [fst] in *.
  unfold GenerateResamplerFilter_inner. cbv zeta. cbn [fst].
  change RESAMPLER_SAMPLES_PER_FRAME with 10.
  change (RESAMPLER_ZERO_CROSSINGS - 1) with 4.
  rewrite !upd_other; [apply Hinv; lia| |].
  - intros E. apply Hq. exists (Z.of_nat m). split; [lia|]. left. lia.
  - intros E. apply Hq. exists (Z.of_nat m). split; [lia|]. right. lia.
Qed.

(** Two runs of a row on banks that agree on a set of positions agree
    on that set and on the positions of the row. *)
Lemma GenerateResamplerFilter_outer_agree
  (SDL_sinf : float32 -> float32) (kaiser : Z -> float32) (winglen : Z)
  (sinc_scale : float32) (W : Z -> Prop) (i : Z) (b b' : Z -> float32) :
  (forall q, W q -> b q = b' q) ->
  forall q, W q \/ written_in_row i 5 q ->
    GenerateResamplerFilter_outer SDL_sinf kaiser winglen sinc_scale i b q
    = GenerateResamplerFilter_outer SDL_sinf kaiser winglen sinc_scale i b' q.
Proof.
  intros HW. unfold GenerateResamplerFilter_outer.
  change (Z.to_nat RESAMPLER_ZERO_CROSSINGS) with 5%nat.
  apply (for_range_rel
           (fun (m : nat) (st st' : (Z -> float32) * float32) =>
              snd st = snd st' /\
              forall q, W q \/ written_in_row i m q -> fst st q = fst st' q)).
  - split; [reflexivity|]. intros q [Hq|(j & Hj & _)]; [apply HW; exact Hq|lia].
  - intros m [bank s] [bank' s'] Hm [Hs Hinv]. cbn [fst snd] in *. subst s'.
    unfold GenerateResamplerFilter_inner. cbv zeta. cbn [fst snd].
    split; [reflexivity|]. intros q Hq.
    change RESAMPLER_SAMPLES_PER_FRAME with 10.
    change (RESAMPLER_ZERO_CROSSINGS - 1) with 4.
    unfold upd.
    destruct (Z.eqb_spec q (RESAMPLER_FILTER_SIZE - 1 - (i * 10 + 4 - (0 + Z.of_nat m))));
      [reflexivity|].
    destruct (Z.eqb_spec q (i * 10 + 4 - (0 + Z.of_nat m))); [reflexivity|].
    apply Hinv. destruct Hq as [Hq|(j & Hj & Hq)]; [left; exact Hq|right].
    exists j. split; [|exact Hq].
    destruct (Z.eq_dec j (Z.of_nat m)); [lia|lia].
Qed.

Lemma cleared_step (i : Z) (b : Z -> float32) (q : Z) :
  GenerateResamplerFilter_clear i b q
  = if (q =? i + RESAMPLER_ZERO_CROSSINGS)
       || (q =? RESAMPLER_FILTER_SIZE - 1 - (i + RESAMPLER_ZERO_CROSSINGS))
    then f32_zero else b q.
Proof.
  unfold GenerateResamplerFilter_clear, upd. cbv zeta.
  destruct (Z.eqb_spec q (i + RESAMPLER_ZERO_CROSSINGS));
    destruct (Z.eqb_spec q (RESAMPLER_FILTER_SIZE - 1
                            - (i + RESAMPLER_ZERO_CROSSINGS))); reflexivity.
Qed.

(** The positions written by the two loops are the entries of the
    bank. *)
Lemma written_or_cleared (q : Z) :
  written_rows 512 q \/ cleared 5 q <-> 0 <= q < RESAMPLER_FILTER_SIZE.
Proof.
  unfold written_rows, written_in_row, cleared.
  change RESAMPLER_FILTER_SIZE with 5130.
  change RESAMPLER_ZERO_CROSSINGS with 5.
  split.
  - intros [(i & Hi & j & Hj & Hq)|(i & Hi & Hq)]; lia.
  - intros Hq.
    pose proof (Z.div_mod q 10 ltac:(lia)) as Hd.
    pose proof (Z.mod_pos_bound q 10 ltac:(lia)) as Hm.
    set (p := q / 10) in *. set (t := q mod 10) in *.
    destruct (Z_lt_le_dec t 5) as [Ht|Ht].
    + destruct (Z_lt_le_dec p 512) as [Hp|Hp].
      * left. exists p. split; [lia|]. exists (4 - t). split; [lia|]. left. lia.
      * right. exists (5124 - q). split; [lia|]. right. lia.
    + destruct (Z_lt_le_dec p 1) as [Hp|Hp].
      * right. exists (q - 5). split; [lia|]. left. lia.
      * left. exists (512 - p). split; [lia|]. exists (t - 5). split; [lia|].
        right. lia.
Qed.

(** What a run of the generator that returns has written. *)
Lemma generator_run_initialises
  (SDL_sinf : float32 -> float32) (fuel : nat) (b0 bank : Z -> float32) :
  GenerateResamplerFilter SDL_sinf fuel b0 = Some bank ->
  (forall q, ~ (0 <= q < RESAMPLER_FILTER_SIZE) -> bank q = b0 q) /\
  (forall b0' bank',
     GenerateResamplerFilter SDL_sinf fuel b0' = Some bank' ->
     forall q, 0 <= q < RESAMPLER_FILTER_SIZE -> bank q = bank' q).
Proof.
  unfold GenerateResamplerFilter. cbv zeta.
  destruct (GenerateKaiserTable fuel _ _ KAISER_TABLE_SIZE) as [kaiser|];
    [|discriminate].
  intros H. apply Some_eq_inv in H. subst bank.
  change (Z.to_nat RESAMPLER_SAMPLES_PER_ZERO_CROSSING) with 512%nat.
  change (Z.to_nat RESAMPLER_ZERO_CROSSINGS) with 5%nat.
  split.
  - intros q Hq.
    assert (Hnw : ~ (written_rows 512 q \/ cleared 5 q))
      by (rewrite written_or_cleared; exact Hq).
    apply (for_range_inv
             (fun (n : nat) (b : Z -> float32) => (n <= 5)%nat -> b q = b0 q));
      [| |lia].
    + intros _.
      apply (for_range_inv
               (fun (n : nat) (b : Z -> float32) =>
                  (n <= 512)%nat -> b q = b0 q)); [reflexivity| |lia].
      intros n b Hn Hinv _.
      rewrite GenerateResamplerFilter_outer_frame; [apply Hinv; lia|].
      intros Hw. apply Hnw. left. exists (0 + Z.of_nat n). split; [lia|exact Hw].
    + intros n b Hn Hinv _. rewrite cleared_step.
      destruct (Z.eqb_spec q (0 + Z.of_nat n + RESAMPLER_ZERO_CROSSINGS)) as [E|E].
      { exfalso. apply Hnw. right. exists (Z.of_nat n). split; [lia|]. left. lia. }
      destruct (Z.eqb_spec q (RESAMPLER_FILTER_SIZE - 1
                              - (0 + Z.of_nat n + RESAMPLER_ZERO_CROSSINGS)))
        as [F|F].
      { exfalso. apply Hnw. right. exists (Z.of_nat n). split; [lia|]. right. lia. }
      cbn [orb]. apply Hinv. lia.
  - intros b0' bank' H'. apply Some_eq_inv in H'. subst bank'.
    intros q Hq. apply written_or_cleared in Hq.
    revert q Hq.
    apply (for_range_rel
             (fun (n : nat) (b b' : Z -> float32) =>
                forall q, written_rows 512 q \/ cleared n q -> b q = b' q)).
    + apply (for_range_rel
               (fun (n : nat) (b b' : Z -> float32) =>
                  forall q, written_rows n q \/ cleared 0 q -> b q = b' q)).
      * intros q [(i & Hi & _)|(i & Hi & _)]; lia.
      * intros n b b' Hn Hinv q Hq.
        apply (GenerateResamplerFilter_outer_agree SDL_sinf kaiser _ _
                 (fun q => written_rows n q \/ cleared 0 q)); [exact Hinv|].
        destruct Hq as [(i & Hi & Hq)|Hq]; [|left; right; exact Hq].
        destruct (Z.eq_dec i (Z.of_nat n)) as [->|Hne].
        -- right. rewrite Z.add_0_l. exact Hq.
        -- left. left. exists i. split; [lia|exact Hq].
    + intros n b b' Hn Hinv q Hq. rewrite !cleared_step.
      destruct ((q =? 0 + Z.of_nat n + RESAMPLER_ZERO_CROSSINGS)
                || (q =? RESAMPLER_FILTER_SIZE - 1
                         - (0 + Z.of_nat n + RESAMPLER_ZERO_CROSSINGS))) eqn:E;
        [reflexivity|].
      apply orb_false_iff in E. destruct E as [E1 E2].
      apply Z.eqb_neq in E1, E2.
      apply Hinv. destruct Hq as [Hq|(i & Hi & Hq)]; [left; exact Hq|right].
      exists i. split; [|exact Hq].
      destruct (Z.eq_dec i (Z.of_nat n)); [lia|lia].
Qed.

(** With fuel for 20 iterations of [bessel] the generator returns. *)
Lemma GenerateResamplerFilter_runs
  (SDL_sinf : float32 -> float32) (fuel : nat) (b0 : Z -> float32) :
  (20 <= fuel)%nat ->
  exists bank, GenerateResamplerFilter SDL_sinf fuel b0 = Some bank.
Proof.
  intros Hfuel. unfold GenerateResamplerFilter. cbv zeta.
  destruct (GenerateKaiserTable_terminates fuel Hfuel) as [kaiser K].
  rewrite K. eauto.
Qed.

(** X16: the generator initialises exactly the
    [RESAMPLER_FILTER_SIZE = 5130] entries of the bank.  With fuel for
    the [bessel] loops it returns, it writes no
    index outside [[0, 5130)], and every entry inside gets a value that
    does not depend on what the bank held before. *)
Theorem GenerateResamplerFilter_initialises
  (SDL_sinf : float32 -> float32) (fuel : nat) (b0 : Z -> float32) :
  (20 <= fuel)%nat ->
  exists bank,
    GenerateResamplerFilter SDL_sinf fuel b0 = Some bank /\
    (forall q, ~ (0 <= q < RESAMPLER_FILTER_SIZE) -> bank q = b0 q) /\
    (forall b0' bank',
       GenerateResamplerFilter SDL_sinf fuel b0' = Some bank' ->
       forall q, 0 <= q < RESAMPLER_FILTER_SIZE -> bank q = bank' q).
Proof.
  intros Hfuel.
  destruct (GenerateResamplerFilter_runs SDL_sinf fuel b0 Hfuel) as [bank E].
  exists bank. split; [exact E|].
  exact (generator_run_initialises SDL_sinf fuel b0 bank E).
Qed.

Lemma GenerateResamplerFilter_initialises_witness :
  exists bank,
    GenerateResamplerFilter (fun x => x) 20 ResamplerFilter_static = Some bank /\
    (forall q, ~ (0 <= q < RESAMPLER_FILTER_SIZE) ->
       bank q = ResamplerFilter_static q) /\
    (forall b0' bank',
       GenerateResamplerFilter (fun x => x) 20 b0' = Some bank' ->
       forall q, 0 <= q < RESAMPLER_FILTER_SIZE -> bank q = bank' q).
Proof.
  apply (GenerateResamplerFilter_initialises (fun x => x) 20
           ResamplerFilter_static).
  lia.
Defined.

(** Row 0 of the main loop stores [1.0f] at the centre tap and at its
    mirror position. *)
Lemma GenerateResamplerFilter_outer_row0
  (SDL_sinf : float32 -> float32) (kaiser : Z -> float32) (winglen : Z)
  (sinc_scale : float32) (b : Z -> float32) :
  let b' := GenerateResamplerFilter_outer SDL_sinf kaiser winglen sinc_scale 0 b in
  b' 4 = f32_one /\ b' 5125 = f32_one.
Proof.
  cbv zeta. unfold GenerateResamplerFilter_outer.
  change (Z.to_nat RESAMPLER_ZERO_CROSSINGS) with 5%nat.
  apply (for_range_inv
           (fun (m : nat) (st : (Z -> float32) * float32) =>
              (1 <= m)%nat -> fst st 4 = f32_one /\ fst st 5125 = f32_one));
    [intros H; lia| |lia].
  intros m [bank s] Hm Hinv _. cbn [fst] in *.
  unfold GenerateResamplerFilter_inner. cbv zeta. cbn [fst].
  change RESAMPLER_SAMPLES_PER_FRAME with 10.
  change (RESAMPLER_ZERO_CROSSINGS - 1) with 4.
  change RESAMPLER_FILTER_SIZE with 5130.
  change RESAMPLER_SAMPLES_PER_ZERO_CROSSING with 512.
  destruct m as [|m].
  - cbn. split; reflexivity.
  - rewrite !upd_other by lia. apply Hinv. lia.
Qed.

(** The boundary rows after a run of the generator that returns. *)
Lemma generator_run_boundary_rows
  (SDL_sinf : float32 -> float32) (fuel : nat) (b0 bank : Z -> float32) :
  GenerateResamplerFilter SDL_sinf fuel b0 = Some bank ->
  bank 4 = f32_one /\ bank 5125 = f32_one /\
  forall i, 0 <= i < 5 ->
    bank (5 + i) = f32_zero /\ bank (5124 - i) = f32_zero.
Proof.
  unfold GenerateResamplerFilter. cbv zeta.
  destruct (GenerateKaiserTable fuel _ _ KAISER_TABLE_SIZE) as [kaiser|];
    [|discriminate].
  intros H. apply Some_eq_inv in H. subst bank.
  change (Z.to_nat RESAMPLER_SAMPLES_PER_ZERO_CROSSING) with 512%nat.
  change (Z.to_nat RESAMPLER_ZERO_CROSSINGS) with 5%nat.
  enough (HI :
    (fun (n : nat) (b : Z -> float32) =>
       b 4 = f32_one /\ b 5125 = f32_one /\
       forall i, 0 <= i < Z.of_nat n ->
                 b (5 + i) = f32_zero /\ b (5124 - i) = f32_zero)
      5%nat
      (for_range 5 0 GenerateResamplerFilter_clear
         (for_range 512 0
            (GenerateResamplerFilter_outer SDL_sinf kaiser
               (RESAMPLER_SAMPLES_PER_ZERO_CROSSING * RESAMPLER_ZERO_CROSSINGS)
               (f32_div SDL_PI_F
                  (f32_of_int RESAMPLER_SAMPLES_PER_ZERO_CROSSING))) b0))).
  { exact HI. }
  apply for_range_inv.
  - enough (HR :
      (fun (n : nat) (b : Z -> float32) =>
         (1 <= n)%nat -> b 4 = f32_one /\ b 5125 = f32_one)
        512%nat
        (for_range 512 0
           (GenerateResamplerFilter_outer SDL_sinf kaiser
              (RESAMPLER_SAMPLES_PER_ZERO_CROSSING * RESAMPLER_ZERO_CROSSINGS)
              (f32_div SDL_PI_F
                 (f32_of_int RESAMPLER_SAMPLES_PER_ZERO_CROSSING))) b0)).
    { destruct (HR ltac:(lia)) as [H4 H5]. repeat split; try assumption; lia. }
    apply for_range_inv; [intros H; lia|].
    intros n b Hn Hinv _.
    destruct n as [|n].
    + apply GenerateResamplerFilter_outer_row0.
    + rewrite !GenerateResamplerFilter_outer_frame; [apply Hinv; lia| |];
        unfold written_in_row; change RESAMPLER_FILTER_SIZE with 5130;
        intros (j & Hj & Hq); lia.
  - intros n b Hn (H4 & H5 & Hz). rewrite !cleared_step.
    change RESAMPLER_FILTER_SIZE with 5130.
    change RESAMPLER_ZERO_CROSSINGS with 5.
    split; [|split].
    + destruct (Z.eqb_spec 4 (0 + Z.of_nat n + 5)); [lia|].
      destruct (Z.eqb_spec 4 (5130 - 1 - (0 + Z.of_nat n + 5))); [lia|].
      exact H4.
    + destruct (Z.eqb_spec 5125 (0 + Z.of_nat n + 5)); [lia|].
      destruct (Z.eqb_spec 5125 (5130 - 1 - (0 + Z.of_nat n + 5))); [lia|].
      exact H5.
    + intros i Hi. rewrite !cleared_step.
      change RESAMPLER_FILTER_SIZE with 5130.
      change RESAMPLER_ZERO_CROSSINGS with 5.
      destruct (Z.eq_dec i (Z.of_nat n)) as [->|Hne].
      * split.
        -- destruct (Z.eqb_spec (5 + Z.of_nat n) (0 + Z.of_nat n + 5)); [|lia].
           reflexivity.
        -- destruct (Z.eqb_spec (5124 - Z.of_nat n) (0 + Z.of_nat n + 5));
             [reflexivity|].
           destruct (Z.eqb_spec (5124 - Z.of_nat n)
                       (5130 - 1 - (0 + Z.of_nat n + 5))); [reflexivity|].
           lia.
      * destruct (Hz i ltac:(lia)) as [Z1 Z2]. split.
        -- destruct (Z.eqb_spec (5 + i) (0 + Z.of_nat n + 5)); [lia|].
           destruct (Z.eqb_spec (5 + i) (5130 - 1 - (0 + Z.of_nat n + 5)));
             [reflexivity|]. exact Z1.
        -- destruct (Z.eqb_spec (5124 - i) (0 + Z.of_nat n + 5));
             [reflexivity|].
           destruct (Z.eqb_spec (5124 - i) (5130 - 1 - (0 + Z.of_nat n + 5)));
             [reflexivity|]. exact Z2.
Qed.

(** X17: the two boundary rows of the bank.  For every [SDL_sinf] and
    every earlier content, the generator (with fuel for the [bessel]
    loops) returns and leaves [1.0f] at the centre
    tap of phase 0 (index 4) and at its mirror image in the last row
    (index 5125), and [0.0f] at the five outer taps of row 0 (indices
    5 to 9) and of row 512 (indices 5120 to 5124). *)
Theorem GenerateResamplerFilter_boundary_rows
  (SDL_sinf : float32 -> float32) (fuel : nat) (b0 : Z -> float32) :
  (20 <= fuel)%nat ->
  exists bank,
    GenerateResamplerFilter SDL_sinf fuel b0 = Some bank /\
    bank 4 = f32_one /\ bank 5125 = f32_one /\
    forall i, 0 <= i < 5 ->
      bank (5 + i) = f32_zero /\ bank (5124 - i) = f32_zero.
Proof.
  intros Hfuel.
  destruct (GenerateResamplerFilter_runs SDL_sinf fuel b0 Hfuel) as [bank E].
  exists bank. split; [exact E|].
  exact (generator_run_boundary_rows SDL_sinf fuel b0 bank E).
Qed.

Lemma GenerateResamplerFilter_boundary_rows_witness :
  exists bank,
    GenerateResamplerFilter (fun x => x) 20 ResamplerFilter_static = Some bank /\
    bank 4 = f32_one /\ bank 5125 = f32_one /\
    forall i, 0 <= i < 5 ->
      bank (5 + i) = f32_zero /\ bank (5124 - i) = f32_zero.
Proof.
  apply (GenerateResamplerFilter_boundary_rows (fun x => x) 20
           ResamplerFilter_static).
  lia.
Defined.

(** The loop of [GenerateKaiserTable] writes [table[i+1 .. i+count]]. *)
Lemma GenerateKaiserTable_loop_frame (fuel : nat) (count : nat) :
  forall (i : Z) (beta bessel_beta : float32) (tablelen : Z)
         (table table' : Z -> float32),
    GenerateKaiserTable_loop fuel count i beta bessel_beta tablelen table
    = Some table' ->
    forall q, ~ (i + 1 <= q <= i + Z.of_nat count) -> table' q = table q.
Proof.
  induction count as [|count IH]; intros i beta bb tl table table' H q Hq;
    cbn [GenerateKaiserTable_loop] in H.
  - apply Some_eq_inv in H. now subst table'.
  - match type of H with
    | match bessel fuel ?a with _ => _ end = _ =>
        destruct (bessel fuel a) as [b|]; [|discriminate]
    end.
    rewrite (IH _ _ _ _ _ _ H q) by lia.
    apply upd_other. lia.
Qed.

(** X18: the layout of the Kaiser table.  For [tablelen >= 1] a run of
    [GenerateKaiserTable] that returns has written only the
    [tablelen + 4] slots [table[0 .. tablelen+3]], with [table[0]] a
    copy of [table[2]] and zeros in the two slots after the last
    sample. *)
Theorem GenerateKaiserTable_layout (fuel : nat) (beta : float32)
  (table t : Z -> float32) (tablelen : Z) :
  GenerateKaiserTable fuel beta table tablelen = Some t ->
  1 <= tablelen ->
  t 0 = t 2 /\
  t (tablelen + 2) = f32_zero /\
  t (tablelen + 3) = f32_zero /\
  forall q, ~ (0 <= q <= tablelen + 3) -> t q = table q.
Proof.
  unfold GenerateKaiserTable. intros H Hlen.
  destruct (bessel fuel beta) as [bb|]; [|discriminate].
  destruct (GenerateKaiserTable_loop fuel (Z.to_nat (tablelen + 1)) 0 beta bb
              tablelen table) as [tl|] eqn:L; [|discriminate].
  apply Some_eq_inv in H. subst t.
  pose proof (GenerateKaiserTable_loop_frame fuel _ _ _ _ _ _ _ L) as Hfr.
  split; [|split; [|split]].
  - rewrite (upd_other _ (tablelen + 3) 0) by lia.
    rewrite (upd_other _ (tablelen + 2) 0) by lia.
    rewrite upd_same.
    rewrite (upd_other _ (tablelen + 3) 2) by lia.
    rewrite (upd_other _ (tablelen + 2) 2) by lia.
    rewrite (upd_other _ 0 2) by lia. reflexivity.
  - rewrite upd_other by lia. apply upd_same.
  - apply upd_same.
  - intros q Hq. rewrite !upd_other by lia. apply Hfr. lia.
Qed.

Lemma GenerateKaiserTable_layout_witness :
  match GenerateKaiserTable 20 (f32_mul f32_0_1102 (f32_sub f32_dB f32_8_7))
          (fun _ => f32_zero) KAISER_TABLE_SIZE with
  | Some t => t 0 = t 2 /\ t (KAISER_TABLE_SIZE + 3) = f32_zero
  | None => False
  end.
Proof.
  destruct (GenerateKaiserTable_terminates 20 (le_n 20)) as [t E].
  rewrite E.
  destruct (GenerateKaiserTable_layout 20 _ _ t KAISER_TABLE_SIZE E)
    as (H0 & _ & H3 & _).
  - unfold KAISER_TABLE_SIZE, RESAMPLER_ZERO_CROSSINGS. lia.
  - split; assumption.
Defined.

(** X19: the generator reads the Kaiser table only inside its
    [KAISER_TABLE_SIZE + 4 = 24] slots.  For every phase [i] in
    [[0, 512)] the row the main loop computes is the same for two
    tables that agree on the indices 0 to 23. *)
Theorem GenerateResamplerFilter_reads_kaiser_in_range
  (SDL_sinf : float32 -> float32) (kaiser kaiser' : Z -> float32)
  (sinc_scale : float32) (i : Z) (b : Z -> float32) :
  0 <= i < RESAMPLER_SAMPLES_PER_ZERO_CROSSING ->
  (forall q, 0 <= q < KAISER_TABLE_SIZE + 4 -> kaiser q = kaiser' q) ->
  forall q,
    GenerateResamplerFilter_outer SDL_sinf kaiser
      (RESAMPLER_SAMPLES_PER_ZERO_CROSSING * RESAMPLER_ZERO_CROSSINGS)
      sinc_scale i b q
    = GenerateResamplerFilter_outer SDL_sinf kaiser'
        (RESAMPLER_SAMPLES_PER_ZERO_CROSSING * RESAMPLER_ZERO_CROSSINGS)
        sinc_scale i b q.
Proof.
  intros Hi Hk. unfold GenerateResamplerFilter_outer.
  change (Z.to_nat RESAMPLER_ZERO_CROSSINGS) with 5%nat.
  change RESAMPLER_SAMPLES_PER_ZERO_CROSSING with 512 in *.
  change (KAISER_TABLE_SIZE + 4) with 24 in Hk.
  apply (for_range_rel
           (fun (m : nat) (st st' : (Z -> float32) * float32) =>
              snd st = snd st' /\ forall q, fst st q = fst st' q)).
  - split; reflexivity.
  - intros m [bank s] [bank' s'] Hm [Hs Hinv]. cbn [fst snd] in *. subst s'.
    unfold GenerateResamplerFilter_inner. cbv zeta. cbn [fst snd].
    split; [reflexivity|].
    change RESAMPLER_SAMPLES_PER_ZERO_CROSSING with 512.
    change KAISER_TABLE_SIZE with 20.
    change (512 * RESAMPLER_ZERO_CROSSINGS) with 2560.
    set (n := (0 + Z.of_nat m) * 512 + i).
    assert (Hn : 0 <= n < 2560) by (subst n; lia).
    assert (Hidx : 0 <= Z.quot (n * 20) 2560 <= 19).
    { rewrite Z.quot_div_nonneg by lia. split.
      - apply Z.div_pos; lia.
      - apply Z.lt_succ_r. apply Z.div_lt_upper_bound; lia. }
    assert (Hv : CubicInterp
                   (CubicCoef (fun _ => f32_zero)
                      (f32_div (f32_of_int (Z.rem (i * 20) 2560))
                         (f32_of_int 2560)))
                   (fun k => kaiser (Z.quot (n * 20) 2560 + k))
                 = CubicInterp
                     (CubicCoef (fun _ => f32_zero)
                        (f32_div (f32_of_int (Z.rem (i * 20) 2560))
                           (f32_of_int 2560)))
                     (fun k => kaiser' (Z.quot (n * 20) 2560 + k))).
    { unfold CubicInterp. rewrite !Hk by lia. reflexivity. }
    rewrite Hv. intros q. unfold upd.
    repeat match goal with
           | |- context [q =? ?k] => destruct (Z.eqb_spec q k)
           end; try reflexivity.
    apply Hinv.
Qed.

Lemma GenerateResamplerFilter_reads_kaiser_in_range_witness :
  GenerateResamplerFilter_outer (fun x => x) (fun _ => f32_one)
    (RESAMPLER_SAMPLES_PER_ZERO_CROSSING * RESAMPLER_ZERO_CROSSINGS)
    f32_one 7 ResamplerFilter_static 74
  = GenerateResamplerFilter_outer (fun x => x)
      (fun q => if q <? 24 then f32_one else f32_zero)
      (RESAMPLER_SAMPLES_PER_ZERO_CROSSING * RESAMPLER_ZERO_CROSSINGS)
      f32_one 7 ResamplerFilter_static 74.
Proof.
  apply (GenerateResamplerFilter_reads_kaiser_in_range (fun x => x)
           (fun _ => f32_one) (fun q => if q <? 24 then f32_one else f32_zero)
           f32_one 7 ResamplerFilter_static).
  - unfold RESAMPLER_SAMPLES_PER_ZERO_CROSSING. cbn. lia.
  - intros q Hq. change (KAISER_TABLE_SIZE + 4) with 24 in Hq.
    destruct (Z.ltb_spec q 24); [reflexivity|lia].
Defined.

(** ** The SSE kernel *)

Lemma acts_ret {A : Type} (lo hi : Z) (x : A) :
  acts lo hi (ret x) (fun _ _ => x) (fun _ _ o => o).
Proof. intros s. repeat split. apply extends_refl. Qed.

Lemma acts_bind {A B : Type} (lo hi : Z) (c : M A) (k : A -> M B)
  v o1 w o2 V O :
  acts lo hi c v o1 ->
  (forall a, acts lo hi (k a) (w a) (o2 a)) ->
  V = (fun f i => w (v f i) f i) ->
  O = (fun f i o => o2 (v f i) f i (o1 f i o)) ->
  acts lo hi (bind c k) V O.
Proof.
  intros Hc Hk -> -> s. unfold bind.
  destruct (Hc s) as (Hv & He & Ho).
  destruct (c s) as [a s']. cbn [fst snd] in *. subst a.
  destruct (Hk (v (ResamplerFilter s) (input s)) s') as (Hv' & He' & Ho').
  pose proof He as (_ & E2 & _ & E4 & _).
  rewrite E2, E4 in *.
  split; [exact Hv'|]. split.
  - eapply extends_trans; eassumption.
  - now rewrite Ho', Ho.
Qed.

Lemma acts_load_src (lo hi p : Z) :
  lo <= p < hi ->
  acts lo hi (load_src p) (fun _ i => i p) (fun _ _ o => o).
Proof.
  intros Hp s. repeat split. apply extends_log. exact Hp.
Qed.

Lemma acts_load_filter (lo hi p : Z) :
  acts lo hi (load_filter p) (fun f _ => f p) (fun _ _ o => o).
Proof. intros s. repeat split. apply extends_refl. Qed.

Lemma acts_store (lo hi p : Z) (x : float32) :
  acts lo hi (store_dst p x) (fun _ _ => tt) (fun _ _ o => upd o p x).
Proof. intros s. repeat split. apply extends_store. Qed.

Lemma acts_ext {A : Type} (lo hi : Z) (c : M A) v o v' o' :
  acts lo hi c v o ->
  (forall f i, v f i = v' f i) ->
  (forall f i x q, o f i x q = o' f i x q) ->
  forall s,
    fst (c s) = v' (ResamplerFilter s) (input s) /\
    extends (event_within lo hi) s (snd (c s)) /\
    forall q, output (snd (c s)) q
              = o' (ResamplerFilter s) (input s) (output s) q.
Proof.
  intros Hc Hv Ho s. destruct (Hc s) as (H1 & H2 & H3).
  split; [now rewrite H1|]. split; [exact H2|].
  intros q. now rewrite H3.
Qed.

Ltac acts_auto :=
  cbv beta;
  lazymatch goal with
  | |- acts _ _ (ret _) _ _ => refine (acts_ret _ _ _)
  | |- acts _ _ (load_filter _) _ _ => refine (acts_load_filter _ _ _)
  | |- acts _ _ (store_dst _ _) _ _ => refine (acts_store _ _ _ _)
  | |- acts _ _ (load_src _) _ _ => refine (acts_load_src _ _ _ _)
  | |- acts _ _ (bind _ _) _ _ =>
      refine (acts_bind _ _ _ _ _ _ _ _ _ _ _ _ _ _);
      [acts_auto | intros ?; acts_auto | reflexivity | reflexivity]
  end.

Ltac sse_unfold :=
  cbv beta zeta delta
    [_mm_loadu_ps _mm_loadl_pi _mm_load_ss _mm_store_ss _mm_storel_pi
     _mm_storeu_ps X_tap X_pair Y_quad].

Lemma shuffle_swap_pairs (a b : __m128) :
  _mm_shuffle_ps a b (_MM_SHUFFLE 2 3 0 1)
  = m128 (lane1 a) (lane0 a) (lane3 b) (lane2 b).
Proof. reflexivity. Qed.

Lemma shuffle_splat (b : __m128) :
  _mm_shuffle_ps b b (_MM_SHUFFLE 0 0 0 0) = _mm_set1_ps (lane0 b) /\
  _mm_shuffle_ps b b (_MM_SHUFFLE 1 1 1 1) = _mm_set1_ps (lane1 b) /\
  _mm_shuffle_ps b b (_MM_SHUFFLE 2 2 2 2) = _mm_set1_ps (lane2 b) /\
  _mm_shuffle_ps b b (_MM_SHUFFLE 3 3 3 3) = _mm_set1_ps (lane3 b).
Proof. repeat split. Qed.

Ltac sse_shuffles :=
  repeat first
    [ rewrite shuffle_swap_pairs
    | rewrite (proj1 (shuffle_splat _))
    | rewrite (proj1 (proj2 (shuffle_splat _)))
    | rewrite (proj1 (proj2 (proj2 (shuffle_splat _))))
    | rewrite (proj2 (proj2 (proj2 (shuffle_splat _)))) ].

Ltac sse_lanes :=
  cbv beta iota zeta delta
    [_mm_add_ps _mm_sub_ps _mm_mul_ps _mm_add_ss _mm_unpacklo_ps
     _mm_unpackhi_ps _mm_movehl_ps _mm_movelh_ps _mm_set1_ps
     _mm_setzero_ps lane0 lane1 lane2 lane3].

(** Equality of two float expressions of the same shape whose buffer
    indices are equal integers. *)
Ltac float_eq :=
  lazymatch goal with
  | |- ?x = ?x => reflexivity
  | |- f32_add _ _ = f32_add _ _ => apply f_equal2; float_eq
  | |- f32_mul _ _ = f32_mul _ _ => apply f_equal2; float_eq
  | |- f32_sub _ _ = f32_sub _ _ => apply f_equal2; float_eq
  | |- upd _ ?p _ ?q = upd _ ?p _ ?q =>
      apply (f_equal2 (fun a v => upd a p v q)); float_eq
  | |- upd _ ?p _ = upd _ ?p _ =>
      apply (f_equal2 (fun a v => upd a p v)); float_eq
  | |- m128 _ _ _ _ = m128 _ _ _ _ => apply f_equal4; float_eq
  | |- ?g _ = ?g _ => apply f_equal; lia
  end.

(** The two-channel path. *)
Lemma SSE_stereo_run (src dst filter : Z) (interp : float32) (m : machine) :
  let m' := snd (ResampleFrame_Generic_SSE src dst filter interp 2 m) in
  extends (event_within src (src + 20)) m m' /\
  forall q,
    output m' q
    = upd (upd (output m) dst
             (stereo_sum (fun i => input m (src + (i * 2 + 0)))
                (kernel_scale m filter interp)))
        (dst + 1)
        (stereo_sum (fun i => input m (src + (i * 2 + 1)))
           (kernel_scale m filter interp)) q.
Proof.
  cbv zeta.
  pose (bl := fun (f : Z -> float32) (k : Z) =>
          f32_add (f32_mul (f (filter + k)) (f32_sub f32_one interp))
                  (f32_mul (f (filter + (k + 10))) interp)).
  pose (o' := fun (f i o : Z -> float32) =>
          upd (upd o dst
                 (stereo_sum (fun k => i (src + (k * 2 + 0))) (bl f)))
            (dst + 1)
            (stereo_sum (fun k => i (src + (k * 2 + 1))) (bl f))).
  enough (H : forall s,
             fst (ResampleFrame_Generic_SSE src dst filter interp 2 s) = tt /\
             extends (event_within src (src + 20)) s
               (snd (ResampleFrame_Generic_SSE src dst filter interp 2 s)) /\
             forall q,
               output (snd (ResampleFrame_Generic_SSE src dst filter interp 2 s)) q
               = o' (ResamplerFilter s) (input s) (output s) q).
  { destruct (H m) as (_ & He & Ho). split; [exact He|exact Ho]. }
  refine (acts_ext src (src + 20) _ _ _ (fun _ _ => tt) o' _ _ _).
  - unfold ResampleFrame_Generic_SSE.
    change (2 =? 2) with true. cbv iota. sse_unfold.
    acts_auto; lia.
  - reflexivity.
  - intros f i x q. cbv beta. sse_lanes.
    unfold o', stereo_sum, product_sum, bl. cbn [fold_left].
    float_eq.
Qed.

Ltac sse_compare :=
  cbv beta iota delta
    [padded_scale padded_sample Z.ltb Z.compare Pos.compare Pos.compare_cont].

(** The one-channel path. *)
Lemma SSE_mono_run (src dst filter : Z) (interp : float32) (m : machine) :
  let m' := snd (ResampleFrame_Generic_SSE src dst filter interp 1 m) in
  extends (event_within src (src + 10)) m m' /\
  forall q,
    output m' q
    = upd (output m) dst
        (horizontal_sum (padded_scale m filter interp)
           (padded_sample (fun i => input m (src + i)))) q.
Proof.
  cbv zeta.
  pose (o' := fun (f i o : Z -> float32) =>
          upd o dst
            (horizontal_sum
               (fun k =>
                  if k <? 10
                  then f32_add
                         (f32_mul (f (filter + k)) (f32_sub f32_one interp))
                         (f32_mul (f (filter + (k + 10))) interp)
                  else f32_add (f32_mul f32_zero (f32_sub f32_one interp))
                               (f32_mul f32_zero interp))
               (padded_sample (fun k => i (src + k))))).
  enough (H : forall s,
             fst (ResampleFrame_Generic_SSE src dst filter interp 1 s) = tt /\
             extends (event_within src (src + 10)) s
               (snd (ResampleFrame_Generic_SSE src dst filter interp 1 s)) /\
             forall q,
               output (snd (ResampleFrame_Generic_SSE src dst filter interp 1 s)) q
               = o' (ResamplerFilter s) (input s) (output s) q).
  { destruct (H m) as (_ & He & Ho). split; [exact He|exact Ho]. }
  refine (acts_ext src (src + 10) _ _ _ (fun _ _ => tt) o' _ _ _).
  - unfold ResampleFrame_Generic_SSE.
    change (1 =? 2) with false. change (1 =? 1) with true. cbv iota.
    sse_unfold. acts_auto; lia.
  - reflexivity.
  - intros f i x q. cbv beta. sse_shuffles. sse_lanes.
    unfold o', horizontal_sum, product_sum. cbn [fold_left]. sse_compare.
    float_eq.
Qed.

(** The interpolated filter vectors. *)
Lemma SSE_row (m : machine) (filter : Z) (interp : float32) (b : Z) :
  _mm_add_ps
    (_mm_mul_ps
       (m128 (ResamplerFilter m (filter + b))
             (ResamplerFilter m (filter + b + 1))
             (ResamplerFilter m (filter + b + 2))
             (ResamplerFilter m (filter + b + 3)))
       (_mm_sub_ps (_mm_set1_ps f32_one) (_mm_set1_ps interp)))
    (_mm_mul_ps
       (m128 (ResamplerFilter m (filter + (b + 10)))
             (ResamplerFilter m (filter + (b + 10) + 1))
             (ResamplerFilter m (filter + (b + 10) + 2))
             (ResamplerFilter m (filter + (b + 10) + 3)))
       (_mm_set1_ps interp))
  = m128 (kernel_scale m filter interp b)
         (kernel_scale m filter interp (b + 1))
         (kernel_scale m filter interp (b + 2))
         (kernel_scale m filter interp (b + 3)).
Proof.
  unfold kernel_scale. sse_lanes.
  change RESAMPLER_SAMPLES_PER_FRAME with 10.
  float_eq.
Qed.

Lemma SSE_row2 (m : machine) (filter : Z) (interp : float32) :
  _mm_add_ps
    (_mm_mul_ps
       (m128 (ResamplerFilter m (filter + 8))
             (ResamplerFilter m (filter + 8 + 1))
             (lane2 _mm_setzero_ps) (lane3 _mm_setzero_ps))
       (_mm_sub_ps (_mm_set1_ps f32_one) (_mm_set1_ps interp)))
    (_mm_mul_ps
       (m128 (ResamplerFilter m (filter + 18))
             (ResamplerFilter m (filter + 18 + 1))
             (lane2 _mm_setzero_ps) (lane3 _mm_setzero_ps))
       (_mm_set1_ps interp))
  = m128 (padded_scale m filter interp 8)
         (padded_scale m filter interp 9)
         (padded_scale m filter interp 10)
         (padded_scale m filter interp 11).
Proof.
  sse_compare. unfold kernel_scale. sse_lanes.
  change RESAMPLER_SAMPLES_PER_FRAME with 10.
  float_eq.
Qed.

(** The loads of the filter leave the machine alone. *)
Lemma bind_loadu_filter {B : Type} (p : Z) (k : __m128 -> M B) (m : machine) :
  bind (_mm_loadu_ps load_filter p) k m
  = k (m128 (ResamplerFilter m p) (ResamplerFilter m (p + 1))
            (ResamplerFilter m (p + 2)) (ResamplerFilter m (p + 3))) m.
Proof. reflexivity. Qed.

Lemma bind_loadl_filter {B : Type} (a : __m128) (p : Z) (k : __m128 -> M B)
  (m : machine) :
  bind (_mm_loadl_pi load_filter a p) k m
  = k (m128 (ResamplerFilter m p) (ResamplerFilter m (p + 1))
            (lane2 a) (lane3 a)) m.
Proof. reflexivity. Qed.

(** One iteration of the four-channel loop. *)
Lemma SSE_four_run (src dst chans : Z) (f0 f1 f2 : __m128) (chan : Z)
  (sc : Z -> float32) (s : machine) :
  0 <= chan -> chan + 4 <= chans -> 10 * chans <= SDL_MAX_SINT32 ->
  f0 = m128 (sc 0) (sc 1) (sc 2) (sc 3) ->
  f1 = m128 (sc 4) (sc 5) (sc 6) (sc 7) ->
  lane0 f2 = sc 8 -> lane1 f2 = sc 9 ->
  let r := ResampleFrame_Generic_SSE_four src dst chans f0 f1 f2 chan s in
  let V := fun l =>
    fir_sum (fun i => input s (src + (i * chans + (chan + l)))) sc 10 in
  fst r = chan + 4 /\
  extends (event_within src (src + 10 * chans)) s (snd r) /\
  forall q,
    output (snd r) q
    = upd (upd (upd (upd (output s) (dst + chan) (V 0))
                  (dst + chan + 1) (V 1))
             (dst + chan + 2) (V 2))
        (dst + chan + 3) (V 3) q.
Proof.
  intros Hc0 Hc4 Hmax -> -> H8 H9. destruct f2 as [a8 a9 a10 a11].
  cbn [lane0 lane1] in H8, H9. subst a8 a9. cbv zeta.
  pose (o' := fun (f i o : Z -> float32) =>
          upd (upd (upd (upd o (dst + chan)
                 (fir_sum (fun k => i (src + (k * chans + (chan + 0)))) sc 10))
                 (dst + chan + 1)
                 (fir_sum (fun k => i (src + (k * chans + (chan + 1)))) sc 10))
                 (dst + chan + 2)
                 (fir_sum (fun k => i (src + (k * chans + (chan + 2)))) sc 10))
                 (dst + chan + 3)
                 (fir_sum (fun k => i (src + (k * chans + (chan + 3)))) sc 10)).
  match goal with
  | |- context [ResampleFrame_Generic_SSE_four ?a ?b ?c ?d ?e ?f ?g] =>
      set (K := ResampleFrame_Generic_SSE_four a b c d e f g)
  end.
  enough (H : forall s0,
             fst (K s0) = chan + 4 /\
             extends (event_within src (src + 10 * chans)) s0 (snd (K s0)) /\
             forall q,
               output (snd (K s0)) q
               = o' (ResamplerFilter s0) (input s0) (output s0) q).
  { exact (H s). }
  subst K.
  refine (acts_ext src (src + 10 * chans) _ _ _ (fun _ _ => chan + 4) o' _ _ _).
  - unfold ResampleFrame_Generic_SSE_four. sse_unfold.
    rewrite !Sint32_wrap_id
      by (unfold in_Sint32, SDL_MIN_SINT32, SDL_MAX_SINT32 in *; lia).
    acts_auto; lia.
  - reflexivity.
  - intros f i x q. cbv beta. sse_shuffles. sse_lanes.
    unfold o'.
    cbv beta iota delta [fir_sum seq map fold_left Z.of_nat Pos.of_succ_nat
                           Pos.succ].
    float_eq.
Qed.

(** One iteration of the one-channel loop, for the channel counts that
    have a case in the switch, and for the others. *)
Lemma SSE_one_run (src dst chans : Z) (f0 f1 f2 : __m128) (chan : Z)
  (sc : Z -> float32) (s : machine) :
  chans = 3 \/ chans = 5 \/ chans = 6 \/ chans = 7 ->
  0 <= chan < chans ->
  f0 = m128 (sc 0) (sc 1) (sc 2) (sc 3) ->
  f1 = m128 (sc 4) (sc 5) (sc 6) (sc 7) ->
  f2 = m128 (sc 8) (sc 9) (sc 10) (sc 11) ->
  let r := ResampleFrame_Generic_SSE_one src dst chans f0 f1 f2 chan s in
  extends (event_within src (src + 10 * chans)) s (snd r) /\
  forall q,
    output (snd r) q
    = upd (output s) (dst + chan)
        (horizontal_sum sc
           (padded_sample (fun i => input s (src + chan + chans * i)))) q.
Proof.
  intros Hn Hc -> -> ->. cbv zeta.
  pose (o' := fun (f i o : Z -> float32) =>
          upd o (dst + chan)
            (horizontal_sum sc
               (padded_sample (fun k => i (src + chan + chans * k))))).
  match goal with
  | |- context [ResampleFrame_Generic_SSE_one ?a ?b ?c ?d ?e ?f ?g] =>
      set (K := ResampleFrame_Generic_SSE_one a b c d e f g)
  end.
  enough (H : forall s0,
             fst (K s0) = tt /\
             extends (event_within src (src + 10 * chans)) s0 (snd (K s0)) /\
             forall q,
               output (snd (K s0)) q
               = o' (ResamplerFilter s0) (input s0) (output s0) q).
  { destruct (H s) as (_ & He & Ho). split; [exact He|exact Ho]. }
  subst K.
  destruct Hn as [-> | [-> | [-> | ->]]];
    (refine (acts_ext src _ _ _ _ (fun _ _ => tt) o' _ _ _);
     [ cbv beta iota zeta delta [ResampleFrame_Generic_SSE_one Z.eqb Pos.eqb];
       sse_unfold; acts_auto; lia
     | reflexivity
     | intros f i x q; unfold o'; cbv beta; sse_shuffles; sse_lanes;
       unfold horizontal_sum, product_sum; cbn [fold_left]; sse_compare;
       float_eq ]).
Qed.

Lemma SSE_one_default (src dst chans : Z) (f0 f1 f2 : __m128) (chan : Z)
  (s : machine) :
  ~ (chans = 3 \/ chans = 5 \/ chans = 6 \/ chans = 7) ->
  ResampleFrame_Generic_SSE_one src dst chans f0 f1 f2 chan s = (tt, s).
Proof.
  intros Hn. unfold ResampleFrame_Generic_SSE_one. cbv zeta.
  destruct (Z.eqb_spec chans 3); [tauto|].
  destruct (Z.eqb_spec chans 5); [tauto|].
  destruct (Z.eqb_spec chans 6); [tauto|].
  destruct (Z.eqb_spec chans 7); [tauto|].
  reflexivity.
Qed.

Lemma SSE_case_dec (chans : Z) :
  {chans = 3 \/ chans = 5 \/ chans = 6 \/ chans = 7}
  + {~ (chans = 3 \/ chans = 5 \/ chans = 6 \/ chans = 7)}.
Proof.
  destruct (Z.eq_dec chans 3); [left; tauto|].
  destruct (Z.eq_dec chans 5); [left; tauto|].
  destruct (Z.eq_dec chans 6); [left; tauto|].
  destruct (Z.eq_dec chans 7); [left; tauto|].
  right. tauto.
Qed.

(** The kernel for a channel count other than 1 and 2: the channels of
    the four-channel loop hold the sum of the scalar kernels, those of
    the one-channel loop the horizontal sum, or nothing when the switch
    has no case for the count. *)
Lemma ResampleFrame_Generic_SSE_loops (src dst filter : Z) (interp : float32)
  (chans : Z) (m : machine) :
  chans <> 1 -> chans <> 2 -> 10 * chans <= SDL_MAX_SINT32 ->
  let m' := snd (ResampleFrame_Generic_SSE src dst filter interp chans m) in
  extends (event_within src (src + 10 * chans)) m m' /\
  (forall c, 0 <= c < 4 * (chans / 4) ->
     output m' (dst + c)
     = fir_sum (fun i => input m (src + (i * chans + c)))
         (kernel_scale m filter interp) 10) /\
  (chans = 3 \/ chans = 5 \/ chans = 6 \/ chans = 7 ->
   forall c, 4 * (chans / 4) <= c < chans ->
     output m' (dst + c)
     = horizontal_sum (padded_scale m filter interp)
         (padded_sample (fun i => input m (src + c + chans * i)))) /\
  (forall p, ~ (dst <= p < dst + chans) -> output m' p = output m p) /\
  (~ (chans = 3 \/ chans = 5 \/ chans = 6 \/ chans = 7) ->
   forall p, ~ (dst <= p < dst + 4 * (chans / 4)) ->
     output m' p = output m p).
Proof.
  intros Hn1 Hn2 Hmax. cbv zeta. unfold ResampleFrame_Generic_SSE.
  repeat (first [rewrite bind_loadu_filter | rewrite bind_loadl_filter];
          cbv beta).
  cbv zeta.
  destruct (Z.eqb_spec chans 2) as [|_]; [contradiction|].
  destruct (Z.eqb_spec chans 1) as [|_]; [contradiction|].
  set (F0 := _mm_add_ps
               (_mm_mul_ps (m128 (ResamplerFilter m (filter + 0)) _ _ _) _) _).
  set (F1 := _mm_add_ps
               (_mm_mul_ps (m128 (ResamplerFilter m (filter + 4)) _ _ _) _) _).
  set (F2 := _mm_add_ps
               (_mm_mul_ps (m128 (ResamplerFilter m (filter + 8)) _ _ _) _) _).
  set (sc := padded_scale m filter interp).
  assert (HF0 : F0 = m128 (sc 0) (sc 1) (sc 2) (sc 3))
    by exact (SSE_row m filter interp 0).
  assert (HF1 : F1 = m128 (sc 4) (sc 5) (sc 6) (sc 7))
    by exact (SSE_row m filter interp 4).
  assert (HF2 : F2 = m128 (sc 8) (sc 9) (sc 10) (sc 11))
    by exact (SSE_row2 m filter interp).
  clearbody F0 F1 F2.
  assert (Hsc : forall x x' : Z -> float32,
             (forall i, 0 <= i < 10 -> x i = x' i) ->
             fir_sum x sc 10 = fir_sum x' (kernel_scale m filter interp) 10).
  { intros x x' Hx. apply fir_sum_ext. intros i Hi. split.
    - apply Hx. lia.
    - subst sc. unfold padded_scale.
      destruct (Z.ltb_spec i 10); [reflexivity|lia]. }
  assert (Hdiv : 4 * (chans / 4) <= chans < 4 * (chans / 4) + 4).
  { pose proof (Z_div_mod_eq_full chans 4).
    pose proof (Z.mod_pos_bound chans 4 ltac:(lia)). lia. }
  set (W := event_within src (src + 10 * chans)).
  unfold bind, for_loop.
  set (N := Z.to_nat (chans / 4)).
  (* the four-channel loop *)
  match goal with
  | |- context [for_range N ?i0 ?b0 (0, m)] =>
      pose proof
        (for_range_inv
           (fun (n : nat) (st : Z * machine) =>
              fst st = 4 * Z.of_nat n /\
              extends W m (snd st) /\
              (forall c, 0 <= c < 4 * Z.of_nat n ->
                 output (snd st) (dst + c)
                 = fir_sum (fun i => input m (src + (i * chans + c)))
                     (kernel_scale m filter interp) 10) /\
              (forall p, ~ (dst <= p < dst + 4 * Z.of_nat n) ->
                 output (snd st) p = output m p))
           b0 N i0 (0, m)) as H1
  end.
  cbv beta in H1.
  destruct (for_range N 0 _ (0, m)) as [chan1 m1].
  destruct H1 as (Hch1 & He1 & Hout1 & Hfr1).
  { cbn [fst snd]. split; [reflexivity|]. split; [apply extends_refl|].
    split; [intros c Hc; lia|reflexivity]. }
  { intros n [chan s] Hlt (Hch & He & Hout & Hfr). cbn [fst snd] in *.
    subst chan.
    assert (Hn4 : 4 * Z.of_nat n + 4 <= chans) by (subst N; lia).
    pose proof (SSE_four_run src dst chans F0 F1 F2 (4 * Z.of_nat n) sc s
                  ltac:(lia) Hn4 Hmax HF0 HF1
                  ltac:(now rewrite HF2) ltac:(now rewrite HF2)) as R.
    cbv zeta in R.
    destruct (ResampleFrame_Generic_SSE_four src dst chans F0 F1 F2
                (4 * Z.of_nat n) s) as [chan' s'].
    cbn [fst snd] in *. destruct R as (Rc & Re & Ro).
    pose proof He as (_ & _ & _ & Hin & _).
    split; [lia|]. split; [eapply extends_trans; eassumption|]. split.
    - intros c Hc. rewrite Ro. unfold upd.
      repeat match goal with
             | |- context [?a =? ?b] => destruct (Z.eqb_spec a b)
             end;
        try (apply Hsc; intros i Hi; rewrite Hin; f_equal; lia).
      apply Hout. lia.
    - intros p Hp. rewrite Ro. rewrite !upd_other by lia. apply Hfr. lia. }
  cbn [fst snd] in *.
  assert (Hc1 : chan1 = 4 * (chans / 4) \/ chans / 4 < 0 /\ chan1 = 0)
    by (subst N; lia).
  (* the one-channel loop *)
  destruct (SSE_case_dec chans) as [Hs|Hs].
  - match goal with
    | |- context [for_range ?K0 ?i0 ?b0 (tt, m1)] =>
        pose proof
          (for_range_inv
             (fun (k : nat) (st : unit * machine) =>
                extends W m (snd st) /\
                (forall c, 0 <= c < chan1 ->
                   output (snd st) (dst + c)
                   = fir_sum (fun i => input m (src + (i * chans + c)))
                       (kernel_scale m filter interp) 10) /\
                (forall c, chan1 <= c < chan1 + Z.of_nat k ->
                   output (snd st) (dst + c)
                   = horizontal_sum sc
                       (padded_sample
                          (fun i => input m (src + c + chans * i)))) /\
                (forall p, ~ (dst <= p < dst + chan1 + Z.of_nat k) ->
                   output (snd st) p = output m p))
             b0 K0 i0 (tt, m1)) as H2
    end.
    cbv beta in H2.
    destruct (for_range (Z.to_nat (chans - chan1)) chan1 _ (tt, m1))
      as [u m2].
    destruct H2 as (He2 & Hout2 & Hrem2 & Hfr2).
    { cbn [fst snd]. split; [exact He1|]. split.
      - intros c Hc. apply Hout1. lia.
      - split; [intros c Hc; lia|].
        intros p Hp. apply Hfr1. lia. }
    { intros k [u0 s] Hlt (He & Hout & Hrem & Hfr). cbn [fst snd] in *.
      pose proof (SSE_one_run src dst chans F0 F1 F2 (chan1 + Z.of_nat k)
                    sc s Hs ltac:(lia) HF0 HF1 HF2) as R.
      cbv zeta in R.
      destruct (ResampleFrame_Generic_SSE_one src dst chans F0 F1 F2
                  (chan1 + Z.of_nat k) s) as [u' s'].
      cbn [fst snd] in *. destruct R as (Re & Ro).
      pose proof He as (_ & _ & _ & Hin & _).
      split; [eapply extends_trans; eassumption|]. split; [|split].
      - intros c Hc. rewrite Ro, upd_other by lia. apply Hout. exact Hc.
      - intros c Hc. rewrite Ro.
        destruct (Z.eq_dec c (chan1 + Z.of_nat k)) as [->|Hne].
        + rewrite upd_same, Hin. reflexivity.
        + rewrite upd_other by lia. apply Hrem. lia.
      - intros p Hp. rewrite Ro, upd_other by lia. apply Hfr. lia. }
    cbn [fst snd] in *.
    split; [exact He2|]. split; [|split; [|split]].
    + intros c Hc. apply Hout2. lia.
    + intros _ c Hc. apply Hrem2. lia.
    + intros p Hp. apply Hfr2. lia.
    + intros Hs'. contradiction.
  - match goal with
    | |- context [for_range ?K0 ?i0 ?b0 (tt, m1)] =>
        pose proof
          (for_range_inv
             (fun (k : nat) (st : unit * machine) => snd st = m1)
             b0 K0 i0 (tt, m1)) as H2
    end.
    cbv beta in H2.
    destruct (for_range (Z.to_nat (chans - chan1)) chan1 _ (tt, m1))
      as [u m2].
    cbn [fst snd] in *.
    rewrite H2.
    + split; [exact He1|]. split; [|split; [|split]].
      * intros c Hc. apply Hout1. lia.
      * intros Hs'. contradiction.
      * intros p Hp. apply Hfr1. lia.
      * intros _ p Hp. apply Hfr1. lia.
    + reflexivity.
    + intros k [u' s] Hlt Hst. cbn [fst snd] in *. subst s.
      now rewrite SSE_one_default.
Qed.

(** X20: on the channels of its four-channel loop the SSE kernel stores
    the same binary32 value as the scalar [ResampleFrame_Generic]: for
    every channel [c] below [4 * (chans / 4)] the two kernels, run on
    the same machine with the same arguments, leave the same [dst[c]]. *)
Theorem ResampleFrame_Generic_SSE_matches_scalar
  (src dst filter : Z) (interp : float32) (chans : Z) (m : machine) (c : Z) :
  10 * chans <= SDL_MAX_SINT32 ->
  0 <= c < 4 * (chans / 4) ->
  output (snd (ResampleFrame_Generic_SSE src dst filter interp chans m))
    (dst + c)
  = output (snd (ResampleFrame_Generic src dst filter interp chans m))
      (dst + c).
Proof.
  intros Hmax Hc.
  assert (Hdiv : 4 * (chans / 4) <= chans).
  { pose proof (Z_div_mod_eq_full chans 4).
    pose proof (Z.mod_pos_bound chans 4 ltac:(lia)). lia. }
  destruct (ResampleFrame_Generic_SSE_loops src dst filter interp chans m
              ltac:(lia) ltac:(lia) Hmax) as (_ & Hsse & _).
  destruct (ResampleFrame_Generic_run src dst filter interp chans m
              ltac:(lia) Hmax) as (_ & Hgen & _).
  rewrite Hsse by exact Hc. rewrite Hgen by lia. reflexivity.
Qed.

Lemma ResampleFrame_Generic_SSE_matches_scalar_witness :
  output (snd (ResampleFrame_Generic_SSE 0 0 0 f32_half 4
                 (machine_at_start (fun k => f32_of_int k)
                    (fun _ => f32_zero))))
    (0 + 2)
  = output (snd (ResampleFrame_Generic 0 0 0 f32_half 4
                   (machine_at_start (fun k => f32_of_int k)
                      (fun _ => f32_zero))))
      (0 + 2).
Proof.
  apply (ResampleFrame_Generic_SSE_matches_scalar 0 0 0 f32_half 4
           (machine_at_start (fun k => f32_of_int k) (fun _ => f32_zero)) 2).
  - unfold SDL_MAX_SINT32. lia.
  - change (4 / 4) with 1. lia.
Defined.

(** X21: for a channel count that is a multiple of four (4 and 8 among
    the supported ones) the SSE kernel and the scalar
    [ResampleFrame_Generic] leave the same output buffer. *)
Theorem ResampleFrame_Generic_SSE_multiple_of_four
  (src dst filter : Z) (interp : float32) (chans : Z) (m : machine) :
  0 <= chans -> chans mod 4 = 0 -> 10 * chans <= SDL_MAX_SINT32 ->
  forall p,
    output (snd (ResampleFrame_Generic_SSE src dst filter interp chans m)) p
    = output (snd (ResampleFrame_Generic src dst filter interp chans m)) p.
Proof.
  intros Hc0 Hmod Hmax p.
  assert (Hdiv : 4 * (chans / 4) = chans).
  { pose proof (Z_div_mod_eq_full chans 4). lia. }
  destruct (ResampleFrame_Generic_SSE_loops src dst filter interp chans m
              ltac:(intros ->; discriminate) ltac:(intros ->; discriminate)
              Hmax) as (_ & Hsse & _ & Hfr & _).
  destruct (ResampleFrame_Generic_run src dst filter interp chans m Hc0 Hmax)
    as (_ & Hgen & Hgfr).
  destruct (Z_lt_le_dec p dst) as [Hlo|Hlo].
  - rewrite Hfr, Hgfr by lia. reflexivity.
  - destruct (Z_lt_le_dec p (dst + chans)) as [Hhi|Hhi].
    + replace p with (dst + (p - dst)) by lia.
      rewrite Hsse, Hgen by lia. reflexivity.
    + rewrite Hfr, Hgfr by lia. reflexivity.
Qed.

Lemma ResampleFrame_Generic_SSE_multiple_of_four_witness :
  output (snd (ResampleFrame_Generic_SSE 0 0 0 f32_half 8
                 (machine_at_start (fun k => f32_of_int k)
                    (fun _ => f32_zero)))) 5
  = output (snd (ResampleFrame_Generic 0 0 0 f32_half 8
                   (machine_at_start (fun k => f32_of_int k)
                      (fun _ => f32_zero)))) 5.
Proof.
  apply (ResampleFrame_Generic_SSE_multiple_of_four 0 0 0 f32_half 8
           (machine_at_start (fun k => f32_of_int k) (fun _ => f32_zero))).
  - lia.
  - reflexivity.
  - unfold SDL_MAX_SINT32. lia.
Defined.

(** X22: memory safety of the SSE kernel.  For any channel count whose
    window of ten frames has an [int] size, every input sample the
    kernel reads lies in [src[0 .. 10 * chans - 1]] (the partial vector
    loads do not run past the window), the statics and the input are
    left alone, and nothing outside [dst[0 .. chans - 1]] is written. *)
Theorem ResampleFrame_Generic_SSE_safe
  (src dst filter : Z) (interp : float32) (chans : Z) (m : machine) :
  10 * chans <= SDL_MAX_SINT32 ->
  let m' := snd (ResampleFrame_Generic_SSE src dst filter interp chans m) in
  extends (event_within src (src + 10 * chans)) m m' /\
  forall p, ~ (dst <= p < dst + chans) -> output m' p = output m p.
Proof.
  intros Hmax. cbv zeta.
  destruct (Z.eq_dec chans 1) as [->|Hn1].
  { destruct (SSE_mono_run src dst filter interp m) as (He & Ho).
    split; [exact He|]. intros p Hp. rewrite Ho. apply upd_other. lia. }
  destruct (Z.eq_dec chans 2) as [->|Hn2].
  { destruct (SSE_stereo_run src dst filter interp m) as (He & Ho).
    split; [exact He|]. intros p Hp. rewrite Ho.
    rewrite !upd_other by lia. reflexivity. }
  destruct (ResampleFrame_Generic_SSE_loops src dst filter interp chans m
              Hn1 Hn2 Hmax) as (He & _ & _ & Hfr & _).
  split; assumption.
Qed.

Lemma ResampleFrame_Generic_SSE_safe_witness :
  extends (event_within 100 (100 + 10 * 3))
    (machine_at_start (fun k => f32_of_int k) (fun _ => f32_zero))
    (snd (ResampleFrame_Generic_SSE 100 0 0 f32_half 3
            (machine_at_start (fun k => f32_of_int k) (fun _ => f32_zero)))).
Proof.
  apply (ResampleFrame_Generic_SSE_safe 100 0 0 f32_half 3
           (machine_at_start (fun k => f32_of_int k) (fun _ => f32_zero))).
  unfold SDL_MAX_SINT32. lia.
Defined.

(** X23: the sum of the two-channel path of the SSE kernel.  Channel [c]
    of [dst] receives the sum of the products of the even taps plus the
    sum of the products of the odd taps, each accumulated from its
    first product, with the blended scales of the scalar kernels. *)
Theorem ResampleFrame_Generic_SSE_stereo
  (src dst filter : Z) (interp : float32) (m : machine) :
  let m' := snd (ResampleFrame_Generic_SSE src dst filter interp 2 m) in
  output m' dst
  = stereo_sum (fun i => input m (src + (i * 2 + 0)))
      (kernel_scale m filter interp) /\
  output m' (dst + 1)
  = stereo_sum (fun i => input m (src + (i * 2 + 1)))
      (kernel_scale m filter interp).
Proof.
  cbv zeta.
  destruct (SSE_stereo_run src dst filter interp m) as (_ & Ho).
  split; rewrite Ho.
  - rewrite upd_other by lia. apply upd_same.
  - apply upd_same.
Qed.

(** X24: the horizontal sum of the one-channel paths of the SSE kernel.
    For one channel, and for the channels that the four-channel loop
    leaves over when [chans] is 3, 5, 6 or 7, [dst[c]] is
    [(lane 0 + lane 1) + (lane 2 + lane 3)] where lane [k] accumulates
    the products of the taps [k], [k + 4] and [k + 8] of the ten taps
    padded with two zero samples. *)
Theorem ResampleFrame_Generic_SSE_horizontal_sum
  (src dst filter : Z) (interp : float32) (chans : Z) (m : machine) (c : Z) :
  chans = 1 \/ chans = 3 \/ chans = 5 \/ chans = 6 \/ chans = 7 ->
  4 * (chans / 4) <= c < chans ->
  output (snd (ResampleFrame_Generic_SSE src dst filter interp chans m))
    (dst + c)
  = horizontal_sum (padded_scale m filter interp)
      (padded_sample (fun i => input m (src + c + chans * i))).
Proof.
  intros Hn Hc.
  destruct Hn as [->|Hn].
  - change (1 / 4) with 0 in Hc. assert (c = 0) by lia. subst c.
    destruct (SSE_mono_run src dst filter interp m) as (_ & Ho).
    rewrite Ho. replace (dst + 0) with dst by lia. rewrite upd_same.
    unfold horizontal_sum, product_sum. cbn [fold_left]. sse_compare.
    float_eq.
  - destruct (ResampleFrame_Generic_SSE_loops src dst filter interp chans m)
      as (_ & _ & Hrem & _).
    + lia.
    + lia.
    + unfold SDL_MAX_SINT32. lia.
    + apply Hrem; assumption.
Qed.

Lemma ResampleFrame_Generic_SSE_horizontal_sum_witness :
  output (snd (ResampleFrame_Generic_SSE 0 0 0 f32_half 3
                 (machine_at_start (fun k => f32_of_int k)
                    (fun _ => f32_zero))))
    (0 + 1)
  = horizontal_sum
      (padded_scale
         (machine_at_start (fun k => f32_of_int k) (fun _ => f32_zero))
         0 f32_half)
      (padded_sample (fun i => f32_of_int (0 + 1 + 3 * i))).
Proof.
  apply (ResampleFrame_Generic_SSE_horizontal_sum 0 0 0 f32_half 3
           (machine_at_start (fun k => f32_of_int k) (fun _ => f32_zero)) 1).
  - right. left. reflexivity.
  - change (3 / 4) with 0. lia.
Defined.

(** X25: channel counts without a case.  When [chans] is none of 1, 2,
    3, 5, 6, 7 the one-channel loop returns at once, so the kernel
    writes only the channels of the full groups of four: every
    [dst[p]] with [p >= 4 * (chans / 4)] is left as it was (for
    instance channel 8 of 9), and nothing at all is written for a
    count below 4. *)
Theorem ResampleFrame_Generic_SSE_no_case
  (src dst filter : Z) (interp : float32) (chans : Z) (m : machine) :
  chans <> 1 -> chans <> 2 ->
  ~ (chans = 3 \/ chans = 5 \/ chans = 6 \/ chans = 7) ->
  10 * chans <= SDL_MAX_SINT32 ->
  forall p, ~ (dst <= p < dst + 4 * (chans / 4)) ->
    output (snd (ResampleFrame_Generic_SSE src dst filter interp chans m)) p
    = output m p.
Proof.
  intros Hn1 Hn2 Hs Hmax.
  destruct (ResampleFrame_Generic_SSE_loops src dst filter interp chans m
              Hn1 Hn2 Hmax) as (_ & _ & _ & _ & Hno).
  exact (Hno Hs).
Qed.

Lemma ResampleFrame_Generic_SSE_no_case_witness :
  output (snd (ResampleFrame_Generic_SSE 0 0 0 f32_half 9
                 (machine_at_start (fun k => f32_of_int k)
                    (fun _ => f32_one)))) 8
  = f32_one.
Proof.
  apply (ResampleFrame_Generic_SSE_no_case 0 0 0 f32_half 9
           (machine_at_start (fun k => f32_of_int k) (fun _ => f32_one))).
  - discriminate.
  - discriminate.
  - intros [H|[H|[H|H]]]; discriminate H.
  - unfold SDL_MAX_SINT32. lia.
  - change (9 / 4) with 2. lia.
Defined.

(** X26: the one-channel path of the SSE kernel is not bit-identical to
    the scalar [ResampleFrame_Mono]: the horizontal sum adds the
    products in another order, and there is an input on which the two
    kernels store different binary32 values. *)
Theorem ResampleFrame_Generic_SSE_mono_differs :
  exists (m : machine) (src dst filter : Z) (interp : float32),
    output (snd (ResampleFrame_Generic_SSE src dst filter interp 1 m)) dst
    <> output (snd (ResampleFrame_Mono src dst filter interp 1 m)) (dst + 0).
Proof.
  exists {| setup := true;
            ResamplerFilter := fun k => if k <? 10 then f32_one else f32_zero;
            ResampleFrame := ResampleFrame_static;
            input := fun k => if k =? 0 then f32_of_int 16777216 else f32_one;
            output := fun _ => f32_zero;
            trace := [] |}.
  exists 0, 0, 0, f32_zero.
  vm_compute. discriminate.
Qed.

(** ** The frames the two query functions report *)

(** X27: the history and padding the query functions report are enough
    for a planned call.  For [rate > 0] the padding
    [SDL_GetResamplerPaddingFrames(rate)] does not exceed
    [SDL_GetResamplerHistoryFrames()], and producing the
    [N = SDL_GetResamplerOutputFrames(M, rate, &offset)] frames planned
    from [M] live input frames reads only between the reported history
    before the live origin and the reported padding after the live
    frames. *)
Theorem SDL_GetResamplerPaddingFrames_suffices
  (chans src dst M rate offset : Z) (m : machine) :
  1 <= chans <= 8 ->
  kernel_supports (ResampleFrame m (chans - 1)) chans ->
  in_Sint64 rate -> 0 < rate -> 0 <= M ->
  (M + 5) * chans <= SDL_MAX_SINT32 ->
  in_Sint64 offset -> - 2 ^ 32 <= offset ->
  let N := fst (SDL_GetResamplerOutputFrames M rate offset) in
  N <= SDL_MAX_SINT32 ->
  SDL_GetResamplerPaddingFrames rate <= SDL_GetResamplerHistoryFrames /\
  extends
    (event_within (src - SDL_GetResamplerHistoryFrames * chans)
       (src + (M + SDL_GetResamplerPaddingFrames rate) * chans)) m
    (snd (SDL_ResampleAudio chans src M dst N rate offset m)).
Proof.
  intros Hch Hsup Hrate Hr HM Hmax Hoff Hlo N Hint.
  unfold SDL_GetResamplerPaddingFrames.
  destruct (Z.eqb_spec rate 0) as [E|_]; [lia|].
  change SDL_GetResamplerHistoryFrames with 6.
  change RESAMPLER_MAX_PADDING_FRAMES with 6.
  split; [lia|].
  assert (HM' : 0 <= M <= SDL_MAX_SINT32 - 5)
    by (unfold SDL_MAX_SINT32 in *; nia).
  destruct (OutputFrames_positions M rate offset Hrate Hr HM' Hoff Hlo)
    as (HN & Hpos & _).
  apply (extends_weaken
           (event_within (src - 6 * chans) (src + (M + 5) * chans))).
  - intros [a|b]; unfold event_within; [lia|auto].
  - apply SDL_ResampleAudio_safe_positions; assumption.
Qed.

Lemma SDL_GetResamplerPaddingFrames_suffices_witness :
  SDL_GetResamplerPaddingFrames (2 ^ 31) <= SDL_GetResamplerHistoryFrames /\
  extends
    (event_within (0 - SDL_GetResamplerHistoryFrames * 2)
       (0 + (3 + SDL_GetResamplerPaddingFrames (2 ^ 31)) * 2))
    machine_with_dispatch
    (snd (SDL_ResampleAudio 2 0 3 0
            (fst (SDL_GetResamplerOutputFrames 3 (2 ^ 31) 0))
            (2 ^ 31) 0 machine_with_dispatch)).
Proof.
  apply (SDL_GetResamplerPaddingFrames_suffices 2 0 0 3 (2 ^ 31) 0
           machine_with_dispatch);
    try reflexivity;
    unfold in_Sint64, SDL_MIN_SINT64, SDL_MAX_SINT64, SDL_MAX_SINT32;
    try lia.
  vm_compute. discriminate.
Defined.
